(** * ZKverification: the signed-attestation-to-proof pipeline

    A shallow embedding of the OAuth/PKCE handshake
    ([src/utils/pkce.ts], [src/components/TwitterLogin.ts],
    [src/components/AuthCallback.ts]), of the attestation routes of the
    backend ([server/routes/twitter.ts]) and of the client-side proof
    orchestration ([index.js], [verification.js]), with the properties the
    specification states about them; and of the GitHub side
    ([server/routes/github.ts], [server/services/github.service.ts],
    [src/components/GitHubCallback.ts]) and the session in the browser
    ([src/components/App.ts], [AuthenticatedView.ts], [AuthStatus.ts]),
    with properties read off the code.

    Conventions.
    - A JavaScript string is a [string]; the model covers the 8-bit code
      units (ASCII and the Latin-1 "binary strings" that [btoa] takes).
    - A [Uint8Array] or a Node [Buffer] is a [list byte].
    - A JavaScript number that the code only ever uses as an integer is a [Z].
    - Cryptographic primitives and the remote parties (SHA-256, the ECDSA
      signer, the identity provider, the Noir toolchain) are parameters of
      the sections that use them. *)

From Stdlib Require Import ZArith NArith Lia.
From Stdlib Require Import Strings.Ascii Strings.String Strings.Byte.
From Stdlib Require DecimalString HexadecimalString DecimalPos.
From stdpp Require Import base option list sorting gmap strings.

#[local] Open Scope Z_scope.

(** ** Encodings: hexadecimal, base64, percent-encoding *)

Module Encoding.

(** [String.fromCharCode(...bytes)]: one code unit per byte. *)
Fixpoint fromCharCode (bs : list byte) : string :=
  match bs with
  | [] => EmptyString
  | b :: bs' => String (ascii_of_byte b) (fromCharCode bs')
  end.

(** The bytes of a binary string, one per code unit, as [btoa] reads it. *)
Fixpoint binary_bytes (s : string) : list byte :=
  match s with
  | EmptyString => []
  | String c s' => byte_of_ascii c :: binary_bytes s'
  end.

Definition byte_of_N (n : N) : byte :=
  match Byte.of_N n with
  | Some b => b
  | None => x00
  end.

(** The bytes of a code unit in UTF-8. *)
Definition utf8 (c : ascii) : list byte :=
  let n := N_of_ascii c in
  if (n <? 128)%N then [byte_of_ascii c]
  else [byte_of_N (N.lor 192 (N.shiftr n 6)); byte_of_N (N.lor 128 (N.land n 63))].

(** [new TextEncoder().encode(s)], also [Buffer.from(s)] and what
    [hash.update(s)] reads: the string in UTF-8. *)
Fixpoint encode (s : string) : list byte :=
  match s with
  | EmptyString => []
  | String c s' => utf8 c ++ encode s'
  end.

Definition hex_digit (n : N) : ascii :=
  match n with
  | 0 => "0" | 1 => "1" | 2 => "2" | 3 => "3" | 4 => "4" | 5 => "5"
  | 6 => "6" | 7 => "7" | 8 => "8" | 9 => "9" | 10 => "a" | 11 => "b"
  | 12 => "c" | 13 => "d" | 14 => "e" | _ => "f"
  end%N%char.

(** [b.toString(16).padStart(2, '0')] for a byte [b]. *)
Definition hex_byte (b : byte) : string :=
  let n := Byte.to_N b in
  String (hex_digit (N.shiftr n 4)) (String (hex_digit (N.land n 15)) EmptyString).

(** [Array.from(bytes).map(hex_byte).join('')], also [buf.toString('hex')]. *)
Fixpoint hex (bs : list byte) : string :=
  match bs with
  | [] => EmptyString
  | b :: bs' => hex_byte b +:+ hex bs'
  end.

Definition is_hex_digit (c : ascii) : bool :=
  let n := N_of_ascii c in
  ((48 <=? n) && (n <=? 57) || (97 <=? n) && (n <=? 102))%N.

Definition b64_alphabet : string :=
  "ABCDEFGHIJKLMNOPQRSTUVWXYZabcdefghijklmnopqrstuvwxyz0123456789+/".

Definition b64url_alphabet : string :=
  "ABCDEFGHIJKLMNOPQRSTUVWXYZabcdefghijklmnopqrstuvwxyz0123456789-_".

(** The character of a 6-bit group. *)
Definition sextet (alphabet : string) (i : N) : ascii :=
  match String.get (N.to_nat (N.land i 63)) alphabet with
  | Some c => c
  | None => "A"%char
  end.

Definition s1 (a : byte) : N := N.shiftr (Byte.to_N a) 2.
Definition s2 (a b : byte) : N :=
  N.lor (N.shiftl (N.land (Byte.to_N a) 3) 4) (N.shiftr (Byte.to_N b) 4).
Definition s3 (b c : byte) : N :=
  N.lor (N.shiftl (N.land (Byte.to_N b) 15) 2) (N.shiftr (Byte.to_N c) 6).
Definition s4 (c : byte) : N := N.land (Byte.to_N c) 63.

(** RFC 4648 section 4 with padding, over a given alphabet: what [btoa]
    and [Buffer.toString('base64')] compute with the standard alphabet. *)
Fixpoint base64_with (alphabet : string) (bs : list byte) : string :=
  let ch := sextet alphabet in
  match bs with
  | [] => EmptyString
  | [a] =>
      String (ch (s1 a)) (String (ch (s2 a x00)) "==")
  | [a; b] =>
      String (ch (s1 a)) (String (ch (s2 a b)) (String (ch (s3 b x00)) "="))
  | a :: b :: c :: rest =>
      String (ch (s1 a)) (String (ch (s2 a b)) (String (ch (s3 b c))
        (String (ch (s4 c)) (base64_with alphabet rest))))
  end.

(** [btoa(binary)], on the bytes of the binary string. *)
Definition btoa (binary : string) : string :=
  base64_with b64_alphabet (binary_bytes binary).

(** [s.replace(/c/g, d)] for single characters [c] and [d]. *)
Fixpoint replace_all (c d : ascii) (s : string) : string :=
  match s with
  | EmptyString => EmptyString
  | String x s' =>
      String (if Ascii.eqb x c then d else x) (replace_all c d s')
  end.

(** [s.replace(/=+$/, '')]: the trailing run of [=] is removed. *)
Fixpoint strip_trailing_eq (s : string) : string :=
  match s with
  | EmptyString => EmptyString
  | String x s' =>
      match strip_trailing_eq s' with
      | EmptyString => if Ascii.eqb x "=" then EmptyString else String x EmptyString
      | r => String x r
      end
  end.

(** Follows the specification's words, "base64url, unpadded" (RFC 4648
    section 5 with the padding omitted): the URL-safe alphabet and no [=]. *)
Fixpoint base64url_unpadded (bs : list byte) : string :=
  let ch := sextet b64url_alphabet in
  match bs with
  | [] => EmptyString
  | [a] => String (ch (s1 a)) (String (ch (s2 a x00)) EmptyString)
  | [a; b] =>
      String (ch (s1 a)) (String (ch (s2 a b)) (String (ch (s3 b x00)) EmptyString))
  | a :: b :: c :: rest =>
      String (ch (s1 a)) (String (ch (s2 a b)) (String (ch (s3 b c))
        (String (ch (s4 c)) (base64url_unpadded rest))))
  end.

End Encoding.

(** ** [src/utils/pkce.ts] *)

Module Pkce.
Import Encoding.

Record PKCEChallenge := { verifier : string; challenge : string }.

Section WithDigest.
(** [crypto.subtle.digest('SHA-256', data)]. *)
Variable sha256 : list byte -> list byte.

(** [base64URLEncode(buffer)]. *)
Definition base64URLEncode (buffer : list byte) : string :=
  strip_trailing_eq
    (replace_all "/" "_" (replace_all "+" "-" (btoa (fromCharCode buffer)))).

(** [generatePKCEChallenge()]; [array] is what
    [crypto.getRandomValues(new Uint8Array(32))] filled in. *)
Definition generatePKCEChallenge (array : list byte) : PKCEChallenge :=
  let verifier := hex array in
  let data := encode verifier in
  let hash := sha256 data in
  let hashArray := hash in
  let challenge :=
    strip_trailing_eq
      (replace_all "/" "_" (replace_all "+" "-" (btoa (fromCharCode hashArray)))) in
  {| verifier := verifier; challenge := challenge |}.
End WithDigest.

End Pkce.


(** ** JSON values and [JSON.stringify] *)

Module Json.

(** What [JSON.parse] (express.json, axios, [Response.json]) produces.
    Numbers are the integers; an object is its members in enumeration
    order, with pairwise distinct keys when [wf]. *)
#[local] Unset Elimination Schemes.
Inductive json :=
| JNull
| JBool (b : bool)
| JNum (n : Z)
| JStr (s : string)
| JArr (items : list json)
| JObj (members : list (string * json)).

(** [holder[key]] on the members of an object: its own properties. (What
    a plain object inherits are functions, which [JSON.stringify] leaves
    out as it does a missing property; a key named [__proto__] is outside
    the model.) *)
Fixpoint assoc {A} (key : string) (members : list (string * A)) : option A :=
  match members with
  | [] => None
  | (k, v) :: rest => if String.eqb key k then Some v else assoc key rest
  end.

(** Distinct keys in every object, at every depth. *)
Fixpoint wf (v : json) : bool :=
  match v with
  | JArr items => forallb wf items
  | JObj members =>
      bool_decide (NoDup (map fst members))
      && forallb (fun kv => wf (snd kv)) members
  | _ => true
  end.

(** [v'] is [v] with the members of its objects reordered, at any depth. *)
Inductive key_permutation : json -> json -> Prop :=
| kp_null : key_permutation JNull JNull
| kp_bool b : key_permutation (JBool b) (JBool b)
| kp_num n : key_permutation (JNum n) (JNum n)
| kp_str s : key_permutation (JStr s) (JStr s)
| kp_arr items items' :
    Forall2 key_permutation items items' ->
    key_permutation (JArr items) (JArr items')
| kp_obj members inner members' :
    Forall2 (fun a b => fst a = fst b /\ key_permutation (snd a) (snd b))
            members inner ->
    inner ≡ₚ members' ->
    key_permutation (JObj members) (JObj members').
#[local] Set Elimination Schemes.

(** [Number.prototype.toString] on an integer, exact on the integers up
    to [2^53] in magnitude; beyond them JavaScript writes the shortest
    digits that read back as the same Number, and an exponent from [1e21]
    on. *)
Definition Number_toString (n : Z) : string :=
  DecimalString.NilZero.string_of_int (Z.to_int n).

(** The JavaScript truthiness of a possibly missing value. *)
Definition truthy (v : option json) : bool :=
  match v with
  | None | Some JNull => false
  | Some (JBool b) => b
  | Some (JNum n) => negb (n =? 0)
  | Some (JStr s) => negb (String.eqb s "")
  | Some (JArr _) | Some (JObj _) => true
  end.

(** The abstract operation ToString, as template literals and
    [URLSearchParams] apply it: the text it returns when it returns
    ([ToString_throws] says when it throws instead). *)
Fixpoint ToString (v : json) : string :=
  match v with
  | JNull => "null"
  | JBool true => "true"
  | JBool false => "false"
  | JNum n => Number_toString n
  | JStr s => s
  | JArr items =>
      String.concat ","
        (map (fun x => match x with JNull => "" | _ => ToString x end) items)
  | JObj _ => "[object Object]"
  end.

Definition ToString_opt (v : option json) : string :=
  match v with
  | None => "undefined"
  | Some x => ToString x
  end.

(** Whether ToString throws a TypeError. An object is converted through
    its [toString]: a parsed object that has a member of that name has a
    [toString] that is not callable, and its [valueOf], when it is callable,
    returns the object itself, so the conversion throws; without such a
    member [Object.prototype.toString] answers. An array is converted through
    [join], which converts each element other than [null] in turn. *)
Fixpoint ToString_throws (v : json) : bool :=
  match v with
  | JObj members =>
      match assoc "toString" members with
      | Some _ => true
      | None => false
      end
  | JArr items => existsb ToString_throws items
  | _ => false
  end.

(** ToString with its abrupt completion: [None] is the TypeError. *)
Definition ToString_or_throw (v : option json) : option string :=
  match v with
  | None => Some "undefined"
  | Some x => if ToString_throws x then None else Some (ToString x)
  end.

Definition hex4 (n : N) : string :=
  String "0" (String "0"
    (String (Encoding.hex_digit (N.shiftr n 4))
      (String (Encoding.hex_digit (N.land n 15)) ""))).

(** The quotation mark. *)
Definition dquote : ascii := ascii_of_N 34.

(** One code unit inside QuoteJSONString. *)
Definition quote_char (c : ascii) : string :=
  let n := N_of_ascii c in
  if (n =? 8)%N then "\b"
  else if (n =? 9)%N then "\t"
  else if (n =? 10)%N then "\n"
  else if (n =? 12)%N then "\f"
  else if (n =? 13)%N then "\r"
  else if (n =? 34)%N then String "\" (String dquote "")
  else if (n =? 92)%N then "\\"
  else if (n <? 32)%N then "\u" +:+ hex4 n
  else String c "".

Fixpoint quote_chars (s : string) : string :=
  match s with
  | EmptyString => EmptyString
  | String c s' => quote_char c +:+ quote_chars s'
  end.

Definition QuoteJSONString (s : string) : string :=
  String dquote (quote_chars s +:+ String dquote "").

(** SerializeJSONProperty of ECMA-262 (with SerializeJSONObject and
    SerializeJSONArray) on a present value, without indentation;
    [PropertyList] is the list an array replacer sets. SerializeJSONObject
    runs for every object that is serialized, nested ones too, and takes
    its keys from the property list when there is one ("if
    state.[[PropertyList]] is not undefined, let K be
    state.[[PropertyList]]"), from the object's own keys otherwise: with a
    property list an object is written with the listed keys that it has,
    in the order of the list. *)
Fixpoint SerializeJSONProperty (PropertyList : option (list string)) (value : json)
  : string :=
  match value with
  | JNull => "null"
  | JBool true => "true"
  | JBool false => "false"
  | JStr s => QuoteJSONString s
  | JNum n => Number_toString n
  | JArr items =>
      "[" +:+ String.concat "," (map (SerializeJSONProperty PropertyList) items)
          +:+ "]"
  | JObj members =>
      let K := match PropertyList with
               | Some K => K
               | None => map fst members
               end in
      let strs :=
        map (fun kv => (fst kv, SerializeJSONProperty PropertyList (snd kv)))
            members in
      let partial :=
        omap (fun P => match assoc P strs with
                       | Some strP => Some (QuoteJSONString P +:+ ":" +:+ strP)
                       | None => None
                       end) K in
      match partial with
      | [] => "{}"
      | _ => "{" +:+ String.concat "," partial +:+ "}"
      end
  end.

(** The property list of an array replacer keeps the first occurrence of
    each name. *)
Fixpoint dedup (l : list string) : list string :=
  match l with
  | [] => []
  | x :: l' => x :: filter (fun y => y ≠ x) (dedup l')
  end.

(** [JSON.stringify(value, replacer)] with [replacer] an array of strings
    or absent. *)
Definition JSON_stringify (value : json) (replacer : option (list string)) : string :=
  SerializeJSONProperty (dedup <$> replacer) value.

(** The order of the default [Array.prototype.sort]: code units compared
    lexicographically. *)
Definition code_unit_le : relation string :=
  fun a b => String.leb a b = true.

#[export] Instance code_unit_le_dec : RelDecision code_unit_le :=
  fun a b => decide (String.leb a b = true).

(** [keys.sort()] on an array of strings. *)
Definition sort (keys : list string) : list string :=
  merge_sort code_unit_le keys.

Definition index_keys (n : nat) : list string :=
  map (fun i => Number_toString (Z.of_nat i)) (seq 0 n).

(** [Object.keys(v)]; [None] is the TypeError on [undefined] and [null]. *)
Definition Object_keys (v : option json) : option (list string) :=
  match v with
  | None | Some JNull => None
  | Some (JBool _) | Some (JNum _) => Some []
  | Some (JStr s) => Some (index_keys (String.length s))
  | Some (JArr items) => Some (index_keys (List.length items))
  | Some (JObj members) => Some (map fst members)
  end.

(** What a property list [K] leaves of a value: every object keeps the
    listed keys that it has, in the order of the list. *)
Fixpoint restrict (K : list string) (v : json) : json :=
  match v with
  | JArr items => JArr (map (restrict K) items)
  | JObj members =>
      let kept := map (fun kv => (fst kv, restrict K (snd kv))) members in
      JObj (omap (fun k => match assoc k kept with
                           | Some v' => Some (k, v')
                           | None => None
                           end) K)
  | _ => v
  end.


(** Follows the specification's words, "recursively sorting object keys":
    every object keeps all its members, ordered by key. *)
Fixpoint sort_keys_recursively (v : json) : json :=
  match v with
  | JArr items => JArr (map sort_keys_recursively items)
  | JObj members =>
      let sorted := map (fun kv => (fst kv, sort_keys_recursively (snd kv))) members in
      JObj (omap (fun k => match assoc k sorted with
                           | Some v' => Some (k, v')
                           | None => None
                           end) (sort (map fst members)))
  | _ => v
  end.

End Json.


(** ** [server/routes/twitter.ts] *)

Module TwitterRoutes.
Import Encoding Json.

(** [process.env]. *)
Record Env := {
  TWITTER_CLIENT_ID : option string;
  TWITTER_CLIENT_SECRET : option string;
  GITHUB_CLIENT_ID : option string;
  GITHUB_CLIENT_SECRET : option string;
  REDIRECT_URI : option string
}.

(** [x || fallback] on an environment variable. *)
Definition env_or (x : option string) (fallback : string) : string :=
  match x with
  | Some s => if String.eqb s "" then fallback else s
  | None => fallback
  end.

(** The truthiness of an environment variable. *)
Definition env_set (x : option string) : bool :=
  match x with
  | Some s => negb (String.eqb s "")
  | None => false
  end.

(** The check of [server/index.ts] before it listens: the process exits
    unless the client credentials are configured. *)
Definition starts (env : Env) : bool :=
  env_set (TWITTER_CLIENT_ID env) && env_set (TWITTER_CLIENT_SECRET env)
  && env_set (GITHUB_CLIENT_ID env) && env_set (GITHUB_CLIENT_SECRET env).

(** [`${x}`] on an environment variable. *)
Definition env_str (x : option string) : string :=
  match x with
  | Some s => s
  | None => "undefined"
  end.

(** What the handler answered: [res.status(status).json(body)]. *)
Record HttpResponse := { status : Z; body : json }.

Definition res_json (b : json) : HttpResponse := {| status := 200; body := b |}.
Definition res_error (code : Z) (message : string) : HttpResponse :=
  {| status := code; body := JObj [("error", JStr message)] |}.

(** What the provider answered to axios. *)
Record AxiosResponse := { response_status : Z; data : json }.

Inductive ProviderReply :=
| Reply (r : AxiosResponse)
| NoReply.

(** axios settles the promise: it resolves on a 2xx status (the default
    [validateStatus]) and rejects otherwise; [None] is the rejection. *)
Definition axios (reply : ProviderReply) : option AxiosResponse :=
  match reply with
  | Reply r =>
      if (200 <=? response_status r) && (response_status r <? 300)
      then Some r else None
  | NoReply => None
  end.

Definition upper_hex_digit (n : N) : ascii :=
  match n with
  | 0 => "0" | 1 => "1" | 2 => "2" | 3 => "3" | 4 => "4" | 5 => "5"
  | 6 => "6" | 7 => "7" | 8 => "8" | 9 => "9" | 10 => "A" | 11 => "B"
  | 12 => "C" | 13 => "D" | 14 => "E" | _ => "F"
  end%N%char.

(** The application/x-www-form-urlencoded byte serializer. *)
Definition urlencode_byte (n : N) : string :=
  if (n =? 32)%N then "+"
  else if ((n =? 42) || (n =? 45) || (n =? 46) || (n =? 95)
           || (48 <=? n) && (n <=? 57) || (65 <=? n) && (n <=? 90)
           || (97 <=? n) && (n <=? 122))%N
  then String (ascii_of_N n) ""
  else String "%" (String (upper_hex_digit (N.shiftr n 4))
                     (String (upper_hex_digit (N.land n 15)) "")).

Fixpoint urlencode (s : string) : string :=
  match s with
  | EmptyString => EmptyString
  | String c s' =>
      String.concat "" (map (fun b => urlencode_byte (Byte.to_N b)) (utf8 c))
      +:+ urlencode s'
  end.

(** [new URLSearchParams(record).toString()]. *)
Definition URLSearchParams_toString (params : list (string * string)) : string :=
  String.concat "&"
    (map (fun p => urlencode (fst p) +:+ "=" +:+ urlencode (snd p)) params).

(** [s.split(' ')]. *)
Fixpoint split_space (s : string) : list string :=
  match s with
  | EmptyString => [EmptyString]
  | String c s' =>
      if Ascii.eqb c " " then EmptyString :: split_space s'
      else match split_space s' with
           | [] => [String c EmptyString]
           | w :: ws => String c w :: ws
           end
  end.

(** [n.toString(16)] on a big number. *)
Definition bn_hex (n : N) : string :=
  HexadecimalString.NilZero.string_of_uint (N.to_hex_uint n).

Section Handlers.
Variable env : Env.
(** [crypto.randomBytes(n)]. *)
Variable randomBytes : nat -> list byte.
(** [crypto.createHash('sha256').update(s).digest()] on the bytes of [s]. *)
Variable sha256 : list byte -> list byte.
(** [key.sign(msgHash)] and [key.getPublic()] of the process-wide key pair. *)
Variable sign : list byte -> N * N.
Variable publicKey : N * N.

(** [router.post('/auth', ...)]. *)
Definition auth (req_body : list (string * json)) : HttpResponse :=
  let code_challenge := assoc "code_challenge" req_body in
  let state := assoc "state" req_body in
  if negb (truthy code_challenge) then
    res_error 400 "Code challenge is required"
  else if negb (env_set (TWITTER_CLIENT_ID env)) then
    res_error 500 "Twitter client configuration missing"
  else
    (* [new URLSearchParams({...})] converts the values to strings in the
       order of the keys; a conversion that throws ends in the [catch]. *)
    match ToString_or_throw code_challenge,
          (if truthy state then ToString_or_throw state
           else Some (hex (randomBytes 32))) with
    | Some code_challenge_, Some state_ =>
        let params := [
          ("response_type", "code");
          ("client_id", env_str (TWITTER_CLIENT_ID env));
          ("redirect_uri", env_or (REDIRECT_URI env) "http://localhost:5174/callback");
          ("scope", "tweet.read users.read");
          ("code_challenge", code_challenge_);
          ("code_challenge_method", "S256");
          ("state", state_)
        ] in
        let authUrl :=
          "https://twitter.com/i/oauth2/authorize?" +:+ URLSearchParams_toString params in
        res_json (JObj [("url", JStr authUrl)])
    | _, _ => res_error 500 "Failed to generate auth URL"
    end.

(** The request [router.post('/token', ...)] sends to the provider. *)
Record TokenRequest := { form : string; authorization : string }.

Definition token_request (code code_verifier : option json) : TokenRequest :=
  {| form := URLSearchParams_toString [
       ("grant_type", "authorization_code");
       ("code", ToString_opt code);
       ("redirect_uri", env_or (REDIRECT_URI env) "http://localhost:5174/callback");
       ("code_verifier", ToString_opt code_verifier) ];
     authorization :=
       "Basic " +:+ base64_with b64_alphabet
         (encode (env_str (TWITTER_CLIENT_ID env) +:+ ":"
                  +:+ env_str (TWITTER_CLIENT_SECRET env))) |}.

(** [router.post('/token', ...)]; [twitter] is the provider's token
    endpoint. *)
Definition token (twitter : TokenRequest -> ProviderReply)
    (req_body : list (string * json)) : HttpResponse :=
  let code := assoc "code" req_body in
  let code_verifier := assoc "code_verifier" req_body in
  if negb (truthy code) || negb (truthy code_verifier) then
    res_error 400 "Code and code verifier are required"
  else
    match axios (twitter (token_request code code_verifier)) with
    | Some response => res_json (data response)
    | None => res_error 500 "Failed to exchange token"
    end.

(** [JSON.stringify(userData, Object.keys(userData).sort())]; [None] is the
    TypeError of [Object.keys] on a missing payload. *)
Definition serializedData (userData : option json) : option string :=
  match Object_keys userData, userData with
  | Some keys, Some v => Some (JSON_stringify v (Some (sort keys)))
  | _, _ => None
  end.

(** [crypto.createHash('sha256').update(serializedData).digest()]. *)
Definition msgHash (userData : option json) : option (list byte) :=
  match serializedData userData with
  | Some s => Some (sha256 (encode s))
  | None => None
  end.

(** [response.data.data]; [None] is [undefined], which [Object.keys] then
    refuses, or the TypeError of reading a property of [null]: both end in
    the handler's [catch]. *)
Definition data_data (response : AxiosResponse) : option json :=
  match data response with
  | JObj members => assoc "data" members
  | _ => None
  end.

(** [router.get('/user', ...)]; [twitter] is the provider's [users/me]
    endpoint, applied to the Authorization header the handler sends. *)
Definition user (twitter : string -> ProviderReply)
    (authHeader : option string) : HttpResponse :=
  match authHeader with
  | Some h =>
      if String.prefix "Bearer " h then
        let token := nth 1 (split_space h) "undefined" in
        match axios (twitter ("Bearer " +:+ token)) with
        | Some response =>
            let userData := data_data response in
            match msgHash userData, userData with
            | Some hash, Some twitter_data =>
                let signature := sign hash in
                res_json (JObj [
                  ("twitter_data", twitter_data);
                  ("messageHash", JStr (hex hash));
                  ("signature", JObj [
                     ("r", JStr (bn_hex (fst signature)));
                     ("s", JStr (bn_hex (snd signature))) ]);
                  ("publicKey", JObj [
                     ("x", JStr (bn_hex (fst publicKey)));
                     ("y", JStr (bn_hex (snd publicKey))) ]) ])
            | _, _ => res_error 500 "Failed to fetch or sign user data"
            end
        | None => res_error 500 "Failed to fetch or sign user data"
        end
      else res_error 401 "Invalid authorization header"
  | None => res_error 401 "Invalid authorization header"
  end.

End Handlers.

End TwitterRoutes.


(** ** The browser side of the handshake *)

Module Browser.
Import Json.

(** [fetch(url, init)] against the backend: the answer, or the rejection
    of the promise when the backend cannot be reached. *)
Inductive FetchResult :=
| Response (r : TwitterRoutes.HttpResponse)
| NetworkError.

(** [response.ok]. *)
Definition ok (r : TwitterRoutes.HttpResponse) : bool :=
  (200 <=? TwitterRoutes.status r) && (TwitterRoutes.status r <? 300).

(** [data.name] on a parsed body; the outer [None] is the TypeError of
    reading a property of [null]. *)
Definition property (name : string) (data : json) : option (option json) :=
  match data with
  | JNull => None
  | JObj members => Some (assoc name members)
  | _ => Some None
  end.

(** A falsy [string | null]. *)
Definition missing (x : option string) : bool :=
  match x with
  | Some s => String.eqb s ""
  | None => true
  end.

End Browser.

(** ** [src/components/TwitterLogin.ts] *)

Module TwitterLogin.
Import Json Browser.

Record LoginOutcome := {
  storage : gmap string string;
  (** the body posted to [API_URL] *)
  posted : list (string * json);
  (** [window.location.href], when the login navigates away *)
  location : option string;
  (** the text of the error box, when the login fails *)
  error : option string
}.

Section Login.
Variable sha256 : list byte -> list byte.
(** [fetch(TwitterLogin.API_URL, ...)]. *)
Variable api : list (string * json) -> FetchResult.

(** [storeAuthState(verifier, state)]. *)
Definition storeAuthState (verifier state : string) (localStorage : gmap string string)
  : gmap string string :=
  <["oauth_state" := state]> (<["pkce_verifier" := verifier]> localStorage).

(** [handleLogin()]; [array] is the output of [crypto.getRandomValues] and
    [uuid] that of [crypto.randomUUID()]. *)
Definition handleLogin (array : list byte) (uuid : string)
    (localStorage : gmap string string) : LoginOutcome :=
  let pkce := Pkce.generatePKCEChallenge sha256 array in
  let state := uuid in
  let localStorage := storeAuthState (Pkce.verifier pkce) state localStorage in
  let request := [("code_challenge", JStr (Pkce.challenge pkce)); ("state", JStr state)] in
  match api request with
  | Response r =>
      if ok r then
        match property "url" (TwitterRoutes.body r) with
        | Some url =>
            {| storage := localStorage; posted := request;
               location := Some (ToString_opt url); error := None |}
        | None =>
            {| storage := localStorage; posted := request;
               location := None; error := Some "Cannot destructure property 'url'" |}
        end
      else
        {| storage := localStorage; posted := request;
           location := None; error := Some "Failed to get authorization URL" |}
  | NetworkError =>
      {| storage := localStorage; posted := request;
         location := None; error := Some "Failed to fetch" |}
  end.

End Login.

End TwitterLogin.

(** ** [src/components/AuthCallback.ts] *)

Module AuthCallback.
Import Json Browser.

(** The requests the callback page sends to the backend. *)
Inductive Request :=
| TokenExchange (code code_verifier : string)
| UserData (authorization : string).

Record CallbackOutcome := {
  storage : gmap string string;
  (** the requests sent, oldest first *)
  sent : list Request;
  (** [None] on success, the message of the error otherwise *)
  failure : option string
}.

Section Callback.
(** The backend, as seen through [fetch]. *)
Variable backend : Request -> FetchResult.

Definition failed (localStorage : gmap string string) (sent : list Request)
    (message : string) : CallbackOutcome :=
  {| storage := localStorage; sent := sent; failure := Some message |}.

(** [handleCallback()]; [code] and [state] are [urlParams.get('code')] and
    [urlParams.get('state')]. *)
Definition handleCallback (code state : option string)
    (localStorage : gmap string string) : CallbackOutcome :=
  let verifier := localStorage !! "pkce_verifier" in
  let storedState := localStorage !! "oauth_state" in
  match code, verifier with
  | Some code_, Some verifier_ =>
      if missing code || missing verifier || missing state || missing storedState
      then failed localStorage [] "Missing required parameters"
      else if negb (bool_decide (state = storedState))
      then failed localStorage [] "Invalid state parameter"
      else
        let exchange := TokenExchange code_ verifier_ in
        match backend exchange with
        | NetworkError => failed localStorage [exchange] "Failed to fetch"
        | Response response =>
            if negb (ok response)
            then failed localStorage [exchange] "Failed to exchange code for token"
            else
              match property "access_token" (TwitterRoutes.body response) with
              | None =>
                  failed localStorage [exchange]
                    "Cannot read properties of null (reading 'access_token')"
              | Some access_token =>
                  let token := ToString_opt access_token in
                  let localStorage := <["twitter_token" := token]> localStorage in
                  let fetchUser := UserData ("Bearer " +:+ token) in
                  match backend fetchUser with
                  | NetworkError =>
                      failed localStorage [exchange; fetchUser] "Failed to fetch"
                  | Response userResponse =>
                      if negb (ok userResponse)
                      then failed localStorage [exchange; fetchUser]
                             "Failed to fetch user data"
                      else
                        let userData := TwitterRoutes.body userResponse in
                        let localStorage :=
                          <["twitter_signed_data" := JSON_stringify userData None]>
                            localStorage in
                        (* Clean up PKCE and state data *)
                        let localStorage := delete "pkce_verifier" localStorage in
                        let localStorage := delete "oauth_state" localStorage in
                        {| storage := localStorage;
                           sent := [exchange; fetchUser];
                           failure := None |}
                  end
              end
        end
  | _, _ => failed localStorage [] "Missing required parameters"
  end.

End Callback.

(** The backend of the repository behind [fetch]: the routes of
    [server/routes/twitter.ts], each in front of its provider endpoint. *)
Definition served
    (token : list (string * json) -> TwitterRoutes.HttpResponse)
    (user : option string -> TwitterRoutes.HttpResponse)
    (request : Request) : FetchResult :=
  match request with
  | TokenExchange code code_verifier =>
      Response (token [("code", JStr code); ("code_verifier", JStr code_verifier)])
  | UserData authorization => Response (user (Some authorization))
  end.

End AuthCallback.


(** ** [index.js] and [verification.js]: the proof orchestration *)

Module AgeProof.
Import Json.

(** *** [parseInt] *)

(** StrWhiteSpaceChar among the 8-bit code units. *)
Definition is_whitespace (c : ascii) : bool :=
  let n := N_of_ascii c in
  ((9 <=? n) && (n <=? 13) || (n =? 32) || (n =? 160))%N.

Fixpoint trim_start (s : string) : string :=
  match s with
  | EmptyString => EmptyString
  | String c s' => if is_whitespace c then trim_start s' else s
  end.

(** The value of a digit in the given radix. *)
Definition digit (radix : Z) (c : ascii) : option Z :=
  let n := Z.of_N (N_of_ascii c) in
  let d := if (48 <=? n) && (n <=? 57) then n - 48
           else if (97 <=? n) && (n <=? 122) then n - 87
           else if (65 <=? n) && (n <=? 90) then n - 55
           else radix in
  if d <? radix then Some d else None.

(** The longest prefix of digits, read in the given radix; [None] when
    there is no digit. *)
Fixpoint digits (radix : Z) (acc : option Z) (s : string) : option Z :=
  match s with
  | EmptyString => acc
  | String c s' =>
      match digit radix c with
      | Some d =>
          digits radix (Some (match acc with
                              | Some a => a * radix + d
                              | None => d
                              end)) s'
      | None => acc
      end
  end.

(** The Number value of a mathematical integer: the integer itself up to
    [2^53] in magnitude, and beyond that the nearest number with a 53-bit
    significand, a tie going to the even significand. *)
Definition Number_of (z : Z) : Z :=
  let a := Z.abs z in
  if a <=? 2 ^ 53 then z
  else
    let e := Z.log2 a - 52 in
    let q := Z.shiftr a e in
    let r := a - Z.shiftl q e in
    let half := Z.shiftl 1 (e - 1) in
    let q' := if (half <? r) || ((r =? half) && Z.odd q) then q + 1 else q in
    Z.sgn z * Z.shiftl q' e.

(** [parseInt(s)] without a radix; [None] is [NaN]. The value of the
    digits is rounded to a Number as engines do, from the exact value. The
    numerals whose value is beyond the finite numbers ([Infinity], from 309
    digits on) are outside the model, and the sign of zero is not kept. *)
Definition parseInt (s : string) : option Z :=
  let s := trim_start s in
  let (sign, s) := match s with
                   | String "-" r => (-1, r)
                   | String "+" r => (1, r)
                   | _ => (1, s)
                   end in
  let (radix, s) := match s with
                    | String "0" (String "x" r) => (16, r)
                    | String "0" (String "X" r) => (16, r)
                    | _ => (10, s)
                    end in
  match digits radix None s with
  | Some v => Some (Number_of (sign * v))
  | None => None
  end.

(** *** Proofs and their serialized form *)

(** What [backend.generateProof] returns and [backend.verifyProof] takes. *)
Record ProofData := {
  proof : list byte;
  publicInputs : option (list string)
}.

(** The object [serializeProof] builds, which [JSON.stringify] writes and
    [JSON.parse] reads back. *)
Record SerializedProof := {
  s_proof : list Z;
  s_publicInputs : option (list string);
  s_timestamp : Z
}.

(** [Array.from(bytes)]. *)
Definition Array_from (bytes : list byte) : list Z :=
  map (fun b => Z.of_N (Byte.to_N b)) bytes.

(** ToUint8: the number modulo [2^8]. *)
Definition ToUint8 (n : Z) : byte :=
  match Byte.of_N (Z.to_N (n mod 256)) with
  | Some b => b
  | None => x00
  end.

(** [new Uint8Array(numbers)]. *)
Definition Uint8Array_from (numbers : list Z) : list byte := map ToUint8 numbers.

(** [x || []] on an array that may be missing. *)
Definition or_empty (x : option (list string)) : list string :=
  match x with
  | Some l => l
  | None => []
  end.

(** [serializeProof(proof)] of [index.js]; [now] is [Date.now()]. *)
Definition serializeProof (now : Z) (p : ProofData) : SerializedProof :=
  {| s_proof := Array_from (proof p);
     s_publicInputs := Some (or_empty (publicInputs p));
     s_timestamp := now |}.

(** [deserializeProof(data)] of [verification.js]. *)
Definition deserializeProof (data : SerializedProof) : ProofData :=
  {| proof := Uint8Array_from (s_proof data);
     publicInputs := Some (or_empty (s_publicInputs data)) |}.

(** The JSON value of a serialized proof. *)
Definition to_json (d : SerializedProof) : json :=
  JObj [("proof", JArr (map JNum (s_proof d)));
        ("publicInputs", JArr (map JStr (or_empty (s_publicInputs d))));
        ("timestamp", JNum (s_timestamp d))].

(** *** The page of [index.js] *)

(** What [showResult] is called with. *)
Inductive Message :=
| InitFailed            (* "Failed to initialize Noir. ..." *)
| InvalidAge            (* "Please enter a valid age" *)
| Generating            (* "Generating proof..." *)
| Success (proofData : SerializedProof)  (* "Success! Your age is verified ..." *)
| VerificationFailed    (* "Verification failed. Please check your input." *)
| ErrorOccurred.        (* "An error occurred. ..." *)

(** A run of the click handler, suspended at one of its [await]s, or the
    [initializeNoir()] that the page starts when it loads. *)
Inductive Run :=
| AwaitLoad                          (* initializeNoir() of the page load *)
| AwaitInit (age : Z)                (* await initializeNoir() *)
| AwaitExecute (age : Z)             (* await noir.execute({ age }) *)
| AwaitProve (witness : list byte)   (* await backend.generateProof(witness) *)
| AwaitVerify (p : ProofData)        (* await backend.verifyProof(proof) *)
| Returned.

(** A proof-generation run that has not returned. *)
Definition in_flight (r : Run) : bool :=
  match r with
  | AwaitLoad | Returned => false
  | _ => true
  end.

Record Page := {
  (** [noir] and [backend] are set *)
  initialized : bool;
  localStorage : gmap string string;
  (** the calls of [showResult], latest first, with their [success] flag *)
  shown : list (Message * bool);
  (** the runs of the click handler, in the order of the clicks *)
  runs : list Run
}.

Definition showResult (m : Message) (success : bool) (pg : Page) : Page :=
  {| initialized := initialized pg; localStorage := localStorage pg;
     shown := (m, success) :: shown pg; runs := runs pg |}.

Definition setItem (key value : string) (pg : Page) : Page :=
  {| initialized := initialized pg;
     localStorage := <[key := value]> (localStorage pg);
     shown := shown pg; runs := runs pg |}.

Definition set_initialized (pg : Page) : Page :=
  {| initialized := true; localStorage := localStorage pg;
     shown := shown pg; runs := runs pg |}.

Definition spawn (r : Run) (pg : Page) : Page :=
  {| initialized := initialized pg; localStorage := localStorage pg;
     shown := shown pg; runs := runs pg ++ [r] |}.

Definition set_run (i : nat) (r : Run) (pg : Page) : Page :=
  {| initialized := initialized pg; localStorage := localStorage pg;
     shown := shown pg; runs := <[i := r]> (runs pg) |}.

Section Toolchain.
(** [getCircuit()] compiles: [false] when it throws. *)
Variable getCircuit : bool.
(** [noir.execute({ age })]: the witness, or [None] when it throws, as on
    a failed assertion of the circuit. *)
Variable execute : Z -> option (list byte).
(** [backend.generateProof(witness)]. *)
Variable generateProof : list byte -> option ProofData.
(** [backend.verifyProof(proof)]. *)
Variable verifyProof : ProofData -> option bool.

(** [initializeNoir()] once [getCircuit()] has settled. *)
Definition initializeNoir (pg : Page) : Page :=
  if getCircuit then set_initialized pg else showResult InitFailed false pg.

(** The handler from "Generating proof..." up to [await noir.execute];
    calling [execute] on an unset [noir] throws into the [catch]. *)
Definition start_proof (age : Z) (pg : Page) : Page * Run :=
  let pg := showResult Generating true pg in
  if initialized pg then (pg, AwaitExecute age)
  else (showResult ErrorOccurred false pg, Returned).

(** A click on the submit button, up to the first [await]. *)
Definition click (input : string) (pg : Page) : Page :=
  match parseInt input with
  | None => showResult InvalidAge false pg
  | Some age =>
      if negb (initialized pg) then spawn (AwaitInit age) pg
      else let (pg, r) := start_proof age pg in spawn r pg
  end.

(** The promise a run awaits settles and the run continues to its next
    [await] or to its end; [now] is the clock. *)
Definition continue (now : Z) (r : Run) (pg : Page) : Page * Run :=
  match r with
  | AwaitLoad => (initializeNoir pg, Returned)
  | AwaitInit age => start_proof age (initializeNoir pg)
  | AwaitExecute age =>
      match execute age with
      | Some witness => (pg, AwaitProve witness)
      | None => (showResult ErrorOccurred false pg, Returned)
      end
  | AwaitProve witness =>
      match generateProof witness with
      | Some p => (pg, AwaitVerify p)
      | None => (showResult ErrorOccurred false pg, Returned)
      end
  | AwaitVerify p =>
      match verifyProof p with
      | Some true =>
          let proofData := serializeProof now p in
          let pg := setItem "ageProof" (JSON_stringify (to_json proofData) None) pg in
          (showResult (Success proofData) true pg, Returned)
      | Some false => (showResult VerificationFailed false pg, Returned)
      | None => (showResult ErrorOccurred false pg, Returned)
      end
  | Returned => (pg, Returned)
  end.

(** What happens on the page, one event-loop turn at a time. *)
Inductive Event :=
| Click (input : string)
| Settle (i : nat) (now : Z).

Definition step (e : Event) (pg : Page) : Page :=
  match e with
  | Click input => click input pg
  | Settle i now =>
      match runs pg !! i with
      | Some r => let (pg, r') := continue now r pg in set_run i r' pg
      | None => pg
      end
  end.

(** The events in the order they happen. *)
Definition play (events : list Event) (pg : Page) : Page :=
  fold_left (fun pg e => step e pg) events pg.

(** One submission alone, run to its end. *)
Definition submit (input : string) (now : Z) (pg : Page) : Page :=
  let i := List.length (runs pg) in
  play [Click input; Settle i now; Settle i now; Settle i now; Settle i now] pg.

End Toolchain.

(** The text under [ageProof] is what was there when the page loaded, or
    the serialization of a proof that [verifyProof] accepted; and every
    success message shows such a serialization. *)
Definition only_verified (verifyProof : ProofData -> option bool)
    (stored : gmap string string) (pg : Page) : Prop :=
  (forall text, localStorage pg !! "ageProof" = Some text ->
     stored !! "ageProof" = Some text
     \/ exists p now, verifyProof p = Some true
          /\ text = JSON_stringify (to_json (serializeProof now p)) None)
  /\ (forall d flag, (Success d, flag) ∈ shown pg ->
        exists p now, verifyProof p = Some true /\ d = serializeProof now p).

(** The page once its script has run, before any click: nothing is
    initialized yet, the [initializeNoir()] of the load is pending, and
    [localStorage] holds what earlier visits left. *)
Definition loaded (stored : gmap string string) : Page :=
  {| initialized := false; localStorage := stored; shown := [];
     runs := [AwaitLoad] |}.

Definition pending (pg : Page) : list Run := filter (fun r => in_flight r = true) (runs pg).

End AgeProof.


(** ** Sample data *)

Module Samples.
Import Json.

(** A server environment that passes the check of [server/index.ts]. *)
Definition env : TwitterRoutes.Env :=
  {| TwitterRoutes.TWITTER_CLIENT_ID := Some "client";
     TwitterRoutes.TWITTER_CLIENT_SECRET := Some "secret";
     TwitterRoutes.GITHUB_CLIENT_ID := Some "gh";
     TwitterRoutes.GITHUB_CLIENT_SECRET := Some "ghsecret";
     TwitterRoutes.REDIRECT_URI := None |}.

(** A random source that returns the bytes [0, 1, 2, ...]. *)
Definition counting_bytes (n : nat) : list byte :=
  map (fun i => AgeProof.ToUint8 (Z.of_nat i)) (seq 0 n).

(** Stand-ins for SHA-256 and for the signing key, for the examples that
    have to run a handler. *)
Definition toy_digest (bs : list byte) : list byte := take 4 bs.
Definition toy_sign (hash : list byte) : N * N := (N.of_nat (List.length hash), 7%N).
Definition toy_publicKey : N * N := (11%N, 13%N).

(** A profile as [users/me] returns it with [user.fields] set to
    [created_at,public_metrics]. *)
Definition profile : json :=
  JObj [("id", JStr "1");
        ("created_at", JStr "2023-01-01");
        ("public_metrics",
           JObj [("tweet_count", JNum 3); ("followers_count", JNum 5)])].

(** The same profile as another serializer could order it. *)
Definition profile_reordered : json :=
  JObj [("public_metrics",
           JObj [("followers_count", JNum 5); ("tweet_count", JNum 3)]);
        ("created_at", JStr "2023-01-01");
        ("id", JStr "1")].

(** Two rejections of the provider. *)
Definition rejected_400 : TwitterRoutes.AxiosResponse :=
  {| TwitterRoutes.response_status := 400;
     TwitterRoutes.data := JObj [("error", JStr "invalid_request")] |}.
Definition rejected_401 : TwitterRoutes.AxiosResponse :=
  {| TwitterRoutes.response_status := 401;
     TwitterRoutes.data := JObj [("error", JStr "invalid_client")] |}.
Definition rejected_503 : TwitterRoutes.AxiosResponse :=
  {| TwitterRoutes.response_status := 503;
     TwitterRoutes.data := JStr "Service Unavailable" |}.

(** A browser that holds the session of a login in progress. *)
Definition session : gmap string string :=
  <["oauth_state" := "st4te"]> (<["pkce_verifier" := "c0ffee"]> ∅).

(** A backend whose token exchange fails. *)
Definition failing_backend (request : AuthCallback.Request) : Browser.FetchResult :=
  Browser.Response (TwitterRoutes.res_error 500 "Failed to exchange token").

(** A backend that serves a token and a signed profile. *)
Definition working_backend (request : AuthCallback.Request) : Browser.FetchResult :=
  match request with
  | AuthCallback.TokenExchange _ _ =>
      Browser.Response (TwitterRoutes.res_json (JObj [("access_token", JStr "tok")]))
  | AuthCallback.UserData _ =>
      Browser.Response (TwitterRoutes.res_json (JObj [("twitter_data", profile)]))
  end.

(** A toolchain for the circuit [assert(age >= 18)] on a [u8]: execution
    fails outside the type or below the threshold, and every proof the
    prover makes verifies. *)
Definition toy_execute (age : Z) : option (list byte) :=
  if (18 <=? age) && (age <=? 255) then Some [AgeProof.ToUint8 age] else None.
Definition toy_generateProof (witness : list byte) : option AgeProof.ProofData :=
  Some {| AgeProof.proof := witness; AgeProof.publicInputs := Some [] |}.
Definition toy_verifyProof (p : AgeProof.ProofData) : option bool := Some true.

(** A backend whose verifier refuses every proof. *)
Definition refusing_verifyProof (p : AgeProof.ProofData) : option bool := Some false.

End Samples.


(** ** More of [src/utils/pkce.ts], and the alphabets of the encodings *)

Module PkceText.
Import Encoding.

(** The characters that [generateRandomString] draws from. *)
Definition possible : string :=
  "ABCDEFGHIJKLMNOPQRSTUVWXYZabcdefghijklmnopqrstuvwxyz0123456789-._~".

(** [generateRandomString(length)]; [values] is what
    [crypto.getRandomValues(new Uint8Array(length))] filled in. *)
Definition generateRandomString (values : list byte) : string :=
  string_of_list_ascii
    (map (fun x =>
            match String.get (N.to_nat (Byte.to_N x) mod String.length possible)
                             possible with
            | Some c => c
            | None => "A"%char
            end) values).

(** A letter or a digit. *)
Definition is_alnum (c : ascii) : bool :=
  let n := N_of_ascii c in
  ((48 <=? n) && (n <=? 57) || (65 <=? n) && (n <=? 90)
   || (97 <=? n) && (n <=? 122))%N.

(** A character of the URL-safe base64 alphabet. *)
Definition is_base64url (c : ascii) : bool :=
  is_alnum c || Ascii.eqb c "-" || Ascii.eqb c "_".

(** An unreserved character of RFC 3986, the alphabet RFC 7636 allows in a
    code verifier. *)
Definition is_unreserved (c : ascii) : bool :=
  is_alnum c || Ascii.eqb c "-" || Ascii.eqb c "." || Ascii.eqb c "_"
  || Ascii.eqb c "~".

(** A character that the form-urlencoded serializer leaves as it is. *)
Definition is_urlencode_safe (c : ascii) : bool :=
  is_alnum c || Ascii.eqb c "*" || Ascii.eqb c "-" || Ascii.eqb c "."
  || Ascii.eqb c "_".

Definition all_chars (p : ascii -> bool) (s : string) : bool :=
  forallb p (list_ascii_of_string s).

(** All the bytes, for checks by enumeration. *)
Definition all_bytes : list byte := map byte_of_N (map N.of_nat (seq 0 256)).

(** The index of a character in the URL-safe alphabet: the inverse of
    [sextet b64url_alphabet], used to read an encoding back. *)
Definition sextet_value (c : ascii) : N :=
  let n := N_of_ascii c in
  if ((65 <=? n) && (n <=? 90))%N then n - 65
  else if ((97 <=? n) && (n <=? 122))%N then n - 71
  else if ((48 <=? n) && (n <=? 57))%N then n + 4
  else if (n =? 45)%N then 62
  else 63.

(** The bytes of an unpadded URL-safe encoding, read back group by group. *)
Fixpoint base64url_bytes (s : string) : list byte :=
  match s with
  | String c1 (String c2 rest) =>
      let v1 := sextet_value c1 in
      let v2 := sextet_value c2 in
      byte_of_N (N.lor (N.shiftl v1 2) (N.shiftr v2 4)) ::
      match rest with
      | String c3 rest' =>
          let v3 := sextet_value c3 in
          byte_of_N (N.lor (N.shiftl (N.land v2 15) 4) (N.shiftr v3 2)) ::
          match rest' with
          | String c4 rest'' =>
              byte_of_N (N.lor (N.shiftl (N.land v3 3) 6) (sextet_value c4))
              :: base64url_bytes rest''
          | EmptyString => []
          end
      | EmptyString => []
      end
  | _ => []
  end.

(** The value of a hexadecimal digit. *)
Definition hex_value (c : ascii) : N :=
  let n := N_of_ascii c in
  if ((48 <=? n) && (n <=? 57))%N then n - 48 else n - 87.

(** The bytes of a lower-case hexadecimal string, read back pair by pair. *)
Fixpoint hex_bytes (s : string) : list byte :=
  match s with
  | String c1 (String c2 rest) =>
      byte_of_N (16 * hex_value c1 + hex_value c2) :: hex_bytes rest
  | _ => []
  end.

End PkceText.


(** ** [server/routes/github.ts] *)

Module GitHubRoutes.
Import Encoding Json TwitterRoutes.

(** The JSON body [router.post('/token', ...)] posts to the provider; a
    member whose value is [undefined] is left out of it. *)
Record TokenRequest := {
  client_id : option string;
  client_secret : option string;
  code : option json;
  redirect_uri : string
}.

Section Handlers.
Variable env : Env.
(** [crypto.randomBytes(n)]. *)
Variable randomBytes : nat -> list byte.

(** [router.post('/auth', ...)]: the handler does not read the request.
    [new URL(authUrl)] accepts what the handler builds, an [https] URL
    with a host, a path and a query written by [URLSearchParams]. *)
Definition auth : HttpResponse :=
  let clientId := GITHUB_CLIENT_ID env in
  if negb (env_set clientId) then
    res_error 500 "GitHub client configuration missing"
  else
    let state := hex (randomBytes 16) in
    let params := [
      ("client_id", env_str clientId);
      ("redirect_uri", "http://localhost:5173/github-callback");
      ("scope", "read:user repo");
      ("state", state);
      ("response_type", "code");
      ("allow_signup", "true")
    ] in
    let authUrl :=
      "https://github.com/login/oauth/authorize?" +:+ URLSearchParams_toString params in
    res_json (JObj [("url", JStr authUrl)]).

(** [router.post('/token', ...)]; [github] is the provider's token
    endpoint. *)
Definition token (github : TokenRequest -> ProviderReply)
    (req_body : list (string * json)) : HttpResponse :=
  let code := assoc "code" req_body in
  let state := assoc "state" req_body in
  if negb (truthy code) then
    res_error 400 "Code is required"
  else
    match axios (github {| client_id := GITHUB_CLIENT_ID env;
                           client_secret := GITHUB_CLIENT_SECRET env;
                           code := code;
                           redirect_uri := "http://localhost:5173/github-callback" |}) with
    | Some response => res_json (data response)
    | None => res_error 500 "Failed to exchange GitHub token"
    end.

(** [router.get('/user', ...)]; [github] is the provider's [user]
    endpoint, applied to the Authorization header the handler sends. *)
Definition user (github : string -> ProviderReply)
    (authHeader : option string) : HttpResponse :=
  match authHeader with
  | Some h =>
      if String.prefix "Bearer " h then
        let token := nth 1 (split_space h) "undefined" in
        match axios (github ("Bearer " +:+ token)) with
        | Some response => res_json (data response)
        | None => res_error 500 "Failed to fetch GitHub user data"
        end
      else res_error 401 "Invalid authorization header"
  | None => res_error 401 "Invalid authorization header"
  end.

End Handlers.

End GitHubRoutes.

(** ** [server/services/github.service.ts] *)

Module GitHubService.
Import Encoding Json TwitterRoutes.

Record GitHubService := {
  clientId : string;
  clientSecret : string;
  callbackUrl : string;
  scope : string
}.

(** The constructor, from [GITHUB_CLIENT_ID], [GITHUB_CLIENT_SECRET],
    [GITHUB_CALLBACK_URL] and [GITHUB_SCOPE] of [process.env]. *)
Definition new (id secret callback scope_ : option string) : GitHubService :=
  {| clientId := env_or id "";
     clientSecret := env_or secret "";
     callbackUrl := env_or callback "";
     scope := env_or scope_ "" |}.

(** The JSON body [exchangeCodeForToken] posts. *)
Record TokenRequest := {
  client_id : string;
  client_secret : string;
  code : string;
  redirect_uri : string;
  state : string
}.

(** The outcome of an [async] method: the value of the promise, or the
    message of the error it rejects with. *)
Inductive Settled (A : Type) :=
| Resolved (value : A)
| Rejected (message : string).
Arguments Resolved {A} value.
Arguments Rejected {A} message.

Section Methods.
Variable this : GitHubService.

(** [getAuthorizationUrl(state)]. *)
Definition getAuthorizationUrl (state : string) : string :=
  let params := [
    ("client_id", clientId this);
    ("redirect_uri", callbackUrl this);
    ("scope", scope this);
    ("state", state);
    ("allow_signup", "false")
  ] in
  "https://github.com/login/oauth/authorize?" +:+ URLSearchParams_toString params.

(** [exchangeCodeForToken(code, state)]; the value is the [access_token] of
    the object returned. *)
Definition exchangeCodeForToken (github : TokenRequest -> ProviderReply)
    (code state : string) : Settled json :=
  match axios (github {| client_id := clientId this;
                         client_secret := clientSecret this;
                         code := code;
                         redirect_uri := callbackUrl this;
                         state := state |}) with
  | Some response =>
      match Browser.property "access_token" (data response) with
      | Some access_token =>
          if negb (truthy access_token) then
            (* throw new Error('Failed to get access token'), into the catch *)
            Rejected "Failed to exchange code for token"
          else
            match access_token with
            | Some t => Resolved t
            | None => Rejected "Failed to exchange code for token"
            end
      | None => Rejected "Failed to exchange code for token"
      end
  | None => Rejected "Failed to exchange code for token"
  end.

(** [getUserData(accessToken)]. *)
Definition getUserData (github : string -> ProviderReply)
    (accessToken : string) : Settled json :=
  match axios (github ("Bearer " +:+ accessToken)) with
  | Some response => Resolved (data response)
  | None => Rejected "Failed to fetch user data"
  end.

End Methods.

End GitHubService.

(** ** [src/components/GitHubCallback.ts] *)

Module GitHubCallback.
Import Json Browser.

Record CallbackOutcome := {
  storage : gmap string string;
  (** the [code] and [state] of the bodies posted to the token route *)
  sent : list (string * option string);
  (** [window.location.href], when the page navigates away *)
  location : option string;
  (** the text of the error box *)
  shown : option string
}.

Section Callback.
(** [fetch('http://localhost:3000/api/github/token', ...)] with the body
    [{ code, state }]. *)
Variable backend : string -> option string -> FetchResult.

Definition failed (localStorage : gmap string string)
    (sent : list (string * option string)) : CallbackOutcome :=
  {| storage := localStorage; sent := sent; location := None;
     shown := Some "Failed to complete GitHub authentication. Please try again." |}.

(** [handleCallback()]; [code] and [state] are [urlParams.get('code')] and
    [urlParams.get('state')]. *)
Definition handleCallback (code state : option string)
    (localStorage : gmap string string) : CallbackOutcome :=
  match code with
  | Some code_ =>
      if missing code then failed localStorage []
      else
        match backend code_ state with
        | NetworkError => failed localStorage [(code_, state)]
        | Response response =>
            if negb (ok response) then failed localStorage [(code_, state)]
            else
              match property "access_token" (TwitterRoutes.body response) with
              | Some access_token =>
                  if truthy access_token then
                    {| storage := <["github_token" := ToString_opt access_token]>
                                    localStorage;
                       sent := [(code_, state)];
                       location := Some "/";
                       shown := None |}
                  else failed localStorage [(code_, state)]
              | None => failed localStorage [(code_, state)]
              end
        end
  | None => failed localStorage []
  end.

(** The constructor: the callback is processed on the callback route
    only. *)
Definition process (pathname : string) (code state : option string)
    (localStorage : gmap string string) : CallbackOutcome :=
  if String.eqb pathname "/github-callback"
  then handleCallback code state localStorage
  else {| storage := localStorage; sent := []; location := None; shown := None |}.

End Callback.

(** The token route of [server/routes/github.ts] behind [fetch]:
    [JSON.stringify({ code, state })] writes a [null] state as [null]. *)
Definition served (token : list (string * json) -> TwitterRoutes.HttpResponse)
    (code : string) (state : option string) : FetchResult :=
  Response (token [("code", JStr code);
                   ("state", match state with Some s => JStr s | None => JNull end)]).

End GitHubCallback.

(** ** [src/components/App.ts], [AuthenticatedView.ts] and [AuthStatus.ts]:
    the session in [localStorage] *)

Module Session.
Import Browser.

(** [render()] of [App]: the element inside the container. *)
Definition isAuthenticated (localStorage : gmap string string) : bool :=
  negb (missing (localStorage !! "twitter_token"))
  && negb (missing (localStorage !! "twitter_signed_data")).

Definition App_render (localStorage : gmap string string) : string :=
  if isAuthenticated localStorage
  then "<authenticated-view></authenticated-view>"
  else "<twitter-login></twitter-login>".

(** [Object.values(AuthenticatedView.STORAGE_KEYS)]. *)
Definition STORAGE_KEYS : list string :=
  ["twitter_signed_data"; "twitter_token"; "pkce_verifier"; "oauth_state"].

(** [handleLogout()] of [AuthenticatedView], up to the reload. *)
Definition handleLogout (localStorage : gmap string string) : gmap string string :=
  fold_left (fun storage key => delete key storage) STORAGE_KEYS localStorage.

(** The click handler of a disconnect button of [AuthStatus];
    [service] is [dataset.service]. *)
Definition disconnect (service : option string) (localStorage : gmap string string)
  : gmap string string :=
  if bool_decide (service = Some "twitter") then delete "twitter_token" localStorage
  else if bool_decide (service = Some "github") then delete "github_token" localStorage
  else localStorage.

(** The badge of a service in [render()] of [AuthStatus]. *)
Definition badge (token : option string) : string :=
  if missing token then "Disconnected" else "Connected".

(** [getTwitterUserInfo()] and [getGitHubUserInfo()] of [AuthStatus], for
    the token under [key]; [backend] is the user route behind [fetch],
    applied to the Authorization header, and [JNull] is [null]. *)
Definition getUserInfo (key : string) (backend : string -> FetchResult)
    (localStorage : gmap string string) : Json.json :=
  match localStorage !! key with
  | Some token =>
      if missing (Some token) then Json.JNull
      else
        match backend ("Bearer " +:+ token) with
        | Response response =>
            if negb (ok response) then Json.JNull else TwitterRoutes.body response
        | NetworkError => Json.JNull
        end
  | None => Json.JNull
  end.

End Session.


(** ** Measures on the page of [index.js] *)

Module PageText.
Import AgeProof.

(** The [await]s a run has ahead of it, at most. *)
Definition awaits_ahead (r : Run) : nat :=
  match r with
  | AwaitInit _ => 4
  | AwaitExecute _ => 3
  | AwaitProve _ => 2
  | AwaitVerify _ => 1
  | AwaitLoad => 1
  | Returned => 0
  end.

(** A run that has reached the toolchain: it is suspended at
    [noir.execute], [backend.generateProof] or [backend.verifyProof]. *)
Definition in_toolchain (r : Run) : bool :=
  match r with
  | AwaitExecute _ | AwaitProve _ | AwaitVerify _ => true
  | _ => false
  end.

(** A message that reports a verified proof. *)
Definition is_success (m : Message) : bool :=
  match m with
  | Success _ => true
  | _ => false
  end.

(** A text of white space, as [parseInt] skips it. *)
Definition all_whitespace (s : string) : bool :=
  forallb is_whitespace (list_ascii_of_string s).

(** A page on which nothing has run: nothing is initialized, [localStorage]
    is as it was found, no run is in the toolchain and no success is
    shown. *)
Definition idle (stored : gmap string string) (pg : Page) : Prop :=
  initialized pg = false
  /\ localStorage pg = stored
  /\ Forall (fun r => in_toolchain r = false) (runs pg)
  /\ Forall (fun m => is_success (fst m) = false) (shown pg).

End PageText.


(** * Properties *)

(** ** Encodings *)

Module EncodingFacts.
Import Encoding.

Lemma binary_bytes_fromCharCode (bs : list byte) :
  binary_bytes (fromCharCode bs) = bs.
Proof.
  induction bs as [|b bs IH]; simpl; [reflexivity|].
  now rewrite byte_of_ascii_of_byte, IH.
Qed.

Lemma land63_lt (i : N) : (N.to_nat (N.land i 63) < 64)%nat.
Proof.
  assert (N.land i 63 < 64)%N; [|lia].
  change 63%N with (N.ones 6). rewrite N.land_ones.
  apply N.mod_lt. discriminate.
Qed.

(** The two global replacements turn a character of the standard alphabet
    into the character of the URL-safe alphabet at the same index. *)
Lemma sextet_url (i : N) :
  (let c := sextet b64_alphabet i in
   let c' := if Ascii.eqb c "+" then "-"%char else c in
   if Ascii.eqb c' "/" then "_"%char else c') = sextet b64url_alphabet i.
Proof.
  unfold sextet. pose proof (land63_lt i) as H.
  destruct (N.to_nat (N.land i 63)) as [|n]; [reflexivity|].
  do 63 (destruct n as [|n]; [reflexivity|]). lia.
Qed.

Lemma sextet_url_not_pad (i : N) : Ascii.eqb (sextet b64url_alphabet i) "=" = false.
Proof.
  unfold sextet. pose proof (land63_lt i) as H.
  destruct (N.to_nat (N.land i 63)) as [|n]; [reflexivity|].
  do 63 (destruct n as [|n]; [reflexivity|]). lia.
Qed.

Lemma strip_trailing_eq_cons (x : ascii) (s : string) :
  Ascii.eqb x "=" = false ->
  strip_trailing_eq (String x s) = String x (strip_trailing_eq s).
Proof.
  intros Hx. simpl. destruct (strip_trailing_eq s); [now rewrite Hx|reflexivity].
Qed.

(** The test vectors of RFC 4648, section 10. *)
Example btoa_rfc4648 :
  btoa "" = "" /\ btoa "f" = "Zg==" /\ btoa "fo" = "Zm8=" /\ btoa "foo" = "Zm9v"
  /\ btoa "foob" = "Zm9vYg==" /\ btoa "fooba" = "Zm9vYmE="
  /\ btoa "foobar" = "Zm9vYmFy".
Proof. repeat split; reflexivity. Qed.

(** The two bytes whose standard encoding is [+/8=]. *)
Example base64URLEncode_url_safe : Pkce.base64URLEncode [xfb; xff] = "-_8".
Proof. reflexivity. Qed.

Lemma list_ind3 {A} (P : list A -> Prop) :
  P [] -> (forall a, P [a]) -> (forall a b, P [a; b]) ->
  (forall a b c r, P r -> P (a :: b :: c :: r)) ->
  forall l, P l.
Proof.
  intros H0 H1 H2 H3.
  fix IH 1. intros [|a [|b [|c r]]].
  - exact H0.
  - apply H1.
  - apply H2.
  - apply H3, IH.
Qed.

(** One group of the padded standard encoding, after the replacements. *)
Lemma url_of_std (i : N) (s : string) :
  replace_all "/" "_" (replace_all "+" "-" (String (sextet b64_alphabet i) s))
  = String (sextet b64url_alphabet i) (replace_all "/" "_" (replace_all "+" "-" s)).
Proof. simpl. f_equal. apply sextet_url. Qed.

(** The chain [btoa], [+ -> -], [/ -> _], strip [=] is the unpadded
    URL-safe encoding. *)
Lemma base64url_chain (bs : list byte) :
  strip_trailing_eq
    (replace_all "/" "_" (replace_all "+" "-" (base64_with b64_alphabet bs)))
  = base64url_unpadded bs.
Proof.
  induction bs as [|a|a b|a b c r IH] using list_ind3.
  - reflexivity.
  - cbn [base64_with base64url_unpadded]. rewrite !url_of_std.
    rewrite !strip_trailing_eq_cons by apply sextet_url_not_pad. reflexivity.
  - cbn [base64_with base64url_unpadded]. rewrite !url_of_std.
    rewrite !strip_trailing_eq_cons by apply sextet_url_not_pad. reflexivity.
  - cbn [base64_with base64url_unpadded]. rewrite !url_of_std.
    rewrite !strip_trailing_eq_cons by apply sextet_url_not_pad.
    now rewrite IH.
Qed.

End EncodingFacts.

(** ** JSON *)

Module JsonFacts.
Import Json.

Lemma json_ind (P : json -> Prop) :
  P JNull -> (forall b, P (JBool b)) -> (forall n, P (JNum n)) ->
  (forall s, P (JStr s)) ->
  (forall items, Forall P items -> P (JArr items)) ->
  (forall members, Forall (fun kv => P (snd kv)) members -> P (JObj members)) ->
  forall v, P v.
Proof.
  intros Hnull Hbool Hnum Hstr Harr Hobj.
  fix IH 1. intros [ | b | n | s | items | members].
  - exact Hnull.
  - apply Hbool.
  - apply Hnum.
  - apply Hstr.
  - apply Harr. induction items as [|x items IHitems]; constructor.
    + apply IH.
    + exact IHitems.
  - apply Hobj. induction members as [|[k x] members IHmembers]; constructor.
    + apply IH.
    + exact IHmembers.
Qed.

(** *** The order of [sort] *)

Lemma ascii_compare_N (a b : ascii) :
  Ascii.compare a b = N.compare (N_of_ascii a) (N_of_ascii b).
Proof. reflexivity. Qed.

Lemma ascii_compare_eq (a b : ascii) : Ascii.compare a b = Eq -> a = b.
Proof.
  rewrite ascii_compare_N. intros H%N.compare_eq.
  rewrite <- (ascii_N_embedding a), <- (ascii_N_embedding b). now rewrite H.
Qed.

Lemma string_compare_trans_le (s1 : string) :
  forall s2 s3,
    String.compare s1 s2 <> Gt -> String.compare s2 s3 <> Gt ->
    String.compare s1 s3 <> Gt.
Proof.
  induction s1 as [|a s1 IH]; intros [|b s2] [|c s3]; simpl; try congruence.
  rewrite !ascii_compare_N.
  destruct (N.compare_spec (N_of_ascii a) (N_of_ascii b)) as [Hab|Hab|Hab];
    destruct (N.compare_spec (N_of_ascii b) (N_of_ascii c)) as [Hbc|Hbc|Hbc];
    destruct (N.compare_spec (N_of_ascii a) (N_of_ascii c)) as [Hac|Hac|Hac];
    try congruence; try lia.
  apply IH.
Qed.

#[local] Instance code_unit_le_trans : Transitive code_unit_le.
Proof.
  intros s1 s2 s3. unfold code_unit_le, String.leb. intros H12 H23.
  pose proof (string_compare_trans_le s1 s2 s3) as H.
  destruct (String.compare s1 s2); try discriminate;
    destruct (String.compare s2 s3); try discriminate;
    destruct (String.compare s1 s3); try reflexivity;
    exfalso; apply H; congruence.
Qed.

#[local] Instance code_unit_le_total : Total code_unit_le.
Proof. intros s1 s2. apply String.leb_total. Qed.

#[local] Instance code_unit_le_antisym : AntiSymm eq code_unit_le.
Proof. intros s1 s2. apply String.leb_antisym. Qed.

Lemma sort_sorted (keys : list string) : Sorted code_unit_le (sort keys).
Proof. apply Sorted_merge_sort; apply _. Qed.


Lemma sort_perm (keys : list string) : sort keys ≡ₚ keys.
Proof. apply merge_sort_Permutation. Qed.

(** A sorted array does not depend on the order it was sorted from. *)
Lemma sort_unique (keys keys' : list string) :
  keys ≡ₚ keys' -> sort keys = sort keys'.
Proof.
  intros Hp. apply (Sorted_unique code_unit_le); try apply sort_sorted.
  now rewrite !sort_perm.
Qed.

(** *** [JSON.stringify] on examples *)

Example stringify_array :
  JSON_stringify (JArr [JNum 1; JNum (-2); JNull; JBool true; JArr []]) None
  = "[1,-2,null,true,[]]".
Proof. reflexivity. Qed.

(** [JSON.stringify({a: 1, b: {c: 2, a: 3}}, ['a', 'b'])] is
    [JSON.stringify({a: 1, b: {a: 3}})]: the property list filters the
    nested object as well. *)
Example stringify_property_list :
  JSON_stringify
    (JObj [("a", JNum 1); ("b", JObj [("c", JNum 2); ("a", JNum 3)])])
    (Some ["a"; "b"])
  = JSON_stringify (JObj [("a", JNum 1); ("b", JObj [("a", JNum 3)])]) None.
Proof. reflexivity. Qed.

Example sort_keys :
  sort ["id"; "created_at"; "public_metrics"; "Name"; "name"]
  = ["Name"; "created_at"; "id"; "name"; "public_metrics"].
Proof. reflexivity. Qed.

(** *** Property lookup *)

Lemma assoc_elem_of {A} (key : string) (members : list (string * A)) (v : A) :
  assoc key members = Some v -> (key, v) ∈ members.
Proof.
  induction members as [|[k x] members IH]; simpl; [discriminate|].
  destruct (String.eqb_spec key k) as [->|Hne].
  - intros [= ->]. left.
  - intros H. right. auto.
Qed.

Lemma assoc_None {A} (key : string) (members : list (string * A)) :
  assoc key members = None <-> key ∉ map fst members.
Proof.
  induction members as [|[k x] members IH]; simpl.
  - split; [intros _; apply not_elem_of_nil|reflexivity].
  - destruct (String.eqb_spec key k) as [->|Hne].
    + split; [discriminate|]. intros H. exfalso. apply H. left.
    + rewrite IH. rewrite not_elem_of_cons. tauto.
Qed.

Lemma assoc_NoDup {A} (key : string) (members : list (string * A)) (v : A) :
  NoDup (map fst members) -> (key, v) ∈ members -> assoc key members = Some v.
Proof.
  induction members as [|[k x] members IH]; simpl; intros Hnd Hin.
  - now apply elem_of_nil in Hin.
  - apply NoDup_cons in Hnd as [Hk Hnd].
    apply elem_of_cons in Hin as [[= <- <-]|Hin].
    + now rewrite String.eqb_refl.
    + destruct (String.eqb_spec key k) as [->|Hne]; [|auto].
      exfalso. apply Hk. apply list_elem_of_fmap. now exists (k, v).
Qed.

(** With distinct keys the value of a property does not depend on the
    order of the members. *)
Lemma assoc_perm {A} (key : string) (members members' : list (string * A)) :
  NoDup (map fst members) -> members ≡ₚ members' ->
  assoc key members = assoc key members'.
Proof.
  intros Hnd Hp.
  assert (Hnd' : NoDup (map fst members')) by now rewrite <- Hp.
  destruct (assoc key members) as [v|] eqn:E.
  - symmetry. apply assoc_NoDup; [assumption|].
    rewrite <- Hp. now apply assoc_elem_of.
  - symmetry. apply assoc_None. rewrite <- Hp. now apply assoc_None.
Qed.

(** *** Serialization under a property list *)

Lemma forallb_Forall {A} (f : A -> bool) (l : list A) :
  forallb f l = true -> Forall (fun x => f x = true) l.
Proof.
  induction l as [|x l IH]; simpl; [constructor|].
  intros [Hx Hl]%andb_prop. constructor; auto.
Qed.

Lemma omap_pointwise {A B} (f g : A -> option B) (l : list A) :
  (forall x, f x = g x) -> omap f l = omap g l.
Proof.
  intros Hfg. induction l as [|x l IH]; [reflexivity|].
  csimpl. now rewrite Hfg, IH.
Qed.

Lemma wf_obj (members : list (string * json)) :
  wf (JObj members) = true ->
  NoDup (map fst members) /\ Forall (fun kv => wf (snd kv) = true) members.
Proof.
  simpl. intros [Hnd Hall]%andb_prop. split.
  - now apply bool_decide_eq_true in Hnd.
  - now apply forallb_Forall in Hall.
Qed.

Lemma wf_arr (items : list json) :
  wf (JArr items) = true -> Forall (fun x => wf x = true) items.
Proof. simpl. apply forallb_Forall. Qed.

Lemma assoc_map {A B} (f : A -> B) (key : string) (members : list (string * A)) :
  assoc key (map (fun kv => (fst kv, f (snd kv))) members)
  = f <$> assoc key members.
Proof.
  induction members as [|[k x] members IH]; [reflexivity|].
  simpl. destruct (String.eqb key k); [reflexivity|exact IH].
Qed.

Lemma assoc_omap {A} (f : string -> option A) (key : string) (K : list string) :
  assoc key (omap (fun k => match f k with
                            | Some v => Some (k, v)
                            | None => None
                            end) K)
  = if decide (key ∈ K) then f key else None.
Proof.
  induction K as [|k K IH].
  - destruct (decide (key ∈ [])) as [Hin|_]; [|reflexivity].
    now apply elem_of_nil in Hin.
  - csimpl. destruct (f k) as [v|] eqn:Ek; csimpl.
    + destruct (String.eqb_spec key k) as [->|Hne].
      * destruct (decide (k ∈ k :: K)) as [_|Hin]; [now rewrite Ek|].
        exfalso. apply Hin. left.
      * rewrite IH.
        destruct (decide (key ∈ K)) as [Hin|Hin],
                 (decide (key ∈ k :: K)) as [Hin'|Hin']; try reflexivity.
        -- exfalso. apply Hin'. now right.
        -- apply elem_of_cons in Hin' as [?|?]; congruence.
    + rewrite IH.
      destruct (decide (key ∈ K)) as [Hin|Hin],
               (decide (key ∈ k :: K)) as [Hin'|Hin']; try reflexivity.
      * exfalso. apply Hin'. now right.
      * apply elem_of_cons in Hin' as [->|?]; [now rewrite Ek|congruence].
Qed.

Lemma keys_omap {A} (f : string -> option A) (K : list string) :
  map fst (omap (fun k => match f k with
                          | Some v => Some (k, v)
                          | None => None
                          end) K)
  = filter (fun k => is_Some (f k)) K.
Proof.
  induction K as [|k K IH]; [reflexivity|].
  rewrite filter_cons.
  destruct (decide (is_Some (f k))) as [[v Hv]|Hn]; csimpl.
  - rewrite Hv. csimpl. now rewrite IH.
  - destruct (f k) as [v|]; [|exact IH]. exfalso. apply Hn. eauto.
Qed.

(** Serializing under a property list is serializing what the list leaves. *)
Lemma serialize_restrict (K : list string) (v : json) :
  SerializeJSONProperty (Some K) v = SerializeJSONProperty None (restrict K v).
Proof.
  induction v as [ | b | n | s | items IH | members IH] using json_ind;
    try reflexivity.
  - cbn [SerializeJSONProperty restrict]. do 3 f_equal.
    rewrite map_map. induction IH as [|x l Hx _ IHl]; [reflexivity|].
    simpl. now rewrite Hx, IHl.
  - cbn [SerializeJSONProperty restrict].
    set (kept := map (fun kv => (fst kv, restrict K (snd kv))) members).
    set (left := omap (fun k => match assoc k kept with
                                | Some v' => Some (k, v')
                                | None => None
                                end) K).
    set (strs := map (fun kv => (fst kv, SerializeJSONProperty (Some K) (snd kv)))
                     members).
    set (strs' := map (fun kv => (fst kv, SerializeJSONProperty None (snd kv))) left).
    assert (Hlook : forall P, P ∈ K -> assoc P strs' = assoc P strs).
    { intros P HP. unfold strs', strs, left, kept.
      rewrite !assoc_map, assoc_omap, decide_True by exact HP.
      rewrite assoc_map.
      destruct (assoc P members) as [x|] eqn:Ex; [|reflexivity].
      simpl. f_equal. symmetry.
      apply assoc_elem_of in Ex.
      rewrite Forall_forall in IH. apply (IH (P, x)). exact Ex. }
    assert (Hpartial :
      omap (fun P => match assoc P strs' with
                     | Some strP => Some (QuoteJSONString P +:+ ":" +:+ strP)
                     | None => None
                     end) (map fst left)
      = omap (fun P => match assoc P strs with
                       | Some strP => Some (QuoteJSONString P +:+ ":" +:+ strP)
                       | None => None
                       end) K).
    { unfold left. rewrite keys_omap.
      assert (Haux : forall K0 : list string, (forall P, P ∈ K0 -> P ∈ K) ->
        omap (fun P => match assoc P strs' with
                       | Some strP => Some (QuoteJSONString P +:+ ":" +:+ strP)
                       | None => None
                       end) (filter (fun k => is_Some (assoc k kept)) K0)
        = omap (fun P => match assoc P strs with
                         | Some strP => Some (QuoteJSONString P +:+ ":" +:+ strP)
                         | None => None
                         end) K0); [|now apply Haux].
      induction K0 as [|k K0 IHK]; intros Hsub; [reflexivity|].
      rewrite filter_cons.
      assert (Hk : k ∈ K) by (apply Hsub; left).
      assert (HK0 : forall P, P ∈ K0 -> P ∈ K) by (intros P HP; apply Hsub; now right).
      assert (Es : assoc k strs = SerializeJSONProperty (Some K) <$> assoc k members)
        by (unfold strs; apply assoc_map).
      assert (Ek : assoc k kept = restrict K <$> assoc k members)
        by (unfold kept; apply assoc_map).
      destruct (decide (is_Some (assoc k kept))) as [[x' Hx']|Hn]; csimpl.
      - rewrite (Hlook k Hk), Es.
        destruct (assoc k members) as [x|]; [|rewrite Ek in Hx'; discriminate].
        csimpl. f_equal. now apply IHK.
      - rewrite Es.
        destruct (assoc k members) as [x|]; [|now apply IHK].
        exfalso. apply Hn. rewrite Ek. simpl. eauto. }
    now rewrite Hpartial.
Qed.

Lemma Forall_filter_keep {A} (P Q : A -> Prop) `{forall x, Decision (Q x)}
    (l : list A) :
  Forall P l -> Forall P (filter Q l).
Proof.
  induction 1 as [|x l Hx Hl IH]; [constructor|].
  rewrite filter_cons. destruct (decide (Q x)); [constructor|]; assumption.
Qed.


Lemma Forall_dedup (P : string -> Prop) (l : list string) :
  Forall P l -> Forall P (dedup l).
Proof.
  induction 1 as [|x l Hx Hl IH]; [constructor|].
  simpl. constructor; [assumption|]. now apply Forall_filter_keep.
Qed.




Lemma serialize_key_permutation (K : list string) (v : json) :
  forall v', wf v = true -> key_permutation v v' ->
    SerializeJSONProperty (Some K) v = SerializeJSONProperty (Some K) v'.
Proof.
  induction v as [ | b | n | s | items IH | members IH] using json_ind;
    intros v' Hwf Hkp; inversion Hkp; subst; try reflexivity.
  - (* arrays: element by element *)
    simpl. do 3 f_equal.
    apply wf_arr in Hwf.
    match goal with H : Forall2 _ _ _ |- _ => revert H end.
    intros H2. clear Hkp. induction H2 as [|x y l l' Hxy H2 IH2]; [reflexivity|].
    apply Forall_cons in IH as [IHx IHl]. apply Forall_cons in Hwf as [Hx Hl].
    simpl. f_equal; auto.
  - (* objects: the listed keys, looked up in either order *)
    apply wf_obj in Hwf as [Hnd Hall].
    match goal with H : Forall2 _ members _ |- _ => rename H into H2 end.
    match goal with H : _ ≡ₚ _ |- _ => rename H into Hp end.
    set (ser := fun kv : string * json =>
                  (fst kv, SerializeJSONProperty (Some K) (snd kv))).
    assert (Hinner : map ser members = map ser inner).
    { clear Hp Hnd Hkp. induction H2 as [|[k x] [k' y] l l' [Hk Hxy] H2 IH2];
        [reflexivity|].
      apply Forall_cons in IH as [IHx IHl]. apply Forall_cons in Hall as [Hx Hl].
      simpl in *. subst k'. unfold ser at 1 3. simpl. f_equal; auto.
      f_equal. auto. }
    assert (Hkeys : map fst (map ser members) = map fst members).
    { rewrite map_map. reflexivity. }
    assert (Hassoc : forall P, assoc P (map ser members) = assoc P (map ser members')).
    { intros P. apply assoc_perm.
      - now rewrite Hkeys.
      - rewrite Hinner. now apply Permutation_map. }
    cbn [SerializeJSONProperty]. fold ser.
    rewrite (omap_pointwise _
      (fun P => match assoc P (map ser members') with
                | Some strP => Some (QuoteJSONString P +:+ ":" +:+ strP)
                | None => None
                end) K); [reflexivity|].
    intros P. now rewrite Hassoc.
Qed.

End JsonFacts.

(** ** The attestation routes *)

Module TwitterRoutesFacts.
Import Encoding Json JsonFacts TwitterRoutes.

Lemma Forall2_keys (members inner : list (string * json)) :
  Forall2 (fun a b => fst a = fst b /\ key_permutation (snd a) (snd b))
          members inner ->
  map fst members = map fst inner.
Proof.
  induction 1 as [|a b l l' [Hk _] _ IH]; [reflexivity|].
  simpl. now rewrite Hk, IH.
Qed.

(** The keys of a payload and of a reordering of it are the same up to
    their order. *)
Lemma Object_keys_key_permutation (v v' : json) :
  key_permutation v v' ->
  match Object_keys (Some v), Object_keys (Some v') with
  | Some keys, Some keys' => keys ≡ₚ keys'
  | None, None => True
  | _, _ => False
  end.
Proof.
  intros Hkp. inversion Hkp; subst; simpl; try reflexivity; try exact I.
  - match goal with H : Forall2 _ _ _ |- _ => apply Forall2_length in H end.
    unfold index_keys. now match goal with H : _ = _ |- _ => rewrite H end.
  - match goal with H : Forall2 _ _ _ |- _ => apply Forall2_keys in H; rewrite H end.
    now apply Permutation_map.
Qed.


Lemma serializedData_key_permutation (P P' : json) :
  wf P = true -> key_permutation P P' ->
  serializedData (Some P) = serializedData (Some P').
Proof.
  intros Hwf Hkp. unfold serializedData.
  pose proof (Object_keys_key_permutation P P' Hkp) as Hkeys.
  destruct (Object_keys (Some P)) as [keys|], (Object_keys (Some P')) as [keys'|];
    try contradiction; [|reflexivity].
  unfold JSON_stringify. simpl. rewrite (sort_unique keys keys' Hkeys).
  f_equal. now apply serialize_key_permutation.
Qed.

(** *** Hexadecimal strings in a query string *)

Lemma hex_digit_urlencode (n : N) :
  String.concat "" (map (fun b => urlencode_byte (Byte.to_N b)) (utf8 (hex_digit n)))
  = String (hex_digit n) "".
Proof.
  destruct n as [|p]; [reflexivity|].
  do 4 (destruct p as [p|p|]; try reflexivity).
Qed.

Lemma hex_digit_is_hex (n : N) : is_hex_digit (hex_digit n) = true.
Proof.
  destruct n as [|p]; [reflexivity|].
  do 4 (destruct p as [p|p|]; try reflexivity).
Qed.

Lemma hex_cons (b : byte) (bs : list byte) :
  hex (b :: bs)
  = String (hex_digit (N.shiftr (Byte.to_N b) 4))
      (String (hex_digit (N.land (Byte.to_N b) 15)) (hex bs)).
Proof. reflexivity. Qed.

Lemma urlencode_hex (bs : list byte) : urlencode (hex bs) = hex bs.
Proof.
  induction bs as [|b bs IH]; [reflexivity|].
  rewrite hex_cons. cbn [urlencode]. rewrite !hex_digit_urlencode, IH. reflexivity.
Qed.

Lemma hex_length (bs : list byte) : String.length (hex bs) = (2 * List.length bs)%nat.
Proof.
  induction bs as [|b bs IH]; [reflexivity|].
  rewrite hex_cons. cbn [String.length List.length]. rewrite IH. lia.
Qed.

Lemma hex_is_hex (bs : list byte) :
  forallb is_hex_digit (list_ascii_of_string (hex bs)) = true.
Proof.
  induction bs as [|b bs IH]; [reflexivity|].
  rewrite hex_cons. cbn [list_ascii_of_string forallb].
  now rewrite !hex_digit_is_hex, IH.
Qed.

Lemma append_assoc (a b c : string) : (a +:+ b) +:+ c = a +:+ (b +:+ c).
Proof.
  induction a as [|x a IH]; [reflexivity|].
  change (String x ((a +:+ b) +:+ c) = String x (a +:+ (b +:+ c))).
  f_equal. exact IH.
Qed.

Lemma concat_snoc (sep : string) (l : list string) (x y : string) :
  String.concat sep ((x :: l) ++ [y]) = String.concat sep (x :: l) +:+ sep +:+ y.
Proof.
  revert x. induction l as [|z l IH]; intros x; [reflexivity|].
  change (String.concat sep ((x :: z :: l) ++ [y]))
    with (x +:+ sep +:+ String.concat sep ((z :: l) ++ [y])).
  rewrite IH.
  change (String.concat sep (x :: z :: l))
    with (x +:+ sep +:+ String.concat sep (z :: l)).
  now rewrite !append_assoc.
Qed.

(** A last parameter whose value is a hexadecimal string ends the query
    string verbatim. *)
Lemma URLSearchParams_hex_last (p : string * string) (params : list (string * string))
    (name : string) (bs : list byte) :
  URLSearchParams_toString ((p :: params) ++ [(name, hex bs)])
  = URLSearchParams_toString (p :: params) +:+ "&" +:+ urlencode name +:+ "=" +:+ hex bs.
Proof.
  unfold URLSearchParams_toString. rewrite map_app. cbn [map].
  rewrite concat_snoc. cbn [fst snd]. now rewrite urlencode_hex.
Qed.

(** *** The provider rejects *)

Lemma axios_rejects (r : AxiosResponse) :
  response_status r < 200 \/ 300 <= response_status r ->
  axios (Reply r) = None.
Proof.
  intros H. unfold axios.
  destruct (200 <=? response_status r) eqn:E1,
           (response_status r <? 300) eqn:E2; try reflexivity. lia.
Qed.

End TwitterRoutesFacts.

(** ** What the specification says of the attestation routes *)

Module RouteClaims.
Import Encoding Json JsonFacts TwitterRoutes TwitterRoutesFacts.

(** C1: the handler at the profile of the samples. Its canonical
    serialization is not the payload with its keys sorted recursively:
    [JSON.stringify(userData, Object.keys(userData).sort())] takes the
    sorted top-level keys as the keys of every object it writes, so
    [public_metrics] is written as an empty object where a recursive sort
    keeps [followers_count] and [tweet_count]. What is hashed and signed is
    then the same text whatever the counts are. *)
Lemma C1_canonical_form_is_not_the_recursive_sort :
  serializedData (Some Samples.profile)
  = Some (JSON_stringify
            (JObj [("created_at", JStr "2023-01-01"); ("id", JStr "1");
                   ("public_metrics", JObj [])]) None)
  /\ sort_keys_recursively Samples.profile
     = JObj [("created_at", JStr "2023-01-01"); ("id", JStr "1");
             ("public_metrics",
                JObj [("followers_count", JNum 5); ("tweet_count", JNum 3)])]
  /\ serializedData (Some Samples.profile)
     <> Some (JSON_stringify (sort_keys_recursively Samples.profile) None)
  /\ serializedData (Some Samples.profile)
     = serializedData
         (Some (JObj [("id", JStr "1"); ("created_at", JStr "2023-01-01");
                      ("public_metrics",
                         JObj [("tweet_count", JNum 3);
                               ("followers_count", JNum 1000000)])])).
Proof.
  split; [vm_compute; reflexivity|]. split; [vm_compute; reflexivity|].
  split; [vm_compute; discriminate|]. vm_compute. reflexivity.
Qed.

(** X29: the digest does not depend on the order of the keys. For every
    payload [P] with distinct keys in each object, and every [P'] that is
    [P] with the members of its objects reordered at any depth, the handler
    of [GET /user] serializes both to the same text and hashes both to the
    same digest. *)
Theorem digest_independent_of_key_order
    (sha256 : list byte -> list byte) (P P' : json) :
  wf P = true -> key_permutation P P' ->
  serializedData (Some P) = serializedData (Some P')
  /\ msgHash sha256 (Some P) = msgHash sha256 (Some P').
Proof.
  intros Hwf Hkp.
  pose proof (serializedData_key_permutation P P' Hwf Hkp) as Hs.
  split; [exact Hs|]. unfold msgHash. now rewrite Hs.
Qed.

(** The profile of the samples and its reordering have the same digest. *)
Lemma digest_independent_of_key_order_witness :
  wf Samples.profile = true
  /\ key_permutation Samples.profile Samples.profile_reordered
  /\ serializedData (Some Samples.profile) = serializedData (Some Samples.profile_reordered)
  /\ msgHash Samples.toy_digest (Some Samples.profile)
     = msgHash Samples.toy_digest (Some Samples.profile_reordered).
Proof.
  assert (Hwf : wf Samples.profile = true) by reflexivity.
  assert (Hkp : key_permutation Samples.profile Samples.profile_reordered).
  { unfold Samples.profile, Samples.profile_reordered.
    eapply (kp_obj _
      [("id", JStr "1"); ("created_at", JStr "2023-01-01");
       ("public_metrics",
          JObj [("followers_count", JNum 5); ("tweet_count", JNum 3)])]).
    - repeat constructor.
      eapply (kp_obj _ [("tweet_count", JNum 3); ("followers_count", JNum 5)]).
      + repeat constructor.
      + apply perm_swap.
    - apply (Permutation_rev
        [("id", JStr "1"); ("created_at", JStr "2023-01-01");
         ("public_metrics",
            JObj [("followers_count", JNum 5); ("tweet_count", JNum 3)])]). }
  destruct (digest_independent_of_key_order Samples.toy_digest
              Samples.profile Samples.profile_reordered Hwf Hkp) as (H1 & H2).
  exact (conj Hwf (conj Hkp (conj H1 H2))).
Defined.

(** C7 as amended: when the provider answers the token request with a
    status outside 2xx, [POST /token] answers 500 with the fixed body
    [{error: 'Failed to exchange token'}]; the answer has no
    [access_token], and nothing of the provider's answer is in it. *)
Theorem C7_rejected_exchange_answers_500
    (env : Env) (twitter : TokenRequest -> ProviderReply)
    (req_body : list (string * json)) (r : AxiosResponse) :
  truthy (assoc "code" req_body) = true ->
  truthy (assoc "code_verifier" req_body) = true ->
  twitter (token_request env (assoc "code" req_body) (assoc "code_verifier" req_body))
    = Reply r ->
  response_status r < 200 \/ 300 <= response_status r ->
  token env twitter req_body = res_error 500 "Failed to exchange token"
  /\ Browser.property "access_token" (body (token env twitter req_body)) = Some None.
Proof.
  intros Hcode Hver Hreply Hstatus.
  assert (E : token env twitter req_body = res_error 500 "Failed to exchange token").
  { unfold token. rewrite Hcode, Hver, Hreply. cbn [negb orb].
    now rewrite (axios_rejects r Hstatus). }
  split; [exact E|]. now rewrite E.
Qed.

Lemma C7_rejected_exchange_answers_500_witness :
  (response_status Samples.rejected_400 < 200
   \/ 300 <= response_status Samples.rejected_400)
  /\ token Samples.env (fun _ => Reply Samples.rejected_400)
       [("code", JStr "abc"); ("code_verifier", JStr "c0ffee")]
     = res_error 500 "Failed to exchange token"
  /\ Browser.property "access_token"
       (body (token Samples.env (fun _ => Reply Samples.rejected_400)
                [("code", JStr "abc"); ("code_verifier", JStr "c0ffee")]))
     = Some None.
Proof.
  assert (H : response_status Samples.rejected_400 < 200
              \/ 300 <= response_status Samples.rejected_400).
  { right. vm_compute. discriminate. }
  split; [exact H|].
  apply (C7_rejected_exchange_answers_500 Samples.env
           (fun _ => Reply Samples.rejected_400)
           [("code", JStr "abc"); ("code_verifier", JStr "c0ffee")]
           Samples.rejected_400).
  - reflexivity.
  - reflexivity.
  - reflexivity.
  - exact H.
Defined.

(** C7 as stated fails: the answer of [POST /token] does not carry the
    provider's error code. Rejections with different statuses and
    different [error] codes get the same answer, so neither the status nor
    the code can be read off it. *)
Lemma C7_provider_error_code_is_not_carried :
  token Samples.env (fun _ => Reply Samples.rejected_400)
    [("code", JStr "abc"); ("code_verifier", JStr "c0ffee")]
  = token Samples.env (fun _ => Reply Samples.rejected_401)
      [("code", JStr "abc"); ("code_verifier", JStr "c0ffee")]
  /\ ~ (exists decode : HttpResponse -> Z,
          forall r, response_status r < 200 \/ 300 <= response_status r ->
                    decode (token Samples.env (fun _ => Reply r)
                              [("code", JStr "abc"); ("code_verifier", JStr "c0ffee")])
                    = response_status r)
  /\ ~ (exists decode : HttpResponse -> option json,
          forall r, response_status r < 200 \/ 300 <= response_status r ->
                    Some (decode (token Samples.env (fun _ => Reply r)
                                    [("code", JStr "abc");
                                     ("code_verifier", JStr "c0ffee")]))
                    = Browser.property "error" (data r)).
Proof.
  split; [reflexivity|]. split.
  - intros [decode H].
    pose proof (H Samples.rejected_400 ltac:(right; vm_compute; discriminate)) as H1.
    pose proof (H Samples.rejected_401 ltac:(right; vm_compute; discriminate)) as H2.
    change (token Samples.env (fun _ => Reply Samples.rejected_401)
              [("code", JStr "abc"); ("code_verifier", JStr "c0ffee")])
      with (token Samples.env (fun _ => Reply Samples.rejected_400)
              [("code", JStr "abc"); ("code_verifier", JStr "c0ffee")]) in H2.
    rewrite H1 in H2. discriminate H2.
  - intros [decode H].
    pose proof (H Samples.rejected_400 ltac:(right; vm_compute; discriminate)) as H1.
    pose proof (H Samples.rejected_401 ltac:(right; vm_compute; discriminate)) as H2.
    change (token Samples.env (fun _ => Reply Samples.rejected_401)
              [("code", JStr "abc"); ("code_verifier", JStr "c0ffee")])
      with (token Samples.env (fun _ => Reply Samples.rejected_400)
              [("code", JStr "abc"); ("code_verifier", JStr "c0ffee")]) in H2.
    rewrite H1 in H2. discriminate H2.
Qed.

(** The header of a request that [GET /user] takes for a bearer token. *)
Lemma user_401_iff
    (sha256 : list byte -> list byte) (sign : list byte -> N * N) (publicKey : N * N)
    (twitter : string -> ProviderReply) (authHeader : option string) :
  status (user sha256 sign publicKey twitter authHeader) = 401
  <-> match authHeader with
      | Some h => String.prefix "Bearer " h = false
      | None => True
      end.
Proof.
  unfold user. destruct authHeader as [h|]; [|easy].
  destruct (String.prefix "Bearer " h); [|easy].
  split; [|discriminate].
  destruct (axios _) as [response|]; [|discriminate].
  destruct (msgHash _ _), (data_data response); discriminate.
Qed.

(** C8 as amended: [GET /user] answers 401 exactly when the request has no
    [Authorization: Bearer] header, before any call to the provider; when
    the provider answers with a status outside 2xx, 401 or 5xx alike, the
    handler answers 500 with the one body
    [{error: 'Failed to fetch or sign user data'}]. *)
Theorem C8_provider_failures_answer_500
    (sha256 : list byte -> list byte) (sign : list byte -> N * N) (publicKey : N * N)
    (twitter : string -> ProviderReply) (h : string) (r : AxiosResponse) :
  String.prefix "Bearer " h = true ->
  twitter ("Bearer " +:+ nth 1 (split_space h) "undefined") = Reply r ->
  response_status r < 200 \/ 300 <= response_status r ->
  user sha256 sign publicKey twitter (Some h)
    = res_error 500 "Failed to fetch or sign user data"
  /\ (forall authHeader,
        status (user sha256 sign publicKey twitter authHeader) = 401
        <-> match authHeader with
            | Some h' => String.prefix "Bearer " h' = false
            | None => True
            end).
Proof.
  intros Hprefix Hreply Hstatus. split; [|apply user_401_iff].
  unfold user. rewrite Hprefix, Hreply. now rewrite (axios_rejects r Hstatus).
Qed.

Lemma C8_provider_failures_answer_500_witness :
  String.prefix "Bearer " "Bearer tok" = true
  /\ (response_status Samples.rejected_401 < 200
      \/ 300 <= response_status Samples.rejected_401)
  /\ user Samples.toy_digest Samples.toy_sign Samples.toy_publicKey
          (fun _ => Reply Samples.rejected_401) (Some "Bearer tok")
     = res_error 500 "Failed to fetch or sign user data".
Proof.
  assert (H : response_status Samples.rejected_401 < 200
              \/ 300 <= response_status Samples.rejected_401).
  { right. vm_compute. discriminate. }
  split; [reflexivity|]. split; [exact H|].
  apply (C8_provider_failures_answer_500 Samples.toy_digest Samples.toy_sign
           Samples.toy_publicKey (fun _ => Reply Samples.rejected_401)
           "Bearer tok" Samples.rejected_401).
  - reflexivity.
  - reflexivity.
  - exact H.
Defined.

(** C8 as stated fails: a 401 of the provider and a 503 of the provider
    get the same answer from [GET /user]. *)
Lemma C8_unauthorized_is_not_distinguished :
  user Samples.toy_digest Samples.toy_sign Samples.toy_publicKey
       (fun _ => Reply Samples.rejected_401) (Some "Bearer tok")
  = user Samples.toy_digest Samples.toy_sign Samples.toy_publicKey
         (fun _ => Reply Samples.rejected_503) (Some "Bearer tok").
Proof. reflexivity. Qed.

(** C10 as amended: on a server that started, a request to [POST /auth]
    with a [code_challenge] that converts to a text (as every string does,
    to itself) and no [state] is answered 200 with a body whose only member
    is [url]; the query string of the URL ends in [state=] followed by the
    64 hexadecimal digits of 32 bytes that the server drew. The drawn state
    is nowhere else in the answer. A [code_challenge] whose conversion
    throws ends in the [catch] of the handler, which answers 500. *)
Theorem C10_auth_without_state_draws_one
    (env : Env) (randomBytes : nat -> list byte) (req_body : list (string * json)) :
  starts env = true ->
  truthy (assoc "code_challenge" req_body) = true ->
  truthy (assoc "state" req_body) = false ->
  List.length (randomBytes 32%nat) = 32%nat ->
  let state := hex (randomBytes 32%nat) in
  match ToString_or_throw (assoc "code_challenge" req_body) with
  | Some _ =>
      exists code_challenge : string,
        (forall c, assoc "code_challenge" req_body = Some (JStr c) -> code_challenge = c)
        /\ auth env randomBytes req_body
           = {| status := 200;
                body := JObj [("url", JStr (
                  "https://twitter.com/i/oauth2/authorize?"
                  +:+ URLSearchParams_toString [
                        ("response_type", "code");
                        ("client_id", env_str (TWITTER_CLIENT_ID env));
                        ("redirect_uri",
                           env_or (REDIRECT_URI env) "http://localhost:5174/callback");
                        ("scope", "tweet.read users.read");
                        ("code_challenge", code_challenge);
                        ("code_challenge_method", "S256") ]
                  +:+ "&state=" +:+ state))] |}
  | None => auth env randomBytes req_body = res_error 500 "Failed to generate auth URL"
  end
  /\ String.length state = 64%nat
  /\ forallb is_hex_digit (list_ascii_of_string state) = true.
Proof.
  intros Hstarts Hchallenge Hstate Hlen state.
  assert (Hid : env_set (TWITTER_CLIENT_ID env) = true).
  { unfold starts in Hstarts. now destruct (env_set (TWITTER_CLIENT_ID env)). }
  split; [|split].
  - unfold auth. rewrite Hchallenge, Hstate, Hid. cbn [negb].
    destruct (ToString_or_throw (assoc "code_challenge" req_body))
      as [code_challenge|] eqn:Ech; [|reflexivity].
    exists code_challenge. split.
    + intros c Hc. rewrite Hc in Ech. cbn in Ech. congruence.
    + match goal with
      | |- context [URLSearchParams_toString (?p :: ?ps)] =>
          change (p :: ps)
            with ((p :: removelast ps) ++ [("state", hex (randomBytes 32%nat))])
      end.
      rewrite URLSearchParams_hex_last. cbn [removelast].
      reflexivity.
  - unfold state. rewrite hex_length, Hlen. reflexivity.
  - apply hex_is_hex.
Qed.

Lemma C10_auth_without_state_draws_one_witness :
  starts Samples.env = true
  /\ truthy (assoc "code_challenge" [("code_challenge", JStr "Y2hhbGxlbmdl")]) = true
  /\ truthy (assoc "state" [("code_challenge", JStr "Y2hhbGxlbmdl")]) = false
  /\ List.length (Samples.counting_bytes 32) = 32%nat
  /\ body (auth Samples.env Samples.counting_bytes
             [("code_challenge", JStr "Y2hhbGxlbmdl")])
  = JObj [("url", JStr (
      "https://twitter.com/i/oauth2/authorize?response_type=code&client_id=client"
      +:+ "&redirect_uri=http%3A%2F%2Flocalhost%3A5174%2Fcallback"
      +:+ "&scope=tweet.read+users.read&code_challenge=Y2hhbGxlbmdl"
      +:+ "&code_challenge_method=S256"
      +:+ "&state=000102030405060708090a0b0c0d0e0f101112131415161718191a1b1c1d1e1f"))].
Proof.
  repeat (split; [reflexivity|]).
  destruct (C10_auth_without_state_draws_one Samples.env Samples.counting_bytes
              [("code_challenge", JStr "Y2hhbGxlbmdl")]) as (H & _ & _).
  - reflexivity.
  - reflexivity.
  - reflexivity.
  - reflexivity.
  - destruct H as (code_challenge & Hc & H).
    rewrite H, (Hc "Y2hhbGxlbmdl" eq_refl). reflexivity.
Defined.

(** C10 as stated fails: a request can carry a [code_challenge] and no
    [state] and still be answered with an error. The parsed object
    [{toString: 1}] is truthy and passes the check of the handler, and
    [new URLSearchParams] throws on converting it, its [toString] not being
    callable: the answer is the 500 of the [catch], without a URL. *)
Lemma C10_challenge_that_is_not_a_text :
  truthy (assoc "code_challenge" [("code_challenge", JObj [("toString", JNum 1)])]) = true
  /\ truthy (assoc "state" [("code_challenge", JObj [("toString", JNum 1)])]) = false
  /\ auth Samples.env Samples.counting_bytes
       [("code_challenge", JObj [("toString", JNum 1)])]
     = res_error 500 "Failed to generate auth URL"
  /\ Browser.property "url"
       (body (auth Samples.env Samples.counting_bytes
                [("code_challenge", JObj [("toString", JNum 1)])]))
     = Some None.
Proof. repeat split; reflexivity. Qed.

End RouteClaims.

(** ** What the specification says of the handshake in the browser *)

Module HandshakeClaims.
Import Encoding EncodingFacts Json Browser.

Lemma base64URLEncode_spec (buffer : list byte) :
  Pkce.base64URLEncode buffer = base64url_unpadded buffer.
Proof.
  unfold Pkce.base64URLEncode, btoa. rewrite binary_bytes_fromCharCode.
  apply base64url_chain.
Qed.

(** C5: the challenge that [generatePKCEChallenge] returns is the unpadded
    base64url encoding of the SHA-256 hash of the verifier it returns, and
    so is the [code_challenge] that a login posts for the verifier it has
    stored under [pkce_verifier]. *)
Theorem C5_challenge_is_base64url_of_sha256_of_verifier
    (sha256 : list byte -> list byte) (array : list byte) :
  let pkce := Pkce.generatePKCEChallenge sha256 array in
  Pkce.challenge pkce = base64url_unpadded (sha256 (encode (Pkce.verifier pkce)))
  /\ forall api uuid localStorage,
       let login := TwitterLogin.handleLogin sha256 api array uuid localStorage in
       exists verifier,
         TwitterLogin.storage login !! "pkce_verifier" = Some verifier
         /\ assoc "code_challenge" (TwitterLogin.posted login)
            = Some (JStr (base64url_unpadded (sha256 (encode verifier)))).
Proof.
  assert (H : Pkce.challenge (Pkce.generatePKCEChallenge sha256 array)
              = base64url_unpadded
                  (sha256 (encode (Pkce.verifier (Pkce.generatePKCEChallenge sha256 array))))).
  { unfold Pkce.generatePKCEChallenge. cbn [Pkce.challenge Pkce.verifier].
    unfold btoa. rewrite binary_bytes_fromCharCode. apply base64url_chain. }
  split; [exact H|].
  intros api uuid localStorage login.
  exists (Pkce.verifier (Pkce.generatePKCEChallenge sha256 array)).
  assert (Hs : TwitterLogin.storage login
               = TwitterLogin.storeAuthState
                   (Pkce.verifier (Pkce.generatePKCEChallenge sha256 array))
                   uuid localStorage).
  { unfold login, TwitterLogin.handleLogin.
    destruct (api _) as [r|]; [|reflexivity].
    destruct (ok r); [|reflexivity].
    destruct (property "url" _); reflexivity. }
  assert (Hp : TwitterLogin.posted login
               = [("code_challenge",
                     JStr (Pkce.challenge (Pkce.generatePKCEChallenge sha256 array)));
                  ("state", JStr uuid)]).
  { unfold login, TwitterLogin.handleLogin.
    destruct (api _) as [r|]; [|reflexivity].
    destruct (ok r); [|reflexivity].
    destruct (property "url" _); reflexivity. }
  split.
  - rewrite Hs. unfold TwitterLogin.storeAuthState.
    rewrite lookup_insert_ne by discriminate. apply lookup_insert_eq.
  - rewrite Hp. cbn [assoc String.eqb Ascii.eqb Bool.eqb]. now rewrite <- H.
Qed.

(** *** The callback page *)

Lemma handleCallback_failure_keeps_storage_keys
    (backend : AuthCallback.Request -> FetchResult)
    (code state : option string) (localStorage : gmap string string) (key : string) :
  key <> "twitter_token" ->
  AuthCallback.failure (AuthCallback.handleCallback backend code state localStorage)
    <> None ->
  AuthCallback.storage (AuthCallback.handleCallback backend code state localStorage)
    !! key = localStorage !! key.
Proof.
  intros Hkey. unfold AuthCallback.handleCallback, AuthCallback.failed.
  destruct code as [code_|]; [|reflexivity].
  destruct (localStorage !! "pkce_verifier") as [verifier_|] eqn:Ev; [|reflexivity].
  destruct (_ || _); [reflexivity|].
  destruct (negb (bool_decide _)); [reflexivity|].
  destruct (backend (AuthCallback.TokenExchange _ _)) as [response|]; [|reflexivity].
  destruct (negb (ok response)); [reflexivity|].
  destruct (property _ _) as [access_token|]; [|reflexivity].
  destruct (backend (AuthCallback.UserData _)) as [userResponse|];
    cbn [AuthCallback.storage AuthCallback.failure].
  - destruct (negb (ok userResponse));
      cbn [AuthCallback.storage AuthCallback.failure]; intros H.
    + now rewrite lookup_insert_ne.
    + congruence.
  - intros _. now rewrite lookup_insert_ne.
Qed.

Lemma handleCallback_success_removes
    (backend : AuthCallback.Request -> FetchResult)
    (code state : option string) (localStorage : gmap string string) :
  AuthCallback.failure (AuthCallback.handleCallback backend code state localStorage)
    = None ->
  AuthCallback.storage (AuthCallback.handleCallback backend code state localStorage)
    !! "pkce_verifier" = None
  /\ AuthCallback.storage (AuthCallback.handleCallback backend code state localStorage)
     !! "oauth_state" = None.
Proof.
  unfold AuthCallback.handleCallback, AuthCallback.failed.
  destruct code as [code_|]; [|discriminate].
  destruct (localStorage !! "pkce_verifier") as [verifier_|] eqn:Ev; [|discriminate].
  destruct (_ || _); [discriminate|].
  destruct (negb (bool_decide _)); [discriminate|].
  destruct (backend (AuthCallback.TokenExchange _ _)) as [response|]; [|discriminate].
  destruct (negb (ok response)); [discriminate|].
  destruct (property _ _) as [access_token|]; [|discriminate].
  destruct (backend (AuthCallback.UserData _)) as [userResponse|]; [|discriminate].
  destruct (negb (ok userResponse)); [discriminate|].
  intros _. cbn [AuthCallback.storage]. split.
  - rewrite lookup_delete_ne by discriminate. apply lookup_delete_eq.
  - apply lookup_delete_eq.
Qed.

(** Without a stored verifier the callback stops before any request. *)
Lemma handleCallback_without_verifier
    (backend : AuthCallback.Request -> FetchResult)
    (code state : option string) (localStorage : gmap string string) :
  localStorage !! "pkce_verifier" = None ->
  AuthCallback.handleCallback backend code state localStorage
  = AuthCallback.failed localStorage [] "Missing required parameters".
Proof.
  intros H. unfold AuthCallback.handleCallback. rewrite H.
  now destruct code.
Qed.

(** A callback that succeeds: the token and the signed data are stored and
    the session is gone. *)
Example callback_succeeds :
  let outcome :=
    AuthCallback.handleCallback Samples.working_backend (Some "abc") (Some "st4te")
      Samples.session in
  AuthCallback.failure outcome = None
  /\ AuthCallback.sent outcome
     = [AuthCallback.TokenExchange "abc" "c0ffee"; AuthCallback.UserData "Bearer tok"]
  /\ AuthCallback.storage outcome !! "twitter_token" = Some "tok"
  /\ is_Some (AuthCallback.storage outcome !! "twitter_signed_data")
  /\ AuthCallback.storage outcome !! "pkce_verifier" = None
  /\ AuthCallback.storage outcome !! "oauth_state" = None.
Proof. cbv zeta. repeat split; vm_compute; eauto. Qed.

(** The callback page in front of the routes of the backend: when the
    provider rejects the token request, [POST /token] answers 500 and the
    callback stops after that one request with the session as it was. *)
Lemma callback_when_the_provider_rejects
    (env : TwitterRoutes.Env)
    (token_endpoint : TwitterRoutes.TokenRequest -> TwitterRoutes.ProviderReply)
    (user_route : option string -> TwitterRoutes.HttpResponse)
    (code verifier state : string) (localStorage : gmap string string)
    (r : TwitterRoutes.AxiosResponse) :
  localStorage !! "pkce_verifier" = Some verifier ->
  localStorage !! "oauth_state" = Some state ->
  code <> "" -> verifier <> "" -> state <> "" ->
  token_endpoint
    (TwitterRoutes.token_request env (Some (JStr code)) (Some (JStr verifier)))
    = TwitterRoutes.Reply r ->
  TwitterRoutes.response_status r < 200 \/ 300 <= TwitterRoutes.response_status r ->
  AuthCallback.handleCallback
    (AuthCallback.served (TwitterRoutes.token env token_endpoint) user_route)
    (Some code) (Some state) localStorage
  = AuthCallback.failed localStorage [AuthCallback.TokenExchange code verifier]
      "Failed to exchange code for token".
Proof.
  intros Hv Hs Hcode Hverifier Hstate Hreply Hstatus.
  apply String.eqb_neq in Hcode, Hverifier, Hstate.
  unfold AuthCallback.handleCallback. rewrite Hv, Hs.
  cbn [missing]. rewrite Hcode, Hverifier, Hstate. cbn [orb].
  rewrite bool_decide_eq_true_2 by reflexivity. cbn [negb].
  cbn [AuthCallback.served].
  assert (E : TwitterRoutes.token env token_endpoint
                [("code", JStr code); ("code_verifier", JStr verifier)]
              = TwitterRoutes.res_error 500 "Failed to exchange token").
  { unfold TwitterRoutes.token.
    cbn [assoc String.eqb Ascii.eqb Bool.eqb truthy andb].
    rewrite Hcode, Hverifier. cbn [negb orb]. rewrite Hreply.
    now rewrite (TwitterRoutesFacts.axios_rejects r Hstatus). }
  rewrite E. reflexivity.
Qed.

(** C6 as amended: the callback removes the verifier and the state from
    [localStorage] when the token exchange and the fetch of the signed user
    data that follows have both succeeded, and a callback after that stops
    with 'Missing required parameters' before any request, whatever the
    URL and the backend. A callback that fails leaves the verifier and the
    state as they were. *)
Theorem C6_session_removed_on_success_only
    (backend : AuthCallback.Request -> FetchResult)
    (code state : option string) (localStorage : gmap string string) :
  let outcome := AuthCallback.handleCallback backend code state localStorage in
  match AuthCallback.failure outcome with
  | None =>
      AuthCallback.storage outcome !! "pkce_verifier" = None
      /\ AuthCallback.storage outcome !! "oauth_state" = None
      /\ forall backend' code' state',
           AuthCallback.handleCallback backend' code' state'
             (AuthCallback.storage outcome)
           = AuthCallback.failed (AuthCallback.storage outcome) []
               "Missing required parameters"
  | Some _ =>
      AuthCallback.storage outcome !! "pkce_verifier" = localStorage !! "pkce_verifier"
      /\ AuthCallback.storage outcome !! "oauth_state" = localStorage !! "oauth_state"
  end.
Proof.
  intros outcome.
  destruct (AuthCallback.failure outcome) as [message|] eqn:E.
  - split; apply handleCallback_failure_keeps_storage_keys;
      try discriminate; fold outcome; congruence.
  - destruct (handleCallback_success_removes backend code state localStorage E)
      as [Hv Hs].
    split; [exact Hv|]. split; [exact Hs|].
    intros backend' code' state'. now apply handleCallback_without_verifier.
Qed.

(** After the callback of the samples has succeeded the session is gone. *)
Lemma C6_session_removed_on_success_only_witness :
  AuthCallback.storage
    (AuthCallback.handleCallback Samples.working_backend (Some "abc") (Some "st4te")
       Samples.session) !! "pkce_verifier" = None
  /\ AuthCallback.storage
       (AuthCallback.handleCallback Samples.working_backend (Some "abc") (Some "st4te")
          Samples.session) !! "oauth_state" = None.
Proof.
  pose proof (C6_session_removed_on_success_only Samples.working_backend
                (Some "abc") (Some "st4te") Samples.session) as H.
  cbv zeta in H.
  change (AuthCallback.failure
            (AuthCallback.handleCallback Samples.working_backend (Some "abc")
               (Some "st4te") Samples.session))
    with (@None string) in H.
  destruct H as (Hv & Hs & _). exact (conj Hv Hs).
Defined.

(** C6 as stated fails: after a token exchange that the backend answers
    with 500, the verifier and the state are still in [localStorage], and a
    second callback sends the same exchange with the same verifier. *)
Lemma C6_failed_exchange_keeps_the_session :
  AuthCallback.handleCallback Samples.failing_backend (Some "abc") (Some "st4te")
    Samples.session
  = {| AuthCallback.storage := Samples.session;
       AuthCallback.sent := [AuthCallback.TokenExchange "abc" "c0ffee"];
       AuthCallback.failure := Some "Failed to exchange code for token" |}
  /\ Samples.session !! "pkce_verifier" = Some "c0ffee"
  /\ AuthCallback.sent
       (AuthCallback.handleCallback Samples.failing_backend (Some "abc") (Some "st4te")
          (AuthCallback.storage
             (AuthCallback.handleCallback Samples.failing_backend (Some "abc")
                (Some "st4te") Samples.session)))
     = [AuthCallback.TokenExchange "abc" "c0ffee"].
Proof. repeat split; vm_compute; reflexivity. Qed.

End HandshakeClaims.

(** ** The proof orchestration *)

Module AgeProofFacts.
Import Json AgeProof.

Lemma ToUint8_of_byte (b : byte) : ToUint8 (Z.of_N (Byte.to_N b)) = b.
Proof.
  unfold ToUint8. pose proof (Byte.to_N_bounded b) as Hb.
  rewrite Z.mod_small by lia. rewrite N2Z.id. now rewrite Byte.of_to_N.
Qed.

Lemma Uint8Array_from_Array_from (bytes : list byte) :
  Uint8Array_from (Array_from bytes) = bytes.
Proof.
  unfold Uint8Array_from, Array_from. rewrite map_map.
  induction bytes as [|b bytes IH]; [reflexivity|].
  simpl. now rewrite ToUint8_of_byte, IH.
Qed.

(** *** [parseInt] on examples *)

Example parseInt_examples :
  parseInt "25" = Some 25 /\ parseInt "300" = Some 300 /\ parseInt "-5" = Some (-5)
  /\ parseInt " 42px" = Some 42 /\ parseInt "1e3" = Some 1
  /\ parseInt "0x1F" = Some 31 /\ parseInt "" = None /\ parseInt "abc" = None.
Proof. repeat split; reflexivity. Qed.

(** *** [parseInt] on the numeral of an integer *)

Lemma digits_cons (c : ascii) (k acc : Z) (s : string) :
  digit 10 c = Some k ->
  digits 10 (Some acc) (String c s) = digits 10 (Some (acc * 10 + k)) s.
Proof. intros H. cbn [digits]. now rewrite H. Qed.

Lemma digits_first (c : ascii) (k : Z) (s : string) :
  digit 10 c = Some k ->
  digits 10 None (String c s) = digits 10 (Some k) s.
Proof. intros H. cbn [digits]. now rewrite H. Qed.

Lemma digits_of_uint_acc (d : Decimal.uint) :
  forall a : positive,
    digits 10 (Some (Zpos a)) (DecimalString.NilEmpty.string_of_uint d)
    = Some (Zpos (Pos.of_uint_acc d a)).
Proof.
  induction d as [|d IH|d IH|d IH|d IH|d IH|d IH|d IH|d IH|d IH|d IH]; intros a;
    cbn [DecimalString.NilEmpty.string_of_uint Pos.of_uint_acc];
    [reflexivity|..];
    (erewrite digits_cons by (vm_compute; reflexivity); rewrite <- IH; do 2 f_equal; lia).
Qed.

Lemma digits_of_uint_zero (d : Decimal.uint) :
  digits 10 (Some 0) (DecimalString.NilEmpty.string_of_uint d)
  = Some (Z.of_N (Pos.of_uint d)).
Proof.
  induction d as [|d IH|d IH|d IH|d IH|d IH|d IH|d IH|d IH|d IH|d IH];
    cbn [DecimalString.NilEmpty.string_of_uint Pos.of_uint];
    [reflexivity|..];
    erewrite digits_cons by (vm_compute; reflexivity);
    [exact IH|..]; apply digits_of_uint_acc.
Qed.

Lemma digits_of_uint (d : Decimal.uint) :
  d <> Decimal.Nil ->
  digits 10 None (DecimalString.NilEmpty.string_of_uint d)
  = Some (Z.of_N (Pos.of_uint d)).
Proof.
  destruct d; intros Hd; [congruence|..];
    cbn [DecimalString.NilEmpty.string_of_uint Pos.of_uint];
    erewrite digits_first by (vm_compute; reflexivity);
    [apply digits_of_uint_zero|..]; apply digits_of_uint_acc.
Qed.

Lemma Number_of_safe (z : Z) : Z.abs z <= 2 ^ 53 -> Number_of z = z.
Proof.
  intros H. unfold Number_of. cbv zeta.
  destruct (Z.leb_spec (Z.abs z) (2 ^ 53)); [reflexivity|lia].
Qed.

(** Beyond [2^53] the value is rounded, a tie to the even significand. *)
Example parseInt_rounds :
  parseInt "9007199254740992" = Some 9007199254740992
  /\ parseInt "9007199254740993" = Some 9007199254740992
  /\ parseInt "9007199254740994" = Some 9007199254740994
  /\ parseInt "9007199254740995" = Some 9007199254740996
  /\ parseInt "-9007199254740993" = Some (-9007199254740992)
  /\ parseInt "18446744073709551615" = Some 18446744073709551616.
Proof. repeat split; vm_compute; reflexivity. Qed.

Lemma parseInt_of_uint (d : Decimal.uint) :
  d <> Decimal.Nil ->
  parseInt (DecimalString.NilEmpty.string_of_uint d)
  = Some (Number_of (Z.of_N (Pos.of_uint d)))
  /\ parseInt (String "-" (DecimalString.NilEmpty.string_of_uint d))
     = Some (Number_of (- Z.of_N (Pos.of_uint d))).
Proof.
  intros Hd.
  assert (H : parseInt (DecimalString.NilEmpty.string_of_uint d)
              = match digits 10 None (DecimalString.NilEmpty.string_of_uint d) with
                | Some v => Some (Number_of (1 * v))
                | None => None
                end
              /\ parseInt (String "-" (DecimalString.NilEmpty.string_of_uint d))
                 = match digits 10 None (DecimalString.NilEmpty.string_of_uint d) with
                   | Some v => Some (Number_of (-1 * v))
                   | None => None
                   end).
  { destruct d as [|d|d|d|d|d|d|d|d|d|d]; [congruence|..];
      destruct d; split; reflexivity. }
  destruct H as [H1 H2]. rewrite H1, H2, (digits_of_uint d Hd).
  split; do 2 f_equal; lia.
Qed.

(** Every integer that a Number holds exactly, in decimal, is an input that
    [parseInt] reads back. *)
Lemma parseInt_Number_toString (n : Z) :
  Z.abs n <= 2 ^ 53 -> parseInt (Number_toString n) = Some n.
Proof.
  intros Hn. rewrite <- (Number_of_safe n Hn) at 2. clear Hn.
  unfold Number_toString. destruct n as [|p|p]; [reflexivity|..];
    cbn [Z.to_int DecimalString.NilZero.string_of_int];
    pose proof (DecimalPos.Unsigned.of_to p) as Hp;
    assert (Hd : Pos.to_uint p <> Decimal.Nil)
      by (intros E; rewrite E in Hp; discriminate Hp);
    destruct (parseInt_of_uint (Pos.to_uint p) Hd) as [H1 H2];
    replace (DecimalString.NilZero.string_of_uint (Pos.to_uint p))
      with (DecimalString.NilEmpty.string_of_uint (Pos.to_uint p))
      by (now destruct (Pos.to_uint p));
    [rewrite H1|rewrite H2]; rewrite Hp; reflexivity.
Qed.

Section Toolchain.
Variable getCircuit : bool.
Variable execute : Z -> option (list byte).
Variable generateProof : list byte -> option ProofData.
Variable verifyProof : ProofData -> option bool.

#[local] Abbreviation continue :=
  (AgeProof.continue getCircuit execute generateProof verifyProof).
#[local] Abbreviation step :=
  (AgeProof.step getCircuit execute generateProof verifyProof).
#[local] Abbreviation play :=
  (AgeProof.play getCircuit execute generateProof verifyProof).
#[local] Abbreviation only_verified := (AgeProof.only_verified verifyProof).

Lemma only_verified_showResult stored m flag pg :
  (forall d, m <> Success d) ->
  only_verified stored pg -> only_verified stored (showResult m flag pg).
Proof.
  intros Hm [Hs Hm']. split; [exact Hs|].
  intros d flag' [[= <- <-]|Hin]%elem_of_cons.
  - now destruct (Hm d).
  - eauto.
Qed.

Lemma only_verified_same stored pg pg' :
  localStorage pg' = localStorage pg -> shown pg' = shown pg ->
  only_verified stored pg -> only_verified stored pg'.
Proof. unfold AgeProof.only_verified. intros -> ->. trivial. Qed.

Lemma only_verified_initializeNoir stored pg :
  only_verified stored pg -> only_verified stored (initializeNoir getCircuit pg).
Proof.
  intros H. unfold initializeNoir. destruct getCircuit.
  - now apply (only_verified_same stored pg).
  - now apply only_verified_showResult.
Qed.

Lemma only_verified_start_proof stored age pg :
  only_verified stored pg -> only_verified stored (fst (start_proof age pg)).
Proof.
  intros H. unfold start_proof.
  destruct (initialized (showResult Generating true pg)); cbn [fst];
    repeat apply only_verified_showResult; try discriminate; exact H.
Qed.

Lemma only_verified_click stored input pg :
  only_verified stored pg -> only_verified stored (click input pg).
Proof.
  intros H. unfold click. destruct (parseInt input) as [age|].
  - destruct (negb (initialized pg)).
    + now apply (only_verified_same stored pg).
    + pose proof (only_verified_start_proof stored age pg H) as H'.
      destruct (start_proof age pg) as [pg' r].
      now apply (only_verified_same stored pg').
  - now apply only_verified_showResult.
Qed.

Lemma only_verified_continue stored now r pg :
  only_verified stored pg -> only_verified stored (fst (continue now r pg)).
Proof.
  intros H. destruct r as [ |age|age|witness|p| ]; cbn [AgeProof.continue fst].
  - now apply only_verified_initializeNoir.
  - now apply only_verified_start_proof, only_verified_initializeNoir.
  - destruct (execute age); cbn [fst]; [exact H|].
    now apply only_verified_showResult.
  - destruct (generateProof witness); cbn [fst]; [exact H|].
    now apply only_verified_showResult.
  - destruct (verifyProof p) as [[|]|] eqn:Ev; cbn [fst];
      try (now apply only_verified_showResult).
    destruct H as [Hs Hm]. split.
    + intros text. cbn [showResult setItem localStorage].
      rewrite lookup_insert_eq. intros [= <-]. right. eauto.
    + intros d flag [[= -> ->]|Hin]%elem_of_cons; [eauto|].
      apply (Hm d flag Hin).
  - exact H.
Qed.

Lemma only_verified_step stored e pg :
  only_verified stored pg -> only_verified stored (step e pg).
Proof.
  intros H. destruct e as [input|i now]; cbn [AgeProof.step].
  - now apply only_verified_click.
  - destruct (runs pg !! i) as [r|]; [|exact H].
    pose proof (only_verified_continue stored now r pg H) as H'.
    destruct (continue now r pg) as [pg' r'].
    now apply (only_verified_same stored pg').
Qed.

Lemma only_verified_play stored events :
  forall pg, only_verified stored pg -> only_verified stored (play events pg).
Proof.
  induction events as [|e events IH]; intros pg H; [exact H|].
  apply IH. now apply only_verified_step.
Qed.

Lemma only_verified_loaded stored : only_verified stored (loaded stored).
Proof.
  split.
  - intros text H. now left.
  - intros d flag H. now apply elem_of_nil in H.
Qed.

(** A refused or failed verification changes nothing in [localStorage] and
    shows a failure. *)
Lemma refused_proof_is_dropped pg i now p :
  runs pg !! i = Some (AwaitVerify p) ->
  verifyProof p <> Some true ->
  localStorage (step (Settle i now) pg) = localStorage pg
  /\ exists m, (forall d, m <> Success d)
       /\ shown (step (Settle i now) pg) = (m, false) :: shown pg.
Proof.
  intros Hrun Hv. cbn [AgeProof.step]. rewrite Hrun. cbn [AgeProof.continue].
  destruct (verifyProof p) as [[|]|]; [congruence| |].
  - split; [reflexivity|]. exists VerificationFailed. split; [discriminate|reflexivity].
  - split; [reflexivity|]. exists ErrorOccurred. split; [discriminate|reflexivity].
Qed.

(** An accepted proof is written under [ageProof], over what was there. *)
Lemma accepted_proof_is_stored pg i now p :
  runs pg !! i = Some (AwaitVerify p) ->
  verifyProof p = Some true ->
  localStorage (step (Settle i now) pg) !! "ageProof"
  = Some (JSON_stringify (to_json (serializeProof now p)) None).
Proof.
  intros Hrun Hv. cbn [AgeProof.step]. rewrite Hrun. cbn [AgeProof.continue].
  rewrite Hv. cbn [set_run showResult setItem localStorage].
  apply lookup_insert_eq.
Qed.

(** The scenario of the specification: on the circuit that asserts
    [age >= 18], the age 25 ends in a stored proof and the age 10 in an
    error with nothing stored. *)
Example submit_25_and_10 :
  let run input :=
    submit true Samples.toy_execute Samples.toy_generateProof
      Samples.toy_verifyProof input 5 (loaded ∅) in
  shown (run "25")
  = [(Success {| s_proof := [25]; s_publicInputs := Some []; s_timestamp := 5 |},
      true); (Generating, true)]
  /\ is_Some (localStorage (run "25") !! "ageProof")
  /\ shown (run "10") = [(ErrorOccurred, false); (Generating, true)]
  /\ localStorage (run "10") !! "ageProof" = None.
Proof. cbv zeta. repeat split; vm_compute; eauto. Qed.

(** A proof that the backend refuses at self-verification. *)
Example submit_refused :
  let pg :=
    submit true Samples.toy_execute Samples.toy_generateProof
      Samples.refusing_verifyProof "25" 5 (loaded ∅) in
  shown pg = [(VerificationFailed, false); (Generating, true)]
  /\ localStorage pg !! "ageProof" = None.
Proof. cbv zeta. split; vm_compute; reflexivity. Qed.

Lemma pending_spawn r pg :
  pending (spawn r pg) = pending pg ++ (if in_flight r then [r] else []).
Proof.
  unfold pending, spawn. cbn [runs]. rewrite filter_app. f_equal.
  rewrite filter_cons, filter_nil. destruct (in_flight r); [|reflexivity].
  now case_decide.
Qed.

Lemma pending_showResult m flag pg : pending (showResult m flag pg) = pending pg.
Proof. reflexivity. Qed.

(** A click with a numeric age starts a run, whatever is in flight. *)
Lemma click_starts_a_run input age pg :
  parseInt input = Some age ->
  click input pg
  = if initialized pg
    then spawn (AwaitExecute age) (showResult Generating true pg)
    else spawn (AwaitInit age) pg.
Proof.
  intros Hage. unfold click. rewrite Hage.
  destruct (initialized pg) eqn:Hi; cbn [negb]; [|reflexivity].
  unfold start_proof. cbn [showResult initialized]. now rewrite Hi.
Qed.

End Toolchain.

End AgeProofFacts.

(** ** What the specification says of the proof orchestration *)

Module ProofClaims.
Import Json AgeProof AgeProofFacts.

(** C2: the handler at the input 300. The age 300 is outside 0..255;
    [parseInt] reads it, [isNaN] lets it through, and with nothing else
    between the two the handler shows 'Generating proof...' and calls
    [noir.execute] with the age 300: after the page has initialized and the
    button has been clicked, the run is suspended at the executor and no
    refusal has been shown. Only an input that [parseInt] reads as [NaN] is
    refused before the executor. *)
Lemma C2_age_300_reaches_the_executor :
  parseInt "300" = Some 300
  /\ runs (play true Samples.toy_execute Samples.toy_generateProof
             Samples.toy_verifyProof [Settle 0 0; Click "300"] (loaded ∅))
     = [Returned; AwaitExecute 300]
  /\ shown (play true Samples.toy_execute Samples.toy_generateProof
              Samples.toy_verifyProof [Settle 0 0; Click "300"] (loaded ∅))
     = [(Generating, true)]
  /\ shown (play true Samples.toy_execute Samples.toy_generateProof
              Samples.toy_verifyProof [Settle 0 0; Click "abc"] (loaded ∅))
     = [(InvalidAge, false)].
Proof. repeat split; vm_compute; reflexivity. Qed.

(** C3: a run that has its proof from the prover goes on to
    [verifyProof] with it and shows or stores nothing before. Whatever
    happens on the page after it loaded, the text under [ageProof] is the
    one an earlier visit left or the serialization of a proof that
    [verifyProof] accepted, and every success message shows the
    serialization of a proof that [verifyProof] accepted; when
    [verifyProof] does not return [true] for the proof of a run, the run
    leaves [localStorage] as it was and shows a failure. *)
Theorem C3_only_verified_proofs_are_stored_and_shown
    (getCircuit : bool) (execute : Z -> option (list byte))
    (generateProof : list byte -> option ProofData)
    (verifyProof : ProofData -> option bool)
    (stored : gmap string string) (events : list Event) :
  let pg := play getCircuit execute generateProof verifyProof events (loaded stored) in
  (forall now witness p pg',
     generateProof witness = Some p ->
     continue getCircuit execute generateProof verifyProof now (AwaitProve witness) pg'
     = (pg', AwaitVerify p))
  /\ only_verified verifyProof stored pg
  /\ forall i now p,
       runs pg !! i = Some (AwaitVerify p) ->
       verifyProof p <> Some true ->
       localStorage (step getCircuit execute generateProof verifyProof (Settle i now) pg)
       = localStorage pg
       /\ exists m, (forall d, m <> Success d)
            /\ shown (step getCircuit execute generateProof verifyProof (Settle i now) pg)
               = (m, false) :: shown pg.
Proof.
  intros pg. split; [|split].
  - intros now witness p pg' Hp. cbn [continue]. now rewrite Hp.
  - apply only_verified_play, only_verified_loaded.
  - intros i now p. apply refused_proof_is_dropped.
Qed.

(** A run whose proof the backend refuses. *)
Lemma C3_only_verified_proofs_are_stored_and_shown_witness :
  runs (play true Samples.toy_execute Samples.toy_generateProof
          Samples.refusing_verifyProof
          [Settle 0 0; Click "25"; Settle 1 0; Settle 1 0] (loaded ∅)) !! 1%nat
  = Some (AwaitVerify {| proof := [x19]; publicInputs := Some [] |})
  /\ localStorage
       (step true Samples.toy_execute Samples.toy_generateProof
          Samples.refusing_verifyProof (Settle 1 9)
          (play true Samples.toy_execute Samples.toy_generateProof
             Samples.refusing_verifyProof
             [Settle 0 0; Click "25"; Settle 1 0; Settle 1 0] (loaded ∅)))
     = localStorage
         (play true Samples.toy_execute Samples.toy_generateProof
            Samples.refusing_verifyProof
            [Settle 0 0; Click "25"; Settle 1 0; Settle 1 0] (loaded ∅)).
Proof.
  assert (Hrun :
    runs (play true Samples.toy_execute Samples.toy_generateProof
            Samples.refusing_verifyProof
            [Settle 0 0; Click "25"; Settle 1 0; Settle 1 0] (loaded ∅)) !! 1%nat
    = Some (AwaitVerify {| proof := [x19]; publicInputs := Some [] |}))
    by (vm_compute; reflexivity).
  split; [exact Hrun|].
  destruct (C3_only_verified_proofs_are_stored_and_shown true Samples.toy_execute
              Samples.toy_generateProof Samples.refusing_verifyProof ∅
              [Settle 0 0; Click "25"; Settle 1 0; Settle 1 0]) as (_ & _ & H).
  destruct (H 1%nat 9 {| proof := [x19]; publicInputs := Some [] |} Hrun)
    as [Hs _]; [discriminate|].
  exact Hs.
Defined.

(** C4: the proof bytes and the public inputs of a proof come back
    unchanged from [deserializeProof] applied to what [serializeProof]
    made of them. *)
Theorem C4_deserialize_serialize
    (now : Z) (bytes : list byte) (inputs : list string) :
  deserializeProof
    (serializeProof now {| proof := bytes; publicInputs := Some inputs |})
  = {| proof := bytes; publicInputs := Some inputs |}.
Proof.
  unfold deserializeProof, serializeProof. cbn [s_proof s_publicInputs proof publicInputs].
  now rewrite Uint8Array_from_Array_from.
Qed.

(** C9 as amended: the click handler has no guard on runs in flight. A
    click with a numeric age starts one more run whatever is pending, and
    a run whose proof is accepted writes its serialization under
    [ageProof] over what is there. *)
Theorem C9_every_click_starts_a_run
    (getCircuit : bool) (execute : Z -> option (list byte))
    (generateProof : list byte -> option ProofData)
    (verifyProof : ProofData -> option bool)
    (input : string) (age : Z) (pg : Page) :
  parseInt input = Some age ->
  pending (click input pg)
  = pending pg ++ [if initialized pg then AwaitExecute age else AwaitInit age]
  /\ forall pg' i now p,
       runs pg' !! i = Some (AwaitVerify p) ->
       verifyProof p = Some true ->
       localStorage
         (step getCircuit execute generateProof verifyProof (Settle i now) pg')
         !! "ageProof"
       = Some (JSON_stringify (to_json (serializeProof now p)) None).
Proof.
  intros Hage. split.
  - rewrite (click_starts_a_run input age pg Hage).
    destruct (initialized pg); now rewrite pending_spawn.
  - intros pg' i now p. apply accepted_proof_is_stored.
Qed.

Lemma C9_every_click_starts_a_run_witness :
  parseInt "30" = Some 30
  /\ pending (click "30" (click "25" (set_initialized (loaded ∅))))
     = [AwaitExecute 25; AwaitExecute 30].
Proof.
  split; [reflexivity|].
  destruct (C9_every_click_starts_a_run true Samples.toy_execute
              Samples.toy_generateProof Samples.toy_verifyProof
              "30" 30 (click "25" (set_initialized (loaded ∅))))
    as [H _]; [reflexivity|].
  rewrite H. reflexivity.
Defined.

(** C9 as stated fails: after two clicks two runs are suspended at
    [noir.execute], the second one was not refused, and when both have
    run to their end the proof of the second has replaced that of the
    first under [ageProof]. *)
Lemma C9_two_runs_in_flight :
  pending (play true Samples.toy_execute Samples.toy_generateProof
             Samples.toy_verifyProof
             [Settle 0 0; Click "25"; Click "30"] (loaded ∅))
  = [AwaitExecute 25; AwaitExecute 30]
  /\ shown (play true Samples.toy_execute Samples.toy_generateProof
              Samples.toy_verifyProof
              [Settle 0 0; Click "25"; Click "30"] (loaded ∅))
     = [(Generating, true); (Generating, true)]
  /\ localStorage
       (play true Samples.toy_execute Samples.toy_generateProof
          Samples.toy_verifyProof
          [Settle 0 0; Click "25"; Click "30";
           Settle 1 100; Settle 1 100; Settle 1 100] (loaded ∅)) !! "ageProof"
     = Some (JSON_stringify
               (to_json {| s_proof := [25]; s_publicInputs := Some [];
                           s_timestamp := 100 |}) None)
  /\ localStorage
       (play true Samples.toy_execute Samples.toy_generateProof
          Samples.toy_verifyProof
          [Settle 0 0; Click "25"; Click "30";
           Settle 1 100; Settle 1 100; Settle 1 100;
           Settle 2 200; Settle 2 200; Settle 2 200] (loaded ∅)) !! "ageProof"
     = Some (JSON_stringify
               (to_json {| s_proof := [30]; s_publicInputs := Some [];
                           s_timestamp := 200 |}) None).
Proof. repeat split; vm_compute; reflexivity. Qed.

End ProofClaims.


(** ** The texts of the PKCE pair *)

Module PkceFacts.
Import Encoding PkceText EncodingFacts.

Lemma all_bytes_complete (b : byte) : In b all_bytes.
Proof.
  unfold all_bytes. apply in_map_iff. exists (Byte.to_N b). split.
  - unfold byte_of_N. now rewrite Byte.of_to_N.
  - apply in_map_iff. exists (N.to_nat (Byte.to_N b)). split; [lia|].
    apply in_seq. pose proof (Byte.to_N_bounded b). lia.
Qed.

Lemma forall_byte (P : byte -> bool) :
  forallb P all_bytes = true -> forall b, P b = true.
Proof.
  intros H b. rewrite forallb_forall in H. apply H, all_bytes_complete.
Qed.

Lemma forall2_byte (P : byte -> byte -> bool) :
  forallb (fun a => forallb (P a) all_bytes) all_bytes = true ->
  forall a b, P a b = true.
Proof.
  intros H a b. apply (forall_byte (P a)). apply (forall_byte _ H a).
Qed.

Lemma forall_ascii (P : ascii -> bool) :
  forallb (fun b => P (ascii_of_byte b)) all_bytes = true -> forall c, P c = true.
Proof.
  intros H c. rewrite <- (ascii_of_byte_of_ascii c).
  apply (forall_byte _ H).
Qed.

Lemma sextet_value_sextet (i : N) :
  sextet_value (sextet b64url_alphabet i) = N.land i 63.
Proof.
  unfold sextet. pose proof (land63_lt i) as H.
  rewrite <- (N2Nat.id (N.land i 63)) at 2.
  destruct (N.to_nat (N.land i 63)) as [|n]; [reflexivity|].
  do 63 (destruct n as [|n]; [reflexivity|]). lia.
Qed.

Lemma sextet_is_base64url (i : N) : is_base64url (sextet b64url_alphabet i) = true.
Proof.
  unfold sextet. pose proof (land63_lt i) as H.
  destruct (N.to_nat (N.land i 63)) as [|n]; [reflexivity|].
  do 63 (destruct n as [|n]; [reflexivity|]). lia.
Qed.

(** The first byte of a group, from its first two characters. *)
Lemma group_byte1 (a b : byte) :
  byte_of_N (N.lor (N.shiftl (N.land (s1 a) 63) 2) (N.shiftr (N.land (s2 a b) 63) 4)) = a.
Proof.
  apply Byte.byte_dec_bl.
  apply (forall2_byte (fun a b => Byte.eqb
    (byte_of_N (N.lor (N.shiftl (N.land (s1 a) 63) 2)
                      (N.shiftr (N.land (s2 a b) 63) 4))) a)).
  vm_compute. reflexivity.
Qed.

Lemma group_byte2 (a b c : byte) :
  byte_of_N (N.lor (N.shiftl (N.land (N.land (s2 a b) 63) 15) 4)
                   (N.shiftr (N.land (s3 b c) 63) 2)) = b.
Proof.
  assert (H1 : N.land (N.land (s2 a b) 63) 15 = N.shiftr (Byte.to_N b) 4).
  { apply N.eqb_eq.
    apply (forall2_byte (fun a b =>
      N.eqb (N.land (N.land (s2 a b) 63) 15) (N.shiftr (Byte.to_N b) 4))).
    vm_compute. reflexivity. }
  assert (H2 : N.shiftr (N.land (s3 b c) 63) 2 = N.land (Byte.to_N b) 15).
  { apply N.eqb_eq.
    apply (forall2_byte (fun b c =>
      N.eqb (N.shiftr (N.land (s3 b c) 63) 2) (N.land (Byte.to_N b) 15))).
    vm_compute. reflexivity. }
  rewrite H1, H2. apply Byte.byte_dec_bl.
  apply (forall_byte (fun b => Byte.eqb
    (byte_of_N (N.lor (N.shiftl (N.shiftr (Byte.to_N b) 4) 4)
                      (N.land (Byte.to_N b) 15))) b)).
  vm_compute. reflexivity.
Qed.

Lemma group_byte3 (b c : byte) :
  byte_of_N (N.lor (N.shiftl (N.land (N.land (s3 b c) 63) 3) 6)
                   (N.land (s4 c) 63)) = c.
Proof.
  apply Byte.byte_dec_bl.
  apply (forall2_byte (fun b c => Byte.eqb
    (byte_of_N (N.lor (N.shiftl (N.land (N.land (s3 b c) 63) 3) 6)
                      (N.land (s4 c) 63))) c)).
  vm_compute. reflexivity.
Qed.

Lemma base64url_bytes_group (c1 c2 c3 c4 : ascii) (s : string) :
  base64url_bytes (String c1 (String c2 (String c3 (String c4 s))))
  = byte_of_N (N.lor (N.shiftl (sextet_value c1) 2) (N.shiftr (sextet_value c2) 4))
    :: byte_of_N (N.lor (N.shiftl (N.land (sextet_value c2) 15) 4)
                        (N.shiftr (sextet_value c3) 2))
    :: byte_of_N (N.lor (N.shiftl (N.land (sextet_value c3) 3) 6) (sextet_value c4))
    :: base64url_bytes s.
Proof. reflexivity. Qed.

(** Reading an unpadded URL-safe encoding back gives the bytes. *)
Lemma base64url_bytes_unpadded (bs : list byte) :
  base64url_bytes (base64url_unpadded bs) = bs.
Proof.
  induction bs as [|a|a b|a b c r IH] using list_ind3.
  - reflexivity.
  - cbn [base64url_unpadded base64url_bytes]. rewrite !sextet_value_sextet.
    now rewrite group_byte1.
  - cbn [base64url_unpadded base64url_bytes]. rewrite !sextet_value_sextet.
    now rewrite group_byte1, group_byte2.
  - cbn [base64url_unpadded]. rewrite base64url_bytes_group, !sextet_value_sextet.
    now rewrite group_byte1, group_byte2, group_byte3, IH.
Qed.

Lemma base64url_unpadded_length (bs : list byte) :
  String.length (base64url_unpadded bs) = ((4 * List.length bs + 2) / 3)%nat.
Proof.
  induction bs as [|a|a b|a b c r IH] using list_ind3; try reflexivity.
  cbn [base64url_unpadded String.length List.length]. rewrite IH.
  replace (4 * S (S (S (List.length r))) + 2)%nat
    with (4 * List.length r + 2 + 4 * 3)%nat by lia.
  rewrite Nat.div_add by discriminate. lia.
Qed.

Lemma base64url_unpadded_alphabet (bs : list byte) :
  all_chars is_base64url (base64url_unpadded bs) = true.
Proof.
  unfold all_chars.
  induction bs as [|a|a b|a b c r IH] using list_ind3;
    cbn [base64url_unpadded list_ascii_of_string forallb];
    rewrite ?sextet_is_base64url; auto.
Qed.

Lemma urlencode_safe_char (c : ascii) :
  is_urlencode_safe c = true ->
  String.concat "" (map (fun b => TwitterRoutes.urlencode_byte (Byte.to_N b)) (utf8 c))
  = String c "".
Proof.
  intros H.
  apply String.eqb_eq.
  revert H. apply (implb_true_iff).
  revert c. apply forall_ascii. vm_compute. reflexivity.
Qed.

(** The serializer of [URLSearchParams] leaves a text of letters, digits,
    [*], [-], [.] and [_] as it is. *)
Lemma urlencode_safe (s : string) :
  all_chars is_urlencode_safe s = true -> TwitterRoutes.urlencode s = s.
Proof.
  unfold all_chars. induction s as [|c s IH]; [reflexivity|].
  cbn [list_ascii_of_string forallb TwitterRoutes.urlencode].
  intros [Hc Hs]%andb_prop. rewrite urlencode_safe_char by exact Hc.
  now rewrite IH.
Qed.

Lemma all_chars_impl (p q : ascii -> bool) (s : string) :
  (forall c, implb (p c) (q c) = true) ->
  all_chars p s = true -> all_chars q s = true.
Proof.
  intros Hpq. unfold all_chars. induction s as [|c s IH]; [reflexivity|].
  cbn [list_ascii_of_string forallb]. intros [Hc Hs]%andb_prop.
  specialize (Hpq c). rewrite Hc in Hpq. cbn in Hpq. rewrite Hpq. now apply IH.
Qed.

Lemma base64url_is_urlencode_safe (c : ascii) :
  implb (is_base64url c) (is_urlencode_safe c) = true.
Proof. revert c. apply forall_ascii. vm_compute. reflexivity. Qed.

Lemma base64url_is_unreserved (c : ascii) :
  implb (is_base64url c) (is_unreserved c) = true.
Proof. revert c. apply forall_ascii. vm_compute. reflexivity. Qed.

Lemma hex_is_unreserved (c : ascii) :
  implb (is_hex_digit c) (is_unreserved c) = true.
Proof. revert c. apply forall_ascii. vm_compute. reflexivity. Qed.

Lemma hex_bytes_hex (bs : list byte) : hex_bytes (hex bs) = bs.
Proof.
  induction bs as [|b bs IH]; [reflexivity|].
  rewrite TwitterRoutesFacts.hex_cons. cbn [hex_bytes]. rewrite IH. f_equal.
  apply Byte.byte_dec_bl. revert b.
  apply (forall_byte (fun b => Byte.eqb
    (byte_of_N (16 * hex_value (hex_digit (N.shiftr (Byte.to_N b) 4))
                + hex_value (hex_digit (N.land (Byte.to_N b) 15)))) b)).
  vm_compute. reflexivity.
Qed.

(** X1: the text [base64URLEncode] returns for [n] bytes has
    [(4 n + 2) / 3] characters, rounded down, so 43 for a SHA-256 hash; each
    is a letter, a digit, [-] or [_], so that the text has no [+], [/] or [=]
    and [URLSearchParams] writes it into a query string unchanged. *)
Theorem base64URLEncode_text (buffer : list byte) :
  String.length (Pkce.base64URLEncode buffer) = ((4 * List.length buffer + 2) / 3)%nat
  /\ all_chars is_base64url (Pkce.base64URLEncode buffer) = true
  /\ TwitterRoutes.urlencode (Pkce.base64URLEncode buffer) = Pkce.base64URLEncode buffer.
Proof.
  rewrite HandshakeClaims.base64URLEncode_spec. repeat split.
  - apply base64url_unpadded_length.
  - apply base64url_unpadded_alphabet.
  - apply urlencode_safe.
    apply (all_chars_impl _ _ _ base64url_is_urlencode_safe).
    apply base64url_unpadded_alphabet.
Qed.

(** X2: [base64URLEncode] loses nothing: two buffers with the same text are
    the same buffer, so a challenge determines the hash it encodes. *)
Theorem base64URLEncode_injective (buffer buffer' : list byte) :
  Pkce.base64URLEncode buffer = Pkce.base64URLEncode buffer' -> buffer = buffer'.
Proof.
  rewrite !HandshakeClaims.base64URLEncode_spec. intros H.
  rewrite <- (base64url_bytes_unpadded buffer), <- (base64url_bytes_unpadded buffer').
  now rewrite H.
Qed.

Lemma base64URLEncode_injective_witness :
  Pkce.base64URLEncode [x01; xfe; x80] = Pkce.base64URLEncode [x01; xfe; x80]
  /\ [x01; xfe; x80] = [x01; xfe; x80].
Proof.
  split; [reflexivity|].
  apply (base64URLEncode_injective [x01; xfe; x80] [x01; xfe; x80]). reflexivity.
Defined.

(** X3: the verifier [generatePKCEChallenge] returns for [n] random bytes
    has [2 n] characters, all lower-case hexadecimal digits and so
    unreserved characters that need no escaping in a form body; the random
    bytes can be read back from it, so two draws give the same verifier only
    when they are the same bytes. *)
Theorem generatePKCEChallenge_verifier (sha256 : list byte -> list byte)
    (array : list byte) :
  let v := Pkce.verifier (Pkce.generatePKCEChallenge sha256 array) in
  String.length v = (2 * List.length array)%nat
  /\ all_chars is_hex_digit v = true
  /\ all_chars is_unreserved v = true
  /\ TwitterRoutes.urlencode v = v
  /\ forall array',
       Pkce.verifier (Pkce.generatePKCEChallenge sha256 array') = v -> array' = array.
Proof.
  cbn [Pkce.generatePKCEChallenge Pkce.verifier]. repeat split.
  - apply TwitterRoutesFacts.hex_length.
  - apply TwitterRoutesFacts.hex_is_hex.
  - apply (all_chars_impl _ _ _ hex_is_unreserved), TwitterRoutesFacts.hex_is_hex.
  - apply TwitterRoutesFacts.urlencode_hex.
  - intros array' H. rewrite <- (hex_bytes_hex array), <- (hex_bytes_hex array').
    now rewrite H.
Qed.

Lemma possible_index (x : byte) :
  is_unreserved
    match String.get (N.to_nat (Byte.to_N x) mod String.length possible) possible with
    | Some c => c
    | None => "A"%char
    end = true.
Proof. revert x. apply forall_byte. vm_compute. reflexivity. Qed.

(** X4: [generateRandomString] returns one character for each random byte,
    each an unreserved character; the draw is not uniform, as 256 is not a
    multiple of the 66 characters: four byte values give [A], three give
    [~]. *)
Theorem generateRandomString_text (values : list byte) :
  String.length (generateRandomString values) = List.length values
  /\ all_chars is_unreserved (generateRandomString values) = true
  /\ List.length (List.filter (fun x => String.eqb (generateRandomString [x]) "A") all_bytes)
     = 4%nat
  /\ List.length (List.filter (fun x => String.eqb (generateRandomString [x]) "~") all_bytes)
     = 3%nat.
Proof.
  repeat split.
  - unfold generateRandomString.
    induction values as [|x values IH]; [reflexivity|].
    cbn [map string_of_list_ascii String.length]. now rewrite IH.
  - unfold generateRandomString, all_chars.
    induction values as [|x values IH]; [reflexivity|].
    cbn [map string_of_list_ascii list_ascii_of_string forallb].
    now rewrite possible_index, IH.
Qed.

End PkceFacts.

(** ** More of the routes of [server/routes/twitter.ts] *)

Module RouteFacts.
Import Encoding Json JsonFacts TwitterRoutes TwitterRoutesFacts PkceText PkceFacts.

Lemma URLSearchParams_toString_app (p q : string * string)
    (params params' : list (string * string)) :
  URLSearchParams_toString ((p :: params) ++ q :: params')
  = URLSearchParams_toString (p :: params) +:+ "&"
    +:+ URLSearchParams_toString (q :: params').
Proof.
  unfold URLSearchParams_toString.
  revert p. induction params as [|z params IH]; intros p; [reflexivity|].
  change (map ?f ((p :: z :: params) ++ q :: params'))
    with (f p :: map f ((z :: params) ++ q :: params')).
  change (map ?f (p :: z :: params)) with (f p :: map f (z :: params)).
  set (f := fun p0 : string * string => urlencode (fst p0) +:+ "=" +:+ urlencode (snd p0)).
  change (String.concat "&" (f p :: map f ((z :: params) ++ q :: params')))
    with (f p +:+ "&" +:+ String.concat "&" (map f ((z :: params) ++ q :: params'))).
  rewrite IH.
  change (String.concat "&" (f p :: map f (z :: params)))
    with (f p +:+ "&" +:+ String.concat "&" (map f (z :: params))).
  now rewrite !append_assoc.
Qed.

(** The authorization URL of a request that brings its state, when the
    challenge and the state convert to texts. *)
Lemma auth_url_with_state (env : Env) (randomBytes : nat -> list byte)
    (req_body : list (string * json)) (code_challenge state : string) :
  env_set (TWITTER_CLIENT_ID env) = true ->
  truthy (assoc "code_challenge" req_body) = true ->
  truthy (assoc "state" req_body) = true ->
  ToString_or_throw (assoc "code_challenge" req_body) = Some code_challenge ->
  ToString_or_throw (assoc "state" req_body) = Some state ->
  auth env randomBytes req_body
  = res_json (JObj [("url", JStr (
      "https://twitter.com/i/oauth2/authorize?"
      +:+ URLSearchParams_toString [
            ("response_type", "code");
            ("client_id", env_str (TWITTER_CLIENT_ID env));
            ("redirect_uri", env_or (REDIRECT_URI env) "http://localhost:5174/callback");
            ("scope", "tweet.read users.read")]
      +:+ "&code_challenge=" +:+ urlencode code_challenge
      +:+ "&code_challenge_method=S256&state=" +:+ urlencode state))]).
Proof.
  intros Hid Hch Hst Ech Est. unfold auth. rewrite Hid, Hch, Hst, Ech, Est.
  cbn [negb]. do 4 f_equal.
  match goal with
  | |- context [URLSearchParams_toString (?a :: ?b :: ?c :: ?d :: ?rest)] =>
      change (a :: b :: c :: d :: rest) with ((a :: [b; c; d]) ++ rest)
  end.
  rewrite URLSearchParams_toString_app. f_equal.
Qed.

(** X8: when the request brings a truthy [state], [POST /auth] draws no
    random bytes. When the challenge and the state of the request convert to
    texts, as strings do, to themselves, the authorization URL ends in the
    two as [URLSearchParams] writes them; when one of the conversions
    throws, the [catch] of the handler answers 500. Either way the answer is
    the same whatever [crypto.randomBytes] would have returned. *)
Theorem auth_keeps_the_state_of_the_request (env : Env)
    (randomBytes : nat -> list byte) (req_body : list (string * json)) :
  env_set (TWITTER_CLIENT_ID env) = true ->
  truthy (assoc "code_challenge" req_body) = true ->
  truthy (assoc "state" req_body) = true ->
  match ToString_or_throw (assoc "code_challenge" req_body),
        ToString_or_throw (assoc "state" req_body) with
  | Some _, Some _ =>
      exists code_challenge state : string,
        (forall c, assoc "code_challenge" req_body = Some (JStr c) -> code_challenge = c)
        /\ (forall s, assoc "state" req_body = Some (JStr s) -> state = s)
        /\ auth env randomBytes req_body
           = res_json (JObj [("url", JStr (
               "https://twitter.com/i/oauth2/authorize?"
               +:+ URLSearchParams_toString [
                     ("response_type", "code");
                     ("client_id", env_str (TWITTER_CLIENT_ID env));
                     ("redirect_uri",
                        env_or (REDIRECT_URI env) "http://localhost:5174/callback");
                     ("scope", "tweet.read users.read")]
               +:+ "&code_challenge=" +:+ urlencode code_challenge
               +:+ "&code_challenge_method=S256&state=" +:+ urlencode state))])
  | _, _ => auth env randomBytes req_body = res_error 500 "Failed to generate auth URL"
  end
  /\ forall randomBytes', auth env randomBytes' req_body = auth env randomBytes req_body.
Proof.
  intros Hid Hch Hst. split.
  - destruct (ToString_or_throw (assoc "code_challenge" req_body))
      as [code_challenge|] eqn:Ech;
      [destruct (ToString_or_throw (assoc "state" req_body)) as [state|] eqn:Est|].
    + exists code_challenge, state. split; [|split].
      * intros c Hc. rewrite Hc in Ech. cbn in Ech. congruence.
      * intros s' Hs. rewrite Hs in Est. cbn in Est. congruence.
      * now apply auth_url_with_state.
    + unfold auth. now rewrite Hid, Hch, Hst, Ech, Est.
    + unfold auth. now rewrite Hid, Hch, Hst, Ech.
  - intros rb'. unfold auth. now rewrite Hst.
Qed.

Lemma auth_keeps_the_state_of_the_request_witness :
  auth Samples.env Samples.counting_bytes
    [("code_challenge", JStr "E9Melhoa2OwvFrEMTJguCHaoeK1t8URWbuGJSstw-cM");
     ("state", JStr "a b")]
  = res_json (JObj [("url", JStr (
      "https://twitter.com/i/oauth2/authorize?response_type=code&client_id=client"
      +:+ "&redirect_uri=http%3A%2F%2Flocalhost%3A5174%2Fcallback"
      +:+ "&scope=tweet.read+users.read"
      +:+ "&code_challenge=E9Melhoa2OwvFrEMTJguCHaoeK1t8URWbuGJSstw-cM"
      +:+ "&code_challenge_method=S256&state=a+b"))]).
Proof.
  destruct (proj1 (auth_keeps_the_state_of_the_request Samples.env
    Samples.counting_bytes
    [("code_challenge", JStr "E9Melhoa2OwvFrEMTJguCHaoeK1t8URWbuGJSstw-cM");
     ("state", JStr "a b")] eq_refl eq_refl eq_refl))
    as (code_challenge & state & Hc & Hs & H).
  rewrite H, (Hc _ eq_refl), (Hs _ eq_refl). reflexivity.
Defined.

Lemma base64URLEncode_nonempty (buffer : list byte) :
  buffer <> [] -> Pkce.base64URLEncode buffer <> "".
Proof.
  rewrite HandshakeClaims.base64URLEncode_spec.
  destruct buffer as [|a [|b [|c r]]]; [congruence|discriminate..].
Qed.

Lemma ok_res_json (b : json) : Browser.ok (res_json b) = true.
Proof. reflexivity. Qed.

(** X9: [handleLogin] in front of [POST /auth]. When the server is
    configured, the digest is not empty and the state is a text that needs
    no escaping (as a UUID is), the login navigates to the authorization URL
    whose query ends in the challenge of the generated pair and the state
    that it has just stored under [oauth_state], both written as they are;
    the verifier stays in [localStorage] and is not in the request. *)
Theorem login_navigates_with_its_challenge_and_state
    (sha256 : list byte -> list byte) (env : Env) (randomBytes : nat -> list byte)
    (array : list byte) (uuid : string) (localStorage : gmap string string) :
  env_set (TWITTER_CLIENT_ID env) = true ->
  sha256 (encode (hex array)) <> [] ->
  uuid <> "" ->
  all_chars is_urlencode_safe uuid = true ->
  let pkce := Pkce.generatePKCEChallenge sha256 array in
  let o := TwitterLogin.handleLogin sha256
             (fun body => Browser.Response (auth env randomBytes body))
             array uuid localStorage in
  TwitterLogin.error o = None
  /\ TwitterLogin.location o = Some (
       "https://twitter.com/i/oauth2/authorize?"
       +:+ URLSearchParams_toString [
             ("response_type", "code");
             ("client_id", env_str (TWITTER_CLIENT_ID env));
             ("redirect_uri", env_or (REDIRECT_URI env) "http://localhost:5174/callback");
             ("scope", "tweet.read users.read")]
       +:+ "&code_challenge=" +:+ Pkce.challenge pkce
       +:+ "&code_challenge_method=S256&state=" +:+ uuid)
  /\ TwitterLogin.storage o !! "oauth_state" = Some uuid
  /\ TwitterLogin.storage o !! "pkce_verifier" = Some (Pkce.verifier pkce)
  /\ TwitterLogin.posted o
     = [("code_challenge", JStr (Pkce.challenge pkce)); ("state", JStr uuid)].
Proof.
  intros Hid Hdigest Huuid Hsafe pkce o.
  assert (Hch : Pkce.challenge pkce <> "").
  { apply (base64URLEncode_nonempty _ Hdigest). }
  assert (Hsafe_ch : urlencode (Pkce.challenge pkce) = Pkce.challenge pkce).
  { apply urlencode_safe.
    apply (all_chars_impl _ _ _ base64url_is_urlencode_safe).
    change (Pkce.challenge pkce)
      with (Pkce.base64URLEncode (sha256 (encode (hex array)))).
    rewrite HandshakeClaims.base64URLEncode_spec. apply base64url_unpadded_alphabet. }
  assert (E : auth env randomBytes
                [("code_challenge", JStr (Pkce.challenge pkce)); ("state", JStr uuid)]
              = res_json (JObj [("url", JStr (
                  "https://twitter.com/i/oauth2/authorize?"
                  +:+ URLSearchParams_toString [
                        ("response_type", "code");
                        ("client_id", env_str (TWITTER_CLIENT_ID env));
                        ("redirect_uri",
                           env_or (REDIRECT_URI env) "http://localhost:5174/callback");
                        ("scope", "tweet.read users.read")]
                  +:+ "&code_challenge=" +:+ Pkce.challenge pkce
                  +:+ "&code_challenge_method=S256&state=" +:+ uuid))])).
  { rewrite (auth_url_with_state env randomBytes _ (Pkce.challenge pkce) uuid).
    - now rewrite Hsafe_ch, (urlencode_safe uuid Hsafe).
    - exact Hid.
    - cbn [assoc String.eqb Ascii.eqb Bool.eqb truthy].
      now destruct (String.eqb_spec (Pkce.challenge pkce) "").
    - cbn [assoc String.eqb Ascii.eqb Bool.eqb truthy].
      now destruct (String.eqb_spec uuid "").
    - reflexivity.
    - reflexivity. }
  subst o. unfold TwitterLogin.handleLogin. fold pkce. rewrite E, ok_res_json.
  cbn [res_json body Browser.property assoc String.eqb Ascii.eqb Bool.eqb
       ToString_opt ToString
       TwitterLogin.error TwitterLogin.location TwitterLogin.storage TwitterLogin.posted].
  repeat split.
  - unfold TwitterLogin.storeAuthState. apply lookup_insert_eq.
  - unfold TwitterLogin.storeAuthState.
    rewrite lookup_insert_ne by discriminate. apply lookup_insert_eq.
Qed.

Lemma login_navigates_with_its_challenge_and_state_witness :
  TwitterLogin.location
    (TwitterLogin.handleLogin (fun bs => take 4 bs ++ [x01])
       (fun body => Browser.Response (auth Samples.env Samples.counting_bytes body))
       [x0a; xff] "123e4567-e89b-42d3-a456-426614174000" ∅)
  = Some ("https://twitter.com/i/oauth2/authorize?response_type=code&client_id=client"
          +:+ "&redirect_uri=http%3A%2F%2Flocalhost%3A5174%2Fcallback"
          +:+ "&scope=tweet.read+users.read"
          +:+ "&code_challenge=MGFmZgE"
          +:+ "&code_challenge_method=S256"
          +:+ "&state=123e4567-e89b-42d3-a456-426614174000").
Proof.
  refine (proj1 (proj2 (login_navigates_with_its_challenge_and_state
    (fun bs => take 4 bs ++ [x01]) Samples.env Samples.counting_bytes
    [x0a; xff] "123e4567-e89b-42d3-a456-426614174000" ∅ eq_refl _ _ eq_refl))).
  - discriminate.
  - discriminate.
Defined.

Lemma omap_all_None {A B} (f : A -> option B) (l : list A) :
  Forall (fun x => f x = None) l -> omap f l = [].
Proof.
  induction 1 as [|x l Hx _ IH]; [reflexivity|]. csimpl. now rewrite Hx.
Qed.

Lemma dedup_sort_subset (keys : list string) :
  Forall (fun k => k ∈ keys) (dedup (sort keys)).
Proof.
  apply Forall_dedup. apply Forall_forall. intros k Hk.
  now rewrite sort_perm in Hk.
Qed.

(** What a property list leaves of an object none of whose keys it has. *)
Lemma restrict_foreign (K : list string) (nested : list (string * json)) :
  Forall (fun k => k ∉ map fst nested) K -> restrict K (JObj nested) = JObj [].
Proof.
  intros H. cbn [restrict]. f_equal. apply omap_all_None.
  eapply Forall_impl; [exact H|]. intros k Hk. cbn beta.
  replace (assoc k (map (fun kv => (kv.1, restrict K kv.2)) nested))
    with (@None json); [reflexivity|].
  symmetry. apply assoc_None. now rewrite map_map, (map_ext _ fst) by reflexivity.
Qed.

(** X6: the digest that [GET /user] signs does not cover the members of a
    nested object whose keys are not keys of the payload itself, as those
    of [public_metrics] are not: two payloads that differ only there have
    the same serialization and the same digest. *)
Theorem digest_leaves_out_nested_members (sha256 : list byte -> list byte)
    (before after : list (string * json)) (name : string)
    (nested nested' : list (string * json)) :
  let keys := map fst before ++ name :: map fst after in
  Forall (fun k => k ∉ keys) (map fst nested) ->
  Forall (fun k => k ∉ keys) (map fst nested') ->
  serializedData (Some (JObj (before ++ (name, JObj nested) :: after)))
  = serializedData (Some (JObj (before ++ (name, JObj nested') :: after)))
  /\ msgHash sha256 (Some (JObj (before ++ (name, JObj nested) :: after)))
     = msgHash sha256 (Some (JObj (before ++ (name, JObj nested') :: after))).
Proof.
  intros keys H H'.
  assert (E : serializedData (Some (JObj (before ++ (name, JObj nested) :: after)))
              = serializedData (Some (JObj (before ++ (name, JObj nested') :: after)))).
  { unfold serializedData. cbn [Object_keys].
    rewrite !map_app. cbn [map fst]. fold keys.
    unfold JSON_stringify. cbn [fmap option_fmap option_map].
    rewrite !serialize_restrict. do 2 f_equal.
    set (K := dedup (sort keys)).
    assert (HK : forall ms : list (string * json),
               Forall (fun k => k ∉ keys) (map fst ms) ->
               restrict K (JObj ms) = JObj []).
    { intros ms Hms. apply restrict_foreign.
      eapply Forall_impl; [apply dedup_sort_subset|].
      intros k Hk Hin. rewrite Forall_forall in Hms. exact (Hms k Hin Hk). }
    cbn [restrict]. rewrite !map_app. cbn [map fst snd].
    fold (restrict K (JObj nested)). fold (restrict K (JObj nested')).
    now rewrite (HK nested H), (HK nested' H'). }
  split; [exact E|]. unfold msgHash. now rewrite E.
Qed.

Lemma digest_leaves_out_nested_members_witness :
  msgHash Samples.toy_digest (Some Samples.profile)
  = msgHash Samples.toy_digest
      (Some (JObj [("id", JStr "1"); ("created_at", JStr "2023-01-01");
                   ("public_metrics",
                      JObj [("tweet_count", JNum 3000);
                            ("followers_count", JNum 1000000)])])).
Proof.
  refine (proj2 (digest_leaves_out_nested_members Samples.toy_digest
    [("id", JStr "1"); ("created_at", JStr "2023-01-01")] [] "public_metrics"
    [("tweet_count", JNum 3); ("followers_count", JNum 5)]
    [("tweet_count", JNum 3000); ("followers_count", JNum 1000000)] _ _)).
  - cbv zeta. apply (bool_decide_unpack _). vm_compute. exact I.
  - cbv zeta. apply (bool_decide_unpack _). vm_compute. exact I.
Defined.

Lemma split_space_word (t rest : string) :
  all_chars (fun c => negb (Ascii.eqb c " ")) t = true ->
  split_space (t +:+ String " " rest) = t :: split_space rest.
Proof.
  unfold all_chars. induction t as [|c t IH]; [reflexivity|].
  cbn [list_ascii_of_string forallb]. intros [Hc Ht]%andb_prop.
  change (String c t +:+ String " " rest) with (String c (t +:+ String " " rest)).
  cbn [split_space]. rewrite (IH Ht).
  now destruct (Ascii.eqb c " ").
Qed.

Lemma split_space_last (t : string) :
  all_chars (fun c => negb (Ascii.eqb c " ")) t = true -> split_space t = [t].
Proof.
  unfold all_chars. induction t as [|c t IH]; [reflexivity|].
  cbn [list_ascii_of_string forallb]. intros [Hc Ht]%andb_prop.
  cbn [split_space]. rewrite (IH Ht).
  now destruct (Ascii.eqb c " ").
Qed.

Lemma prefix_Bearer (s : string) : String.prefix "Bearer " ("Bearer " +:+ s) = true.
Proof. simpl. now destruct s. Qed.

(** X7: [GET /user] takes the token to be the second word of the header:
    what follows a space after the token is dropped, and the provider is
    asked with [Bearer] and the first word alone. *)
Theorem user_reads_one_word_of_the_header
    (sha256 : list byte -> list byte) (sign : list byte -> N * N) (publicKey : N * N)
    (twitter : string -> ProviderReply) (word rest : string) :
  all_chars (fun c => negb (Ascii.eqb c " ")) word = true ->
  user sha256 sign publicKey twitter (Some ("Bearer " +:+ word +:+ String " " rest))
  = user sha256 sign publicKey twitter (Some ("Bearer " +:+ word))
  /\ user sha256 sign publicKey twitter (Some ("Bearer " +:+ word))
     = user sha256 sign publicKey (fun _ => twitter ("Bearer " +:+ word))
         (Some ("Bearer " +:+ word)).
Proof.
  intros Hword.
  assert (E1 : nth 1 (split_space ("Bearer " +:+ word +:+ String " " rest)) "undefined"
               = word).
  { change ("Bearer " +:+ word +:+ String " " rest)
      with ("Bearer" +:+ String " " (word +:+ String " " rest)).
    rewrite (split_space_word "Bearer") by reflexivity.
    now rewrite split_space_word. }
  assert (E2 : nth 1 (split_space ("Bearer " +:+ word)) "undefined" = word).
  { change ("Bearer " +:+ word) with ("Bearer" +:+ String " " word).
    rewrite (split_space_word "Bearer") by reflexivity.
    now rewrite split_space_last. }
  unfold user. rewrite !prefix_Bearer, E1, E2. split; reflexivity.
Qed.

Lemma user_reads_one_word_of_the_header_witness :
  user Samples.toy_digest Samples.toy_sign Samples.toy_publicKey
    (fun h => if String.eqb h "Bearer tok"
              then Reply {| response_status := 200;
                            data := JObj [("data", Samples.profile)] |}
              else NoReply)
    (Some "Bearer tok and more")
  = user Samples.toy_digest Samples.toy_sign Samples.toy_publicKey
      (fun h => if String.eqb h "Bearer tok"
                then Reply {| response_status := 200;
                              data := JObj [("data", Samples.profile)] |}
                else NoReply)
      (Some "Bearer tok").
Proof.
  exact (proj1 (user_reads_one_word_of_the_header Samples.toy_digest Samples.toy_sign
    Samples.toy_publicKey
    (fun h => if String.eqb h "Bearer tok"
              then Reply {| response_status := 200;
                            data := JObj [("data", Samples.profile)] |}
              else NoReply)
    "tok" "and more" eq_refl)).
Defined.



End RouteFacts.

(** ** More of the page of [index.js] *)

Module PageFacts.
Import Json AgeProof PageText.

Section Toolchain.
Variable getCircuit : bool.
Variable execute : Z -> option (list byte).
Variable generateProof : list byte -> option ProofData.
Variable verifyProof : ProofData -> option bool.

#[local] Abbreviation continue :=
  (AgeProof.continue getCircuit execute generateProof verifyProof).
#[local] Abbreviation step :=
  (AgeProof.step getCircuit execute generateProof verifyProof).
#[local] Abbreviation play :=
  (AgeProof.play getCircuit execute generateProof verifyProof).

Lemma runs_continue now r pg : runs (fst (continue now r pg)) = runs pg.
Proof.
  destruct r as [ |age|age|witness|p| ]; cbn [AgeProof.continue fst].
  - unfold initializeNoir. now destruct getCircuit.
  - unfold start_proof, initializeNoir.
    destruct getCircuit; cbn [showResult set_initialized initialized fst runs];
      [reflexivity|]. now destruct (initialized pg).
  - now destruct (execute age).
  - now destruct (generateProof witness).
  - now destruct (verifyProof p) as [[|]|].
  - reflexivity.
Qed.

Lemma runs_settle i now pg r :
  runs pg !! i = Some r ->
  runs (step (Settle i now) pg) = <[i := snd (continue now r pg)]> (runs pg).
Proof.
  intros Hr. cbn [AgeProof.step]. rewrite Hr.
  pose proof (runs_continue now r pg) as H.
  destruct (continue now r pg) as [pg' r']. cbn [fst snd] in *.
  cbn [set_run runs]. now rewrite H.
Qed.

Lemma awaits_ahead_continue now r pg :
  (awaits_ahead (snd (continue now r pg)) <= pred (awaits_ahead r))%nat.
Proof.
  destruct r as [ |age|age|witness|p| ]; cbn [AgeProof.continue snd awaits_ahead].
  - lia.
  - unfold start_proof. destruct (initialized _); cbn [snd awaits_ahead]; lia.
  - destruct (execute age); cbn [snd awaits_ahead]; lia.
  - destruct (generateProof witness); cbn [snd awaits_ahead]; lia.
  - destruct (verifyProof p) as [[|]|]; cbn [snd awaits_ahead]; lia.
  - lia.
Qed.

Lemma awaits_ahead_settle i now pg r :
  runs pg !! i = Some r ->
  exists r', runs (step (Settle i now) pg) !! i = Some r'
             /\ (awaits_ahead r' <= pred (awaits_ahead r))%nat.
Proof.
  intros Hr. exists (snd (continue now r pg)). split.
  - rewrite (runs_settle i now pg r Hr). apply list_lookup_insert_eq.
    now apply lookup_lt_Some in Hr.
  - apply awaits_ahead_continue.
Qed.

(** X17: a run is at most four settled promises from its end, and it moves
    only when its own promise settles: after four settlements of run [i]
    the run has returned, a settlement of run [i] leaves every other run
    where it is, and a click leaves every run where it is. *)
Theorem every_run_returns (pg : Page) (i : nat) (r : Run) (n1 n2 n3 n4 : Z) :
  runs pg !! i = Some r ->
  runs (play [Settle i n1; Settle i n2; Settle i n3; Settle i n4] pg) !! i
  = Some Returned
  /\ (forall j now, j <> i -> runs (step (Settle i now) pg) !! j = runs pg !! j)
  /\ (forall j input r', runs pg !! j = Some r' ->
        runs (step (Click input) pg) !! j = Some r').
Proof.
  intros Hr. split; [|split].
  - cbn [AgeProof.play fold_left].
    destruct (awaits_ahead_settle i n1 _ _ Hr) as (r1 & H1 & L1).
    destruct (awaits_ahead_settle i n2 _ _ H1) as (r2 & H2 & L2).
    destruct (awaits_ahead_settle i n3 _ _ H2) as (r3 & H3 & L3).
    destruct (awaits_ahead_settle i n4 _ _ H3) as (r4 & H4 & L4).
    rewrite H4. f_equal.
    assert (awaits_ahead r <= 4)%nat by (destruct r; cbn; lia).
    destruct r4; cbn [awaits_ahead] in L4; try reflexivity; lia.
  - intros j now Hj. rewrite (runs_settle i now pg r Hr).
    now apply list_lookup_insert_ne.
  - intros j input r' Hj. cbn [AgeProof.step]. unfold click.
    destruct (parseInt input) as [age|]; [|exact Hj].
    destruct (negb (initialized pg)).
    + cbn [spawn runs]. now apply lookup_app_l_Some.
    + unfold start_proof. destruct (initialized _);
        cbn [spawn showResult runs]; now apply lookup_app_l_Some.
Qed.

Lemma localStorage_continue now r pg key :
  key <> "ageProof" ->
  localStorage (fst (continue now r pg)) !! key = localStorage pg !! key.
Proof.
  intros Hkey.
  destruct r as [ |age|age|witness|p| ]; cbn [AgeProof.continue fst].
  - unfold initializeNoir. now destruct getCircuit.
  - unfold start_proof, initializeNoir.
    destruct getCircuit; cbn [showResult set_initialized initialized fst localStorage];
      [reflexivity|]. now destruct (initialized pg).
  - now destruct (execute age).
  - now destruct (generateProof witness).
  - destruct (verifyProof p) as [[|]|]; cbn [fst showResult setItem localStorage];
      try reflexivity.
    now apply lookup_insert_ne.
  - reflexivity.
Qed.

Lemma localStorage_click input pg : localStorage (click input pg) = localStorage pg.
Proof.
  unfold click. destruct (parseInt input) as [age|]; [|reflexivity].
  destruct (negb (initialized pg)); [reflexivity|].
  unfold start_proof. now destruct (initialized _).
Qed.

Lemma localStorage_step e pg key :
  key <> "ageProof" ->
  localStorage (step e pg) !! key = localStorage pg !! key.
Proof.
  intros Hkey. destruct e as [input|i now]; cbn [AgeProof.step].
  - now rewrite localStorage_click.
  - destruct (runs pg !! i) as [r|]; [|reflexivity].
    pose proof (localStorage_continue now r pg key Hkey) as H.
    now destruct (continue now r pg) as [pg' r'].
Qed.

(** X15: whatever is clicked and whatever settles, the page writes
    [localStorage] under [ageProof] only: every other key keeps what it
    had, and a key that was not there stays out. *)
Theorem page_writes_only_ageProof (events : list Event) (pg : Page) (key : string) :
  key <> "ageProof" ->
  localStorage (play events pg) !! key = localStorage pg !! key.
Proof.
  intros Hkey. revert pg. induction events as [|e events IH]; intros pg; [reflexivity|].
  cbn [AgeProof.play fold_left]. fold (play events (step e pg)).
  rewrite IH. now apply localStorage_step.
Qed.

Lemma initialized_continue now r pg :
  initialized pg = true -> initialized (fst (continue now r pg)) = true.
Proof.
  intros Hi.
  destruct r as [ |age|age|witness|p| ]; cbn [AgeProof.continue fst].
  - unfold initializeNoir. now destruct getCircuit.
  - unfold start_proof, initializeNoir.
    destruct getCircuit; cbn [showResult set_initialized initialized fst];
      [reflexivity|]. now rewrite Hi.
  - now destruct (execute age).
  - now destruct (generateProof witness).
  - now destruct (verifyProof p) as [[|]|].
  - exact Hi.
Qed.

Lemma initialized_step e pg :
  initialized pg = true -> initialized (step e pg) = true.
Proof.
  intros Hi. destruct e as [input|i now]; cbn [AgeProof.step].
  - unfold click. destruct (parseInt input) as [age|]; [|exact Hi].
    rewrite Hi. cbn [negb]. unfold start_proof.
    cbn [showResult initialized]. now rewrite Hi.
  - destruct (runs pg !! i) as [r|]; [|exact Hi].
    pose proof (initialized_continue now r pg Hi) as H.
    now destruct (continue now r pg) as [pg' r'].
Qed.

Lemma initialized_play events :
  forall pg, initialized pg = true -> initialized (play events pg) = true.
Proof.
  induction events as [|e events IH]; intros pg Hi; [exact Hi|].
  apply IH. now apply initialized_step.
Qed.

(** X18: with a circuit that compiles, once the initialization of the page
    load has settled the page stays initialized whatever is clicked and
    whatever settles, so every later click with a numeric age shows
    "Generating proof..." and goes to the executor with that age. *)
Theorem initialization_is_kept (events : list Event) (stored : gmap string string)
    (now : Z) (input : string) (age : Z) :
  getCircuit = true ->
  parseInt input = Some age ->
  let pg := play (Settle 0 now :: events) (loaded stored) in
  initialized pg = true
  /\ step (Click input) pg = spawn (AwaitExecute age) (showResult Generating true pg).
Proof.
  intros Hc Hage pg.
  assert (Hi : initialized pg = true).
  { subst pg. cbn [AgeProof.play fold_left].
    apply (initialized_play events). cbn. unfold initializeNoir. now rewrite Hc. }
  split; [exact Hi|].
  cbn [AgeProof.step]. rewrite (AgeProofFacts.click_starts_a_run input age pg Hage).
  now rewrite Hi.
Qed.

Lemma idle_step stored e pg :
  getCircuit = false -> idle stored pg -> idle stored (step e pg).
Proof.
  intros Hc (Hi & Hs & Hr & Hm). destruct e as [input|i now]; cbn [AgeProof.step].
  - unfold click. destruct (parseInt input) as [age|].
    + rewrite Hi. cbn [negb]. repeat split; cbn; try assumption.
      apply Forall_app. split; [assumption|]. now repeat constructor.
    + repeat split; cbn; try assumption. now constructor.
  - destruct (runs pg !! i) as [r|] eqn:Er; [|now repeat split].
    assert (Hr' : in_toolchain r = false).
    { rewrite Forall_forall in Hr. apply Hr. eapply list_elem_of_lookup_2, Er. }
    destruct r as [ |age|age|witness|p| ]; try discriminate Hr';
      cbn [AgeProof.continue]; unfold start_proof, initializeNoir; try rewrite Hc;
      cbn [showResult initialized]; rewrite ?Hi; cbn [set_run];
      repeat split; cbn; try assumption;
      try (apply Forall_insert; [assumption|reflexivity]);
      repeat (constructor; [reflexivity|]); assumption.
Qed.

(** X16: when the circuit does not compile, nothing ever runs: whatever
    is clicked and whatever settles after the page has loaded, the page
    stays uninitialized, no run reaches [noir.execute], the prover or the
    verifier, [localStorage] stays as it was, and no success is shown. *)
Theorem nothing_runs_without_a_circuit (events : list Event)
    (stored : gmap string string) :
  getCircuit = false ->
  let pg := play events (loaded stored) in
  initialized pg = false
  /\ localStorage pg = stored
  /\ Forall (fun r => in_toolchain r = false) (runs pg)
  /\ Forall (fun m => is_success (fst m) = false) (shown pg).
Proof.
  intros Hc. cbv zeta. change (idle stored (play events (loaded stored))).
  assert (H : idle stored (loaded stored)).
  { repeat split; cbn; now repeat constructor. }
  revert H. generalize (loaded stored).
  induction events as [|e events IH]; intros pg H; [exact H|].
  cbn [AgeProof.play fold_left]. apply IH. now apply idle_step.
Qed.

End Toolchain.

Lemma every_run_returns_witness :
  runs (AgeProof.play true Samples.toy_execute Samples.toy_generateProof
          Samples.toy_verifyProof
          [Settle 1 1; Settle 1 2; Settle 1 3; Settle 1 4]
          (click "25" (loaded ∅))) !! 1%nat
  = Some Returned.
Proof.
  exact (proj1 (every_run_returns true Samples.toy_execute Samples.toy_generateProof
    Samples.toy_verifyProof (click "25" (loaded ∅)) 1 (AwaitInit 25) 1 2 3 4 eq_refl)).
Defined.

Lemma page_writes_only_ageProof_witness :
  localStorage
    (AgeProof.play true Samples.toy_execute Samples.toy_generateProof
       Samples.toy_verifyProof
       [Settle 0 1; Click "25"; Settle 1 2; Settle 1 3; Settle 1 4]
       (loaded (<["twitter_token" := "tok"]> ∅))) !! "twitter_token"
  = localStorage (loaded (<["twitter_token" := "tok"]> ∅)) !! "twitter_token".
Proof.
  apply (page_writes_only_ageProof true Samples.toy_execute Samples.toy_generateProof
    Samples.toy_verifyProof
    [Settle 0 1; Click "25"; Settle 1 2; Settle 1 3; Settle 1 4]
    (loaded (<["twitter_token" := "tok"]> ∅)) "twitter_token").
  discriminate.
Defined.

Lemma initialization_is_kept_witness :
  initialized
    (AgeProof.play true Samples.toy_execute Samples.toy_generateProof
       Samples.toy_verifyProof [Settle 0 1; Click "25"; Settle 1 2] (loaded ∅))
  = true.
Proof.
  exact (proj1 (initialization_is_kept true Samples.toy_execute
    Samples.toy_generateProof Samples.toy_verifyProof
    [Click "25"; Settle 1 2] ∅ 1 "300" 300 eq_refl eq_refl)).
Defined.

Lemma nothing_runs_without_a_circuit_witness :
  localStorage
    (AgeProof.play false Samples.toy_execute Samples.toy_generateProof
       Samples.toy_verifyProof
       [Settle 0 1; Click "25"; Settle 1 2; Settle 1 3] (loaded ∅))
  = ∅.
Proof.
  exact (proj1 (proj2 (nothing_runs_without_a_circuit false Samples.toy_execute
    Samples.toy_generateProof Samples.toy_verifyProof
    [Settle 0 1; Click "25"; Settle 1 2; Settle 1 3] ∅ eq_refl))).
Defined.

(** *** [parseInt] on a numeral with something around it *)

Lemma trim_start_whitespace (ws s : string) :
  all_whitespace ws = true -> trim_start (ws +:+ s) = trim_start s.
Proof.
  unfold all_whitespace. induction ws as [|c ws IH]; [reflexivity|].
  cbn [list_ascii_of_string forallb]. intros [Hc Hws]%andb_prop.
  change (String c ws +:+ s) with (String c (ws +:+ s)).
  cbn [trim_start]. rewrite Hc. now apply IH.
Qed.

Lemma parseInt_whitespace (ws s : string) :
  all_whitespace ws = true -> parseInt (ws +:+ s) = parseInt s.
Proof. intros H. unfold parseInt. now rewrite trim_start_whitespace. Qed.

Lemma digits_stop (c : ascii) (acc : option Z) (rest : string) :
  digit 10 c = None -> digits 10 acc (String c rest) = acc.
Proof. intros H. cbn [digits]. now rewrite H. Qed.

Lemma digits_of_uint_acc_then (c : ascii) (rest : string) (d : Decimal.uint) :
  digit 10 c = None ->
  forall a : positive,
    digits 10 (Some (Zpos a))
      (DecimalString.NilEmpty.string_of_uint d +:+ String c rest)
    = Some (Zpos (Pos.of_uint_acc d a)).
Proof.
  intros Hc.
  induction d as [|d IH|d IH|d IH|d IH|d IH|d IH|d IH|d IH|d IH|d IH]; intros a;
    cbn [DecimalString.NilEmpty.string_of_uint Pos.of_uint_acc];
    [now apply digits_stop|..];
    (match goal with
     | |- context [String ?x ?s +:+ ?t] =>
         change (String x s +:+ t) with (String x (s +:+ t))
     end;
     erewrite AgeProofFacts.digits_cons by (vm_compute; reflexivity);
     rewrite <- IH; do 2 f_equal; lia).
Qed.

Lemma digits_of_uint_zero_then (c : ascii) (rest : string) (d : Decimal.uint) :
  digit 10 c = None ->
  digits 10 (Some 0) (DecimalString.NilEmpty.string_of_uint d +:+ String c rest)
  = Some (Z.of_N (Pos.of_uint d)).
Proof.
  intros Hc.
  induction d as [|d IH|d IH|d IH|d IH|d IH|d IH|d IH|d IH|d IH|d IH];
    cbn [DecimalString.NilEmpty.string_of_uint Pos.of_uint];
    [now apply digits_stop|..];
    match goal with
    | |- context [String ?x ?s +:+ ?t] =>
        change (String x s +:+ t) with (String x (s +:+ t))
    end;
    erewrite AgeProofFacts.digits_cons by (vm_compute; reflexivity);
    [exact IH|..]; now apply digits_of_uint_acc_then.
Qed.

Lemma to_uint_head (p : positive) (d : Decimal.uint) : Pos.to_uint p <> Decimal.D0 d.
Proof.
  intros E.
  pose proof (DecimalPos.Unsigned.to_of (Pos.to_uint p)) as H.
  rewrite DecimalPos.Unsigned.of_to in H. cbn [N.to_uint] in H.
  unfold Decimal.unorm in H.
  destruct (Decimal.nzhead (Pos.to_uint p)) eqn:En.
  - apply (DecimalPos.Unsigned.to_uint_nonzero p). now rewrite H.
  - rewrite E in H. subst. now apply (DecimalFacts.nzhead_nonzero _ _ En).
  - rewrite E in H. discriminate H.
  - rewrite E in H. discriminate H.
  - rewrite E in H. discriminate H.
  - rewrite E in H. discriminate H.
  - rewrite E in H. discriminate H.
  - rewrite E in H. discriminate H.
  - rewrite E in H. discriminate H.
  - rewrite E in H. discriminate H.
  - rewrite E in H. discriminate H.
Qed.

Lemma parseInt_of_uint_then (c : ascii) (rest : string) (d : Decimal.uint) :
  digit 10 c = None ->
  d <> Decimal.Nil -> (forall d', d <> Decimal.D0 d') ->
  parseInt (DecimalString.NilEmpty.string_of_uint d +:+ String c rest)
  = Some (Number_of (Z.of_N (Pos.of_uint d)))
  /\ parseInt (String "-" (DecimalString.NilEmpty.string_of_uint d +:+ String c rest))
     = Some (Number_of (- Z.of_N (Pos.of_uint d))).
Proof.
  intros Hc Hnil Hzero.
  destruct d as [|d|d|d|d|d|d|d|d|d|d];
    [congruence|now destruct (Hzero d)|..];
    cbn [DecimalString.NilEmpty.string_of_uint Pos.of_uint];
    match goal with
    | |- context [String ?x ?s +:+ ?t] =>
        change (String x s +:+ t) with (String x (s +:+ t))
    end;
    match goal with
    | |- parseInt (String ?x ?s) = _ /\ _ =>
        change (parseInt (String x s))
          with (match digits 10 None (String x s) with
                | Some v => Some (Number_of (1 * v))
                | None => None
                end);
        change (parseInt (String "-" (String x s)))
          with (match digits 10 None (String x s) with
                | Some v => Some (Number_of (-1 * v))
                | None => None
                end)
    end;
    erewrite AgeProofFacts.digits_first by (vm_compute; reflexivity);
    rewrite (digits_of_uint_acc_then c rest d Hc);
    split; do 2 f_equal; lia.
Qed.

(** X19: [parseInt] reads the numeral an input starts with and drops the
    rest, so the click handler takes [17.9] for 17 and [18 years] for 18:
    for every integer [n] up to [2^53] in magnitude, the integers a Number
    holds exactly, its numeral, after any white space and before any
    character that is not a decimal digit, is read as [n]. Only [0] before
    [x] or [X] is different, where the input is read in base 16. *)
Theorem parseInt_reads_the_leading_numeral (ws : string) (n : Z) (c : ascii)
    (rest : string) :
  Z.abs n <= 2 ^ 53 ->
  all_whitespace ws = true ->
  digit 10 c = None ->
  (n = 0 -> c <> "x"%char /\ c <> "X"%char) ->
  parseInt (ws +:+ Number_toString n +:+ String c rest) = Some n.
Proof.
  intros Hn Hws Hc Hx. rewrite parseInt_whitespace by exact Hws.
  rewrite <- (AgeProofFacts.Number_of_safe n Hn) at 2. clear Hn.
  unfold Number_toString. destruct n as [|p|p].
  - destruct (Hx eq_refl) as [Hx1 Hx2]. clear Hx.
    change (DecimalString.NilZero.string_of_int (Z.to_int 0) +:+ String c rest)
      with (String "0" (String c rest)).
    destruct c as [[|] [|] [|] [|] [|] [|] [|] [|]];
      try discriminate Hc; try congruence; reflexivity.
  - cbn [Z.to_int DecimalString.NilZero.string_of_int].
    pose proof (DecimalPos.Unsigned.of_to p) as Hp.
    replace (DecimalString.NilZero.string_of_uint (Pos.to_uint p))
      with (DecimalString.NilEmpty.string_of_uint (Pos.to_uint p))
      by (pose proof (DecimalPos.Unsigned.to_uint_nonnil p);
          now destruct (Pos.to_uint p)).
    destruct (parseInt_of_uint_then c rest (Pos.to_uint p) Hc
                (DecimalPos.Unsigned.to_uint_nonnil p) (to_uint_head p)) as [H _].
    rewrite H, Hp. reflexivity.
  - cbn [Z.to_int DecimalString.NilZero.string_of_int].
    pose proof (DecimalPos.Unsigned.of_to p) as Hp.
    replace (DecimalString.NilZero.string_of_uint (Pos.to_uint p))
      with (DecimalString.NilEmpty.string_of_uint (Pos.to_uint p))
      by (pose proof (DecimalPos.Unsigned.to_uint_nonnil p);
          now destruct (Pos.to_uint p)).
    destruct (parseInt_of_uint_then c rest (Pos.to_uint p) Hc
                (DecimalPos.Unsigned.to_uint_nonnil p) (to_uint_head p)) as [_ H].
    change (String "-" (DecimalString.NilEmpty.string_of_uint (Pos.to_uint p))
            +:+ String c rest)
      with (String "-" (DecimalString.NilEmpty.string_of_uint (Pos.to_uint p)
                        +:+ String c rest)).
    rewrite H, Hp. reflexivity.
Qed.

Lemma parseInt_reads_the_leading_numeral_witness :
  parseInt "  17.9" = Some 17.
Proof.
  apply (parseInt_reads_the_leading_numeral "  " 17 "." "9").
  - vm_compute. discriminate.
  - reflexivity.
  - reflexivity.
  - discriminate.
Defined.

(** X20: what [deserializeProof] of [verification.js] reads and
    [serializeProof] of [index.js] writes again is the pasted object with
    each number of [proof] reduced modulo 256 and a missing [publicInputs]
    replaced by the empty array: a number outside 0..255 is wrapped, not
    refused, and an object with numbers in range and its [publicInputs]
    comes back as it was. *)
Theorem serialize_deserialize (d : SerializedProof) (now : Z) :
  serializeProof now (deserializeProof d)
  = {| s_proof := map (fun z => z mod 256) (s_proof d);
       s_publicInputs := Some (or_empty (s_publicInputs d));
       s_timestamp := now |}
  /\ (Forall (fun z => 0 <= z < 256) (s_proof d) ->
      is_Some (s_publicInputs d) ->
      serializeProof (s_timestamp d) (deserializeProof d) = d).
Proof.
  assert (E : forall l, Array_from (Uint8Array_from l) = map (fun z => z mod 256) l).
  { intros l. unfold Array_from, Uint8Array_from. rewrite map_map.
    apply map_ext. intros z. unfold ToUint8.
    assert (Hz : 0 <= z mod 256 < 256) by (apply Z.mod_pos_bound; lia).
    destruct (Byte.of_N (Z.to_N (z mod 256))) as [b|] eqn:Eb.
    - apply Byte.to_of_N in Eb. rewrite Eb. lia.
    - apply Byte.of_N_None_iff in Eb. lia. }
  split.
  - unfold serializeProof, deserializeProof. cbn [proof publicInputs or_empty].
    now rewrite E.
  - intros Hrange [pubs Hpubs]. destruct d as [numbers pubs' ts].
    cbn [s_proof s_publicInputs s_timestamp] in *. subst pubs'.
    unfold serializeProof, deserializeProof.
    cbn [proof publicInputs or_empty s_proof s_publicInputs s_timestamp].
    rewrite E. f_equal. clear E.
    induction numbers as [|z l IH]; [reflexivity|].
    apply Forall_cons in Hrange as [Hz Hl].
    cbn [map]. rewrite (IH Hl). f_equal. now apply Z.mod_small.
Qed.

End PageFacts.

(** ** The session in the browser *)

Module SessionFacts.
Import Encoding Json Browser JsonFacts TwitterRoutes.

Lemma missing_Some (s : string) : missing (Some s) = false <-> s <> "".
Proof. cbn [missing]. now destruct (String.eqb_spec s ""). Qed.

Lemma missing_false (x : option string) :
  missing x = false <-> exists s, x = Some s /\ s <> "".
Proof.
  destruct x as [s|]; cbn [missing].
  - destruct (String.eqb_spec s "") as [->|Hne].
    + split; [discriminate|]. intros (s' & [= <-] & H). congruence.
    + split; [eauto|reflexivity].
  - split; [discriminate|]. now intros (s & H & _).
Qed.

(** The callback of a session, once its checks have passed. *)
Lemma handleCallback_checked (backend : AuthCallback.Request -> FetchResult)
    (code_ verifier_ state_ : string) (localStorage : gmap string string) :
  code_ <> "" -> verifier_ <> "" -> state_ <> "" ->
  localStorage !! "pkce_verifier" = Some verifier_ ->
  localStorage !! "oauth_state" = Some state_ ->
  exists rest,
    AuthCallback.sent
      (AuthCallback.handleCallback backend (Some code_) (Some state_) localStorage)
    = AuthCallback.TokenExchange code_ verifier_ :: rest
    /\ Forall (fun r => exists a, r = AuthCallback.UserData a) rest.
Proof.
  intros Hc Hv Hs Ev Es. unfold AuthCallback.handleCallback, AuthCallback.failed.
  rewrite Ev, Es.
  apply missing_Some in Hc, Hv, Hs. rewrite Hc, Hv, Hs. cbn [orb].
  rewrite bool_decide_eq_true_2 by reflexivity. cbn [negb].
  destruct (backend (AuthCallback.TokenExchange _ _)) as [response|];
    [|cbn [AuthCallback.sent]; eauto].
  destruct (negb (ok response)); [cbn [AuthCallback.sent]; eauto|].
  destruct (property _ _) as [access_token|]; [|cbn [AuthCallback.sent]; eauto].
  destruct (backend (AuthCallback.UserData _)) as [userResponse|];
    [|cbn [AuthCallback.sent]; eauto 6].
  destruct (negb (ok userResponse)); cbn [AuthCallback.sent]; eauto 6.
Qed.

(** The callback of anything else sends nothing and changes nothing. *)
Lemma handleCallback_refused (backend : AuthCallback.Request -> FetchResult)
    (code state : option string) (localStorage : gmap string string) :
  ~ (exists c v s, code = Some c /\ localStorage !! "pkce_verifier" = Some v
                   /\ state = Some s /\ localStorage !! "oauth_state" = Some s
                   /\ c <> "" /\ v <> "" /\ s <> "") ->
  AuthCallback.sent (AuthCallback.handleCallback backend code state localStorage) = []
  /\ AuthCallback.storage (AuthCallback.handleCallback backend code state localStorage)
     = localStorage.
Proof.
  intros Hnot. unfold AuthCallback.handleCallback, AuthCallback.failed.
  destruct code as [c|]; [|now split].
  destruct (localStorage !! "pkce_verifier") as [v|] eqn:Ev; [|now split].
  destruct (missing (Some c) || missing (Some v) || missing state
            || missing (localStorage !! "oauth_state")) eqn:Em; [now split|].
  apply orb_false_elim in Em as [Em Hstored].
  apply orb_false_elim in Em as [Em Hstate].
  apply orb_false_elim in Em as [Hc Hv].
  apply missing_Some in Hc, Hv.
  apply missing_false in Hstate as (s & -> & Hs).
  apply missing_false in Hstored as (s' & Es' & Hs').
  destruct (bool_decide_reflect (Some s = localStorage !! "oauth_state")) as [E|E];
    [|now split].
  exfalso. apply Hnot. exists c, v, s. rewrite <- E. tauto.
Qed.

(** X10: the callback page contacts the backend only for the session it
    finds in [localStorage]: it sends something exactly when the URL has a
    code and a state, a verifier is stored, and the state of the URL is the
    stored one, none of them empty; the exchange it then sends carries the
    code of the URL and the stored verifier, and otherwise [localStorage]
    stays as it is. *)
Theorem callback_sends_only_for_its_session
    (backend : AuthCallback.Request -> FetchResult)
    (code state : option string) (localStorage : gmap string string) :
  let o := AuthCallback.handleCallback backend code state localStorage in
  let session :=
    exists c v s, code = Some c /\ localStorage !! "pkce_verifier" = Some v
                  /\ state = Some s /\ localStorage !! "oauth_state" = Some s
                  /\ c <> "" /\ v <> "" /\ s <> "" in
  (AuthCallback.sent o <> [] <-> session)
  /\ (~ session -> AuthCallback.storage o = localStorage)
  /\ (forall c v, AuthCallback.TokenExchange c v ∈ AuthCallback.sent o ->
        code = Some c /\ localStorage !! "pkce_verifier" = Some v
        /\ state = localStorage !! "oauth_state").
Proof.
  cbv zeta.
  assert (Hcases :
    (exists c v s, code = Some c /\ localStorage !! "pkce_verifier" = Some v
                   /\ state = Some s /\ localStorage !! "oauth_state" = Some s
                   /\ c <> "" /\ v <> "" /\ s <> "")
    \/ ~ (exists c v s, code = Some c /\ localStorage !! "pkce_verifier" = Some v
                        /\ state = Some s /\ localStorage !! "oauth_state" = Some s
                        /\ c <> "" /\ v <> "" /\ s <> "")).
  { destruct code as [c|]; [|right; now intros (c & v & s & [=] & _)].
    destruct (localStorage !! "pkce_verifier") as [v|];
      [|right; now intros (c' & v & s & _ & [=] & _)].
    destruct state as [s|]; [|right; now intros (c' & v' & s & _ & _ & [=] & _)].
    destruct (decide (localStorage !! "oauth_state" = Some s)) as [Es|Es];
      [|right; intros (c' & v' & s' & _ & _ & [= <-] & H & _); congruence].
    destruct (decide (c = "")) as [->|Hc];
      [right; intros (c' & v' & s' & [= <-] & _ & _ & _ & H & _); congruence|].
    destruct (decide (v = "")) as [->|Hv];
      [right; intros (c' & v' & s' & _ & [= <-] & _ & _ & _ & H & _); congruence|].
    destruct (decide (s = "")) as [->|Hs];
      [right; intros (c' & v' & s' & _ & _ & [= <-] & _ & _ & _ & H); congruence|].
    left. exists c, v, s. tauto. }
  destruct Hcases as [Hyes|Hno].
  - destruct Hyes as (c & v & s & -> & Ev & -> & Es & Hc & Hv & Hs).
    destruct (handleCallback_checked backend c v s localStorage Hc Hv Hs Ev Es)
      as (rest & Hsent & Hrest).
    rewrite Hsent. split; [|split].
    + split; [intros _; exists c, v, s; tauto|discriminate].
    + intros Hnot. exfalso. apply Hnot. exists c, v, s. tauto.
    + intros c' v' [[= <- <-]|Hin]%elem_of_cons; [now rewrite Es|].
      rewrite Forall_forall in Hrest. destruct (Hrest _ Hin) as [a [=]].
  - destruct (handleCallback_refused backend code state localStorage Hno) as [Hsent Hst].
    rewrite Hsent. split; [|split].
    + split; [congruence|contradiction].
    + intros _. exact Hst.
    + intros c v Hin. now apply elem_of_nil in Hin.
Qed.

Lemma handleLogin_storage (sha256 : list byte -> list byte)
    (api : list (string * json) -> FetchResult) (array : list byte) (uuid : string)
    (localStorage : gmap string string) :
  TwitterLogin.storage (TwitterLogin.handleLogin sha256 api array uuid localStorage)
  = TwitterLogin.storeAuthState (hex array) uuid localStorage.
Proof.
  unfold TwitterLogin.handleLogin. cbn [Pkce.generatePKCEChallenge Pkce.verifier].
  destruct (api _) as [r|]; [|reflexivity].
  destruct (ok r); [|reflexivity].
  now destruct (property "url" (body r)).
Qed.

Lemma hex_nonempty (bs : list byte) : bs <> [] -> hex bs <> "".
Proof. destruct bs as [|b bs]; [congruence|discriminate]. Qed.

(** X11: the login and the callback, one after the other. The callback
    that comes back with the state of the login sends the exchange with the
    verifier that the login generated and stored, whatever the login's own
    request came to; a callback with any other state sends nothing and
    leaves the stored session as it is. *)
Theorem callback_sends_the_verifier_of_the_login
    (sha256 : list byte -> list byte) (api : list (string * json) -> FetchResult)
    (backend : AuthCallback.Request -> FetchResult)
    (array : list byte) (uuid code : string) (localStorage : gmap string string) :
  array <> [] -> uuid <> "" -> code <> "" ->
  let session :=
    TwitterLogin.storage (TwitterLogin.handleLogin sha256 api array uuid localStorage) in
  (exists rest,
     AuthCallback.sent (AuthCallback.handleCallback backend (Some code) (Some uuid) session)
     = AuthCallback.TokenExchange code
         (Pkce.verifier (Pkce.generatePKCEChallenge sha256 array)) :: rest)
  /\ (forall state, state <> Some uuid ->
        AuthCallback.sent (AuthCallback.handleCallback backend (Some code) state session)
        = []
        /\ AuthCallback.storage
             (AuthCallback.handleCallback backend (Some code) state session)
           = session).
Proof.
  intros Harray Huuid Hcode session.
  assert (Ev : session !! "pkce_verifier" = Some (hex array)).
  { subst session. rewrite handleLogin_storage. unfold TwitterLogin.storeAuthState.
    rewrite lookup_insert_ne by discriminate. apply lookup_insert_eq. }
  assert (Es : session !! "oauth_state" = Some uuid).
  { subst session. rewrite handleLogin_storage. apply lookup_insert_eq. }
  split.
  - destruct (handleCallback_checked backend code (hex array) uuid session Hcode
                (hex_nonempty array Harray) Huuid Ev Es) as (rest & H & _).
    exists rest. exact H.
  - intros state Hstate. apply handleCallback_refused.
    intros (c & v & s & _ & _ & -> & Es' & _). congruence.
Qed.

Lemma callback_sends_the_verifier_of_the_login_witness :
  exists rest,
    AuthCallback.sent
      (AuthCallback.handleCallback Samples.working_backend (Some "c0de") (Some "st4te")
         (TwitterLogin.storage
            (TwitterLogin.handleLogin Samples.toy_digest (fun _ => NetworkError)
               [x0a; xff] "st4te" ∅)))
    = AuthCallback.TokenExchange "c0de" "0aff" :: rest.
Proof.
  refine (proj1 (callback_sends_the_verifier_of_the_login Samples.toy_digest
    (fun _ => NetworkError) Samples.working_backend [x0a; xff] "st4te" "c0de" ∅ _ _ _));
    discriminate.
Defined.

Lemma ok_2xx (r : AxiosResponse) :
  200 <= response_status r < 300 -> axios (Reply r) = Some r.
Proof.
  intros H. cbn [axios].
  destruct (Z.leb_spec 200 (response_status r)); [|lia].
  destruct (Z.ltb_spec (response_status r) 300); [reflexivity|lia].
Qed.

(** X12: the token route passes on what the provider answers with a 2xx
    status without looking for a token in it, and the callback page does
    not look either: when that answer is an object without [access_token],
    the callback stores the text [undefined] under [twitter_token] and asks
    for the user data with [Bearer undefined]. *)
Theorem callback_without_a_token_stores_undefined
    (env : Env) (twitter : TokenRequest -> ProviderReply)
    (user : option string -> HttpResponse)
    (code verifier_ state : string) (localStorage : gmap string string)
    (r : AxiosResponse) (members : list (string * json)) :
  code <> "" -> verifier_ <> "" -> state <> "" ->
  localStorage !! "pkce_verifier" = Some verifier_ ->
  localStorage !! "oauth_state" = Some state ->
  twitter (token_request env (Some (JStr code)) (Some (JStr verifier_))) = Reply r ->
  200 <= response_status r < 300 ->
  data r = JObj members ->
  assoc "access_token" members = None ->
  let o := AuthCallback.handleCallback
             (AuthCallback.served (token env twitter) user)
             (Some code) (Some state) localStorage in
  AuthCallback.storage o !! "twitter_token" = Some "undefined"
  /\ AuthCallback.sent o
     = [AuthCallback.TokenExchange code verifier_;
        AuthCallback.UserData "Bearer undefined"].
Proof.
  intros Hc Hv Hs Ev Es Hreply Hstatus Hdata Htoken.
  assert (Etoken : token env twitter [("code", JStr code); ("code_verifier", JStr verifier_)]
                   = res_json (JObj members)).
  { unfold token. cbn [assoc String.eqb Ascii.eqb Bool.eqb truthy].
    apply String.eqb_neq in Hc, Hv. rewrite Hc, Hv. cbn [negb orb].
    rewrite Hreply, (ok_2xx r Hstatus), Hdata. reflexivity. }
  cbv zeta. unfold AuthCallback.handleCallback, AuthCallback.failed.
  rewrite Ev, Es.
  apply missing_Some in Hc, Hv, Hs. rewrite Hc, Hv, Hs. cbn [orb].
  rewrite bool_decide_eq_true_2 by reflexivity. cbn [negb].
  cbn [AuthCallback.served]. rewrite Etoken.
  change (ok (res_json (JObj members))) with true. cbn [negb].
  cbn [res_json body property]. rewrite Htoken.
  cbn [ToString_opt].
  destruct (negb (ok (user (Some ("Bearer " +:+ "undefined")))));
    cbn [AuthCallback.storage AuthCallback.sent].
  - split; [apply lookup_insert_eq|reflexivity].
  - split; [|reflexivity].
    rewrite !lookup_delete_ne by discriminate.
    rewrite lookup_insert_ne by discriminate. apply lookup_insert_eq.
Qed.

Lemma callback_without_a_token_stores_undefined_witness :
  AuthCallback.storage
    (AuthCallback.handleCallback
       (AuthCallback.served
          (token Samples.env
             (fun _ => Reply {| response_status := 200;
                                data := JObj [("token_type", JStr "bearer")] |}))
          (fun _ => res_error 500 "Failed to fetch or sign user data"))
       (Some "c0de") (Some "st4te") Samples.session) !! "twitter_token"
  = Some "undefined".
Proof.
  refine (proj1 (callback_without_a_token_stores_undefined Samples.env
    (fun _ => Reply {| response_status := 200;
                       data := JObj [("token_type", JStr "bearer")] |})
    (fun _ => res_error 500 "Failed to fetch or sign user data")
    "c0de" "c0ffee" "st4te" Samples.session
    {| response_status := 200; data := JObj [("token_type", JStr "bearer")] |}
    [("token_type", JStr "bearer")] _ _ _ eq_refl eq_refl eq_refl _ eq_refl eq_refl));
    try discriminate.
  cbn. lia.
Defined.

Lemma Number_toString_nonempty (n : Z) : Number_toString n <> "".
Proof.
  unfold Number_toString.
  destruct n as [|p|p]; cbn [Z.to_int DecimalString.NilZero.string_of_int];
    [discriminate| |discriminate].
  unfold DecimalString.NilZero.string_of_uint.
  now destruct (Pos.to_uint p).
Qed.

(** [JSON.stringify] never returns the empty text. *)
Lemma JSON_stringify_nonempty (v : json) : JSON_stringify v None <> "".
Proof.
  unfold JSON_stringify. cbn [fmap option_fmap option_map].
  destruct v as [ |[|]|n|s|items|members]; cbn [SerializeJSONProperty];
    try discriminate.
  - apply Number_toString_nonempty.
  - now destruct (omap _ _).
Qed.

(** X13: what [App] shows after the callback. When the callback has
    succeeded and the token it stored is not the empty text, [App] renders
    the authenticated view; when it has failed on a browser without signed
    data, [App] renders the login, even if a token was stored on the way. *)
Theorem App_after_the_callback
    (backend : AuthCallback.Request -> FetchResult)
    (code state : option string) (localStorage : gmap string string) :
  let o := AuthCallback.handleCallback backend code state localStorage in
  (AuthCallback.failure o = None ->
   AuthCallback.storage o !! "twitter_token" <> Some "" ->
   Session.App_render (AuthCallback.storage o)
   = "<authenticated-view></authenticated-view>")
  /\ (AuthCallback.failure o <> None ->
      localStorage !! "twitter_signed_data" = None ->
      Session.App_render (AuthCallback.storage o) = "<twitter-login></twitter-login>").
Proof.
  cbv zeta. split.
  - unfold AuthCallback.handleCallback, AuthCallback.failed.
    destruct code as [code_|]; [|discriminate].
    destruct (localStorage !! "pkce_verifier") as [verifier_|] eqn:Ev; [|discriminate].
    destruct (_ || _); [discriminate|].
    destruct (negb (bool_decide _)); [discriminate|].
    destruct (backend (AuthCallback.TokenExchange _ _)) as [response|]; [|discriminate].
    destruct (negb (ok response)); [discriminate|].
    destruct (property _ _) as [access_token|]; [|discriminate].
    destruct (backend (AuthCallback.UserData _)) as [userResponse|]; [|discriminate].
    destruct (negb (ok userResponse)); [discriminate|].
    intros _. cbn [AuthCallback.storage].
    unfold Session.App_render, Session.isAuthenticated.
    rewrite !lookup_delete_ne by discriminate.
    rewrite lookup_insert_eq.
    rewrite lookup_insert_ne by discriminate. rewrite lookup_insert_eq.
    intros Htoken. cbn [missing].
    destruct (String.eqb_spec (ToString_opt access_token) "") as [E|_];
      [now rewrite E in Htoken|].
    destruct (String.eqb_spec (JSON_stringify (body userResponse) None) "") as [E|_];
      [now apply JSON_stringify_nonempty in E|].
    reflexivity.
  - intros Hfail Hdata.
    unfold Session.App_render, Session.isAuthenticated.
    rewrite (HandshakeClaims.handleCallback_failure_keeps_storage_keys backend code
               state localStorage "twitter_signed_data") by (discriminate || exact Hfail).
    rewrite Hdata. cbn [missing negb]. now rewrite andb_false_r.
Qed.

Lemma lookup_handleLogout (localStorage : gmap string string) (key : string) :
  Session.handleLogout localStorage !! key
  = if bool_decide (key ∈ Session.STORAGE_KEYS) then None else localStorage !! key.
Proof.
  unfold Session.handleLogout, Session.STORAGE_KEYS. cbn [fold_left].
  case_bool_decide as Hin.
  - rewrite !elem_of_cons in Hin.
    destruct Hin as [->|[->|[->|[->|Hin]]]];
      [..|now apply elem_of_nil in Hin];
      rewrite ?(lookup_delete_ne (M:=gmap string)) by discriminate;
      apply lookup_delete_eq.
  - rewrite !not_elem_of_cons in Hin. destruct Hin as (H1 & H2 & H3 & H4 & _).
    now rewrite !lookup_delete_ne by congruence.
Qed.

(** X14: the two ways out of a session. [handleLogout] of the
    authenticated view removes the signed data, the token, the verifier and
    the state and nothing else, so a GitHub token stays; the Disconnect
    button of the status panel removes the Twitter token alone, so the
    signed data stays in [localStorage]. After either, [App] renders the
    login. *)
Theorem logout_and_disconnect (localStorage : gmap string string) :
  let out := Session.handleLogout localStorage in
  let off := Session.disconnect (Some "twitter") localStorage in
  (forall key, key ∈ Session.STORAGE_KEYS -> out !! key = None)
  /\ (forall key, key ∉ Session.STORAGE_KEYS -> out !! key = localStorage !! key)
  /\ Session.App_render out = "<twitter-login></twitter-login>"
  /\ off !! "twitter_token" = None
  /\ (forall key, key <> "twitter_token" -> off !! key = localStorage !! key)
  /\ Session.App_render off = "<twitter-login></twitter-login>".
Proof.
  cbv zeta. repeat split.
  - intros key Hin. rewrite lookup_handleLogout. now rewrite bool_decide_eq_true_2.
  - intros key Hin. rewrite lookup_handleLogout. now rewrite bool_decide_eq_false_2.
  - unfold Session.App_render, Session.isAuthenticated.
    rewrite !lookup_handleLogout. reflexivity.
  - unfold Session.disconnect. rewrite bool_decide_eq_true_2 by reflexivity.
    apply lookup_delete_eq.
  - intros key Hkey. unfold Session.disconnect.
    rewrite bool_decide_eq_true_2 by reflexivity. now apply lookup_delete_ne.
  - unfold Session.App_render, Session.isAuthenticated, Session.disconnect.
    rewrite bool_decide_eq_true_2 by reflexivity. now rewrite lookup_delete_eq.
Qed.

End SessionFacts.

(** ** The GitHub side *)

Module GitHubFacts.
Import Encoding Json Browser TwitterRoutes TwitterRoutesFacts.

(** X21: when [GITHUB_CLIENT_ID] is set, [POST /auth] of the GitHub routes
    answers 200 with one member, the authorization URL; its query names
    the client, the fixed redirect URI and scope as [URLSearchParams]
    escapes them, and a state that is the hexadecimal text of
    [crypto.randomBytes(16)], two digits for each byte, which the handler
    keeps nowhere. *)
Theorem github_auth_draws_its_state (env : Env) (randomBytes : nat -> list byte) :
  env_set (GITHUB_CLIENT_ID env) = true ->
  GitHubRoutes.auth env randomBytes
  = res_json (JObj [("url", JStr (
      "https://github.com/login/oauth/authorize?client_id="
      +:+ urlencode (env_str (GITHUB_CLIENT_ID env))
      +:+ "&redirect_uri=http%3A%2F%2Flocalhost%3A5173%2Fgithub-callback"
      +:+ "&scope=read%3Auser+repo&state="
      +:+ hex (randomBytes 16%nat)
      +:+ "&response_type=code&allow_signup=true"))])
  /\ String.length (hex (randomBytes 16%nat)) = (2 * List.length (randomBytes 16%nat))%nat
  /\ forallb is_hex_digit (list_ascii_of_string (hex (randomBytes 16%nat))) = true.
Proof.
  intros Hid. split; [|split; [apply hex_length|apply hex_is_hex]].
  unfold GitHubRoutes.auth. rewrite Hid. cbn [negb]. do 4 f_equal.
  unfold URLSearchParams_toString. cbn [map String.concat fst snd].
  rewrite urlencode_hex.
  change (urlencode "client_id") with "client_id".
  change (urlencode "redirect_uri") with "redirect_uri".
  change (urlencode "scope") with "scope".
  change (urlencode "state") with "state".
  change (urlencode "response_type") with "response_type".
  change (urlencode "allow_signup") with "allow_signup".
  change (urlencode "http://localhost:5173/github-callback")
    with "http%3A%2F%2Flocalhost%3A5173%2Fgithub-callback".
  change (urlencode "read:user repo") with "read%3Auser+repo".
  change (urlencode "code") with "code".
  change (urlencode "true") with "true".
  rewrite !append_assoc. reflexivity.
Qed.

Lemma github_auth_draws_its_state_witness :
  GitHubRoutes.auth Samples.env Samples.counting_bytes
  = res_json (JObj [("url", JStr (
      "https://github.com/login/oauth/authorize?client_id=gh"
      +:+ "&redirect_uri=http%3A%2F%2Flocalhost%3A5173%2Fgithub-callback"
      +:+ "&scope=read%3Auser+repo&state=000102030405060708090a0b0c0d0e0f"
      +:+ "&response_type=code&allow_signup=true"))]).
Proof.
  exact (proj1 (github_auth_draws_its_state Samples.env Samples.counting_bytes eq_refl)).
Defined.

(** The outcome of the GitHub callback in front of the token route. *)
Lemma github_callback_cases (env : Env)
    (github : GitHubRoutes.TokenRequest -> ProviderReply)
    (code state : option string) (localStorage : gmap string string) :
  let o := GitHubCallback.handleCallback
             (GitHubCallback.served (GitHubRoutes.token env github))
             code state localStorage in
  (exists c r token,
     code = Some c /\ c <> ""
     /\ axios (github {| GitHubRoutes.client_id := GITHUB_CLIENT_ID env;
                         GitHubRoutes.client_secret := GITHUB_CLIENT_SECRET env;
                         GitHubRoutes.code := Some (JStr c);
                         GitHubRoutes.redirect_uri :=
                           "http://localhost:5173/github-callback" |}) = Some r
     /\ property "access_token" (data r) = Some (Some token)
     /\ truthy (Some token) = true
     /\ GitHubCallback.storage o = <["github_token" := ToString token]> localStorage
     /\ GitHubCallback.location o = Some "/"
     /\ GitHubCallback.shown o = None)
  \/ (GitHubCallback.storage o = localStorage
      /\ GitHubCallback.location o = None
      /\ GitHubCallback.shown o
         = Some "Failed to complete GitHub authentication. Please try again.").
Proof.
  cbv zeta. unfold GitHubCallback.handleCallback, GitHubCallback.failed.
  destruct code as [c|]; [|now right].
  cbn [missing]. destruct (String.eqb_spec c "") as [->|Hc]; [now right|].
  unfold GitHubCallback.served, GitHubRoutes.token.
  cbn [assoc String.eqb Ascii.eqb Bool.eqb truthy].
  destruct (String.eqb_spec c "") as [E|_]; [contradiction|]. cbn [negb].
  destruct (axios (github _)) as [r|] eqn:Er; [|now right].
  change (ok (res_json (data r))) with true. cbn [negb res_json body].
  destruct (property "access_token" (data r)) as [[token|]|] eqn:Et;
    [|now right|now right].
  destruct (truthy (Some token)) eqn:Etruthy; [|now right].
  left. exists c, r, token. cbn [ToString_opt]. tauto.
Qed.

(** X22: in front of the token route, the GitHub callback page writes
    [github_token] and goes to [/] only when the provider answered the
    exchange with a 2xx status and a truthy [access_token], which it stores
    as a text; in every other case, the 200 answer with an error in its
    body that GitHub gives for a bad code included, [localStorage] stays as
    it was, the page stays, and it shows the one failure message. *)
Theorem github_token_is_stored_only_with_a_token (env : Env)
    (github : GitHubRoutes.TokenRequest -> ProviderReply)
    (code state : option string) (localStorage : gmap string string) :
  let o := GitHubCallback.handleCallback
             (GitHubCallback.served (GitHubRoutes.token env github))
             code state localStorage in
  ((exists c r token,
      code = Some c /\ c <> ""
      /\ axios (github {| GitHubRoutes.client_id := GITHUB_CLIENT_ID env;
                          GitHubRoutes.client_secret := GITHUB_CLIENT_SECRET env;
                          GitHubRoutes.code := Some (JStr c);
                          GitHubRoutes.redirect_uri :=
                            "http://localhost:5173/github-callback" |}) = Some r
      /\ property "access_token" (data r) = Some (Some token)
      /\ truthy (Some token) = true
      /\ GitHubCallback.storage o = <["github_token" := ToString token]> localStorage
      /\ GitHubCallback.location o = Some "/"
      /\ GitHubCallback.shown o = None)
   \/ (GitHubCallback.storage o = localStorage
       /\ GitHubCallback.location o = None
       /\ GitHubCallback.shown o
          = Some "Failed to complete GitHub authentication. Please try again."))
  /\ (forall r error_body,
        code <> None ->
        (forall request, github request = Reply r) ->
        data r = JObj [("error", error_body)] ->
        GitHubCallback.storage o = localStorage
        /\ GitHubCallback.shown o
           = Some "Failed to complete GitHub authentication. Please try again.").
Proof.
  cbv zeta. split; [apply github_callback_cases|].
  intros r error_body Hcode Hgithub Hdata.
  destruct (github_callback_cases env github code state localStorage)
    as [(c & r' & token & _ & _ & Hr & Htoken & _)|(H1 & _ & H2)]; [|now split].
  rewrite Hgithub in Hr. cbn [axios] in Hr.
  destruct (_ && _); [|discriminate Hr]. injection Hr as <-.
  rewrite Hdata in Htoken. discriminate Htoken.
Qed.

(** X23: the GitHub callback accepts any state. Neither the callback page
    nor the token route compares the state of the URL with anything: what
    is stored, where the page goes and what it shows are the same for every
    state, a missing one included. *)
Theorem github_callback_accepts_any_state (env : Env)
    (github : GitHubRoutes.TokenRequest -> ProviderReply)
    (code state state' : option string) (localStorage : gmap string string) :
  let o := GitHubCallback.handleCallback
             (GitHubCallback.served (GitHubRoutes.token env github))
             code state localStorage in
  let o' := GitHubCallback.handleCallback
              (GitHubCallback.served (GitHubRoutes.token env github))
              code state' localStorage in
  GitHubCallback.storage o = GitHubCallback.storage o'
  /\ GitHubCallback.location o = GitHubCallback.location o'
  /\ GitHubCallback.shown o = GitHubCallback.shown o'
  /\ (forall req_body req_body',
        assoc "code" req_body = assoc "code" req_body' ->
        GitHubRoutes.token env github req_body
        = GitHubRoutes.token env github req_body').
Proof.
  cbv zeta.
  assert (Hroute : forall req_body req_body',
            assoc "code" req_body = assoc "code" req_body' ->
            GitHubRoutes.token env github req_body
            = GitHubRoutes.token env github req_body').
  { intros req_body req_body' E. unfold GitHubRoutes.token. now rewrite E. }
  unfold GitHubCallback.handleCallback, GitHubCallback.failed.
  destruct code as [c|]; [|now repeat split].
  destruct (missing (Some c)); [now repeat split|].
  unfold GitHubCallback.served, GitHubRoutes.token.
  cbn [assoc String.eqb Ascii.eqb Bool.eqb].
  destruct (negb (truthy (Some (JStr c)))); [now repeat split|].
  destruct (axios (github _)) as [r|]; [|now repeat split].
  destruct (negb (ok (res_json (data r)))); [now repeat split|].
  destruct (property _ _) as [token|]; [|now repeat split].
  destruct (truthy token); now repeat split.
Qed.

(** X24: [exchangeCodeForToken] of the GitHub service resolves exactly
    when the provider answers with a 2xx status and a truthy
    [access_token], and then with that token alone; every failure, the
    missing token included, rejects with the same message. *)
Theorem exchangeCodeForToken_settles (this : GitHubService.GitHubService)
    (github : GitHubService.TokenRequest -> ProviderReply) (code state : string) :
  let request :=
    {| GitHubService.client_id := GitHubService.clientId this;
       GitHubService.client_secret := GitHubService.clientSecret this;
       GitHubService.code := code;
       GitHubService.redirect_uri := GitHubService.callbackUrl this;
       GitHubService.state := state |} in
  let settled := GitHubService.exchangeCodeForToken this github code state in
  (forall token,
     settled = GitHubService.Resolved token
     <-> exists r, axios (github request) = Some r
                   /\ property "access_token" (data r) = Some (Some token)
                   /\ truthy (Some token) = true)
  /\ (forall message, settled = GitHubService.Rejected message ->
        message = "Failed to exchange code for token").
Proof.
  cbv zeta. unfold GitHubService.exchangeCodeForToken.
  destruct (axios (github _)) as [r|].
  - destruct (property "access_token" (data r)) as [[token|]|] eqn:Ep.
    + destruct (truthy (Some token)) eqn:Et; cbn [negb]; split.
      * intros token'. split.
        -- intros [= <-]. exists r. auto.
        -- intros (r' & [= <-] & Hp & _). rewrite Ep in Hp. now injection Hp as ->.
      * discriminate.
      * intros token'. split; [discriminate|].
        intros (r' & [= <-] & Hp & H). rewrite Ep in Hp. injection Hp as <-.
        congruence.
      * now intros message [= <-].
    + cbn [truthy negb]. split.
      * intros token. split; [discriminate|].
        intros (r' & [= <-] & Hp & _). rewrite Ep in Hp. discriminate Hp.
      * now intros message [= <-].
    + split.
      * intros token. split; [discriminate|].
        intros (r' & [= <-] & Hp & _). rewrite Ep in Hp. discriminate Hp.
      * now intros message [= <-].
  - split.
    + intros token. split; [discriminate|]. now intros (r' & [=] & _).
    + now intros message [= <-].
Qed.

(** X25: the status panel in front of the user route of the GitHub
    routes. Without a stored token it asks nothing and has no user; with a
    token of one word it has exactly what the provider answers to
    [Bearer] and that token with a 2xx status, and no user when the
    provider answers anything else or not at all. *)
Theorem status_panel_shows_what_the_provider_answers
    (github : string -> ProviderReply) (localStorage : gmap string string) :
  let info :=
    Session.getUserInfo "github_token"
      (fun h => Response (GitHubRoutes.user github (Some h))) localStorage in
  (missing (localStorage !! "github_token") = true -> info = JNull)
  /\ (forall token,
        localStorage !! "github_token" = Some token -> token <> "" ->
        PkceText.all_chars (fun c => negb (Ascii.eqb c " ")) token = true ->
        info = match axios (github ("Bearer " +:+ token)) with
               | Some r => data r
               | None => JNull
               end).
Proof.
  cbv zeta. unfold Session.getUserInfo. split.
  - destruct (localStorage !! "github_token") as [token|]; [|reflexivity].
    now intros ->.
  - intros token -> Hne Hword. apply SessionFacts.missing_Some in Hne. rewrite Hne.
    assert (E : nth 1 (split_space ("Bearer " +:+ token)) "undefined" = token).
    { change ("Bearer " +:+ token) with ("Bearer" +:+ String " " token).
      rewrite (RouteFacts.split_space_word "Bearer") by reflexivity.
      now rewrite RouteFacts.split_space_last. }
    unfold GitHubRoutes.user. rewrite RouteFacts.prefix_Bearer, !E.
    now destruct (axios (github ("Bearer " +:+ token))).
Qed.

End GitHubFacts.

(** ** From one end to the other *)

Module FlowFacts.
Import Encoding Json Browser TwitterRoutes TwitterRoutesFacts AgeProof.

Section Toolchain.
Variable getCircuit : bool.
Variable execute : Z -> option (list byte).
Variable generateProof : list byte -> option ProofData.
Variable verifyProof : ProofData -> option bool.

#[local] Abbreviation continue :=
  (AgeProof.continue getCircuit execute generateProof verifyProof).
#[local] Abbreviation step :=
  (AgeProof.step getCircuit execute generateProof verifyProof).
#[local] Abbreviation submit :=
  (AgeProof.submit getCircuit execute generateProof verifyProof).

Lemma settle_at i now pg r :
  runs pg !! i = Some r ->
  step (Settle i now) pg
  = set_run i (snd (continue now r pg)) (fst (continue now r pg)).
Proof.
  intros Hr. cbn [AgeProof.step]. rewrite Hr. now destruct (continue now r pg).
Qed.

Lemma lookup_last_run (l : list Run) (r : Run) : (l ++ [r]) !! List.length l = Some r.
Proof. rewrite lookup_app_r by lia. now rewrite Nat.sub_diag. Qed.

Lemma insert_last_run (l : list Run) (r r' : Run) :
  <[List.length l := r']> (l ++ [r]) = l ++ [r'].
Proof.
  rewrite insert_app_r_alt by lia. now rewrite Nat.sub_diag.
Qed.

Ltac settle r :=
  match goal with
  | |- context [AgeProof.step _ _ _ _ (Settle ?i ?n) ?p] =>
      lazymatch p with
      | AgeProof.step _ _ _ _ _ _ => fail
      | _ =>
          rewrite (settle_at i n p r)
            by (cbn [set_run spawn showResult setItem runs];
                rewrite ?insert_last_run; apply lookup_last_run);
          cbn [AgeProof.continue fst snd]
      end
  end.

(** X26: one submission alone on an initialized page, run to its end. It
    shows "Generating proof..." and then exactly one result: the success
    with the serialized proof, which is also written under [ageProof], when
    the executor, the prover and the verifier all succeed; "Verification
    failed" when the verifier answers false; the error message when any of
    the three throws. [localStorage] changes in the first case only, and
    the run has returned. *)
Theorem submission_alone (pg : Page) (input : string) (age now : Z) :
  initialized pg = true ->
  parseInt input = Some age ->
  let pg' := submit input now pg in
  let result :=
    match execute age with
    | Some witness =>
        match generateProof witness with
        | Some p =>
            match verifyProof p with
            | Some true => (Success (serializeProof now p), true)
            | Some false => (VerificationFailed, false)
            | None => (ErrorOccurred, false)
            end
        | None => (ErrorOccurred, false)
        end
    | None => (ErrorOccurred, false)
    end in
  shown pg' = result :: (Generating, true) :: shown pg
  /\ localStorage pg'
     = match result with
       | (Success d, _) =>
           <["ageProof" := JSON_stringify (to_json d) None]> (localStorage pg)
       | _ => localStorage pg
       end
  /\ runs pg' = runs pg ++ [Returned].
Proof.
  intros Hi Hage. cbv zeta. unfold AgeProof.submit, AgeProof.play.
  cbn [fold_left].
  change (AgeProof.step getCircuit execute generateProof verifyProof (Click input) pg)
    with (click input pg).
  rewrite (AgeProofFacts.click_starts_a_run input age pg Hage), Hi.
  settle (AwaitExecute age).
  destruct (execute age) as [witness|]; cbn [fst snd].
  - settle (AwaitProve witness).
    destruct (generateProof witness) as [p|]; cbn [fst snd].
    + settle (AwaitVerify p).
      destruct (verifyProof p) as [[|]|]; cbn [fst snd]; settle Returned;
        cbn [fst snd set_run spawn showResult setItem runs shown localStorage];
        rewrite !insert_last_run; repeat split.
    + do 2 settle Returned.
      cbn [fst snd set_run spawn showResult setItem runs shown localStorage].
      rewrite !insert_last_run. repeat split.
  - do 3 settle Returned.
    cbn [set_run spawn showResult setItem runs shown localStorage].
    rewrite !insert_last_run. repeat split.
Qed.

End Toolchain.

Lemma submission_alone_witness :
  shown (AgeProof.submit true Samples.toy_execute Samples.toy_generateProof
           Samples.toy_verifyProof "25" 5
           {| initialized := true; localStorage := ∅; shown := []; runs := [Returned] |})
  = [(Success {| s_proof := [25]; s_publicInputs := Some []; s_timestamp := 5 |}, true);
     (Generating, true)].
Proof.
  exact (proj1 (submission_alone true Samples.toy_execute Samples.toy_generateProof
    Samples.toy_verifyProof
    {| initialized := true; localStorage := ∅; shown := []; runs := [Returned] |}
    "25" 25 5 eq_refl eq_refl)).
Defined.

Lemma token_asks_once (env : Env) (twitter : TokenRequest -> ProviderReply)
    (code verifier_ : string) :
  token env twitter [("code", JStr code); ("code_verifier", JStr verifier_)]
  = token env
      (fun _ => twitter (token_request env (Some (JStr code)) (Some (JStr verifier_))))
      [("code", JStr code); ("code_verifier", JStr verifier_)].
Proof. reflexivity. Qed.

(** X27: the PKCE pair from the login to the provider. After a login has
    stored its session, the callback that brings back its state has the
    token route ask the provider once, with a form that ends in the
    verifier of the login as it was generated; the challenge that the login
    posted for the authorization URL is the unpadded base64url text of the
    SHA-256 hash of that verifier. *)
Theorem exchange_carries_the_preimage_of_the_challenge
    (sha256 : list byte -> list byte) (env : Env)
    (api : list (string * json) -> FetchResult)
    (twitter : TokenRequest -> ProviderReply) (user : option string -> HttpResponse)
    (array : list byte) (uuid code : string) (localStorage : gmap string string) :
  array <> [] -> uuid <> "" -> code <> "" ->
  let pkce := Pkce.generatePKCEChallenge sha256 array in
  let login := TwitterLogin.handleLogin sha256 api array uuid localStorage in
  let request :=
    token_request env (Some (JStr code)) (Some (JStr (Pkce.verifier pkce))) in
  AuthCallback.handleCallback (AuthCallback.served (token env twitter) user)
    (Some code) (Some uuid) (TwitterLogin.storage login)
  = AuthCallback.handleCallback
      (AuthCallback.served (token env (fun _ => twitter request)) user)
      (Some code) (Some uuid) (TwitterLogin.storage login)
  /\ form request
     = "grant_type=authorization_code&code=" +:+ urlencode code
       +:+ "&redirect_uri="
       +:+ urlencode (env_or (REDIRECT_URI env) "http://localhost:5174/callback")
       +:+ "&code_verifier=" +:+ Pkce.verifier pkce
  /\ TwitterLogin.posted login
     = [("code_challenge", JStr (Pkce.challenge pkce)); ("state", JStr uuid)]
  /\ Pkce.challenge pkce
     = base64url_unpadded (sha256 (encode (Pkce.verifier pkce))).
Proof.
  intros Harray Huuid Hcode. cbv zeta. split; [|split; [|split]].
  - rewrite SessionFacts.handleLogin_storage.
    set (session := TwitterLogin.storeAuthState (hex array) uuid localStorage).
    assert (Ev : session !! "pkce_verifier" = Some (hex array)).
    { subst session. unfold TwitterLogin.storeAuthState.
      rewrite lookup_insert_ne by discriminate. apply lookup_insert_eq. }
    assert (Es : session !! "oauth_state" = Some uuid).
    { subst session. apply lookup_insert_eq. }
    unfold AuthCallback.handleCallback. rewrite Ev, Es.
    cbn [AuthCallback.served Pkce.generatePKCEChallenge Pkce.verifier].
    now rewrite <- token_asks_once.
  - cbn [token_request form Pkce.generatePKCEChallenge Pkce.verifier].
    unfold URLSearchParams_toString. cbn [map String.concat fst snd ToString_opt ToString].
    rewrite urlencode_hex.
    change (urlencode "grant_type") with "grant_type".
    change (urlencode "authorization_code") with "authorization_code".
    change (urlencode "code") with "code".
    change (urlencode "redirect_uri") with "redirect_uri".
    change (urlencode "code_verifier") with "code_verifier".
    rewrite !append_assoc. reflexivity.
  - unfold TwitterLogin.handleLogin.
    destruct (api _) as [r|]; [|reflexivity].
    destruct (ok r); [|reflexivity].
    now destruct (property "url" (body r)).
  - cbn [Pkce.generatePKCEChallenge Pkce.challenge Pkce.verifier].
    apply (HandshakeClaims.base64URLEncode_spec (sha256 (encode (hex array)))).
Qed.

Lemma exchange_carries_the_preimage_of_the_challenge_witness :
  form (token_request Samples.env (Some (JStr "c0de")) (Some (JStr "0aff")))
  = "grant_type=authorization_code&code=c0de"
    +:+ "&redirect_uri=http%3A%2F%2Flocalhost%3A5174%2Fcallback"
    +:+ "&code_verifier=0aff".
Proof.
  refine (proj1 (proj2 (exchange_carries_the_preimage_of_the_challenge
    Samples.toy_digest Samples.env (fun _ => NetworkError) (fun _ => NoReply)
    (fun _ => res_error 500 "Failed to fetch or sign user data")
    [x0a; xff] "st4te" "c0de" ∅ _ _ _))); discriminate.
Defined.

End FlowFacts.

(** ** The attestation in the browser *)

Module AttestationFacts.
Import Encoding Json JsonFacts Browser TwitterRoutes TwitterRoutesFacts.



End AttestationFacts.
